(** * Replay memory of the imitation-learning agent: ring buffer and n-step lookahead

    A shallow embedding of [agents/memory.py] ([RingBuffer], [ReplayBuffer])
    and proofs about index arithmetic, wraparound, synchronisation of the
    per-field rings, error paths and the n-step lookahead.

    Conventions of the embedding:
    - Python integers and numpy index values are [Z]; [%] on Python integers
      is floor division remainder ([Z.modulo]) and raises on a zero divisor.
      An index array is an [int64] array: the sum [start + idxs] of
      [get_batch] wraps around at [2^63].  The scalar sum [idx + n] of
      [lookahead] is the one of [Z]: what numpy does with a horizon that
      takes it out of [int64] depends on its version.
    - A float is an exact rational [Q].  The storage of a ring is a
      [float32] array, and an assignment to it rounds every scalar to the
      nearest binary32 value, ties to even ([float32]); a value beyond the
      largest finite binary32 becomes [inf], which [Q] does not have, and
      the statements about stored values take finite ones
      ([f32_finite]).  The rounding of float64 arithmetic ([discount]) is
      outside the model.
    - [np.zeros] refuses ([ValueError]) an array of more than [2^63 - 1]
      bytes, so a ring that exists has fewer than [2^61] slots.
    - A field has a one-dimensional shape [(w,)]: one row of a ring is a
      list of [w] scalars.  A Python value handed to [append] is either a
      one-dimensional ndarray or some other object.
    - A transition is a Python [dict], in insertion order ([pydict]).  The
      [beartype] decorator of [ReplayBuffer.append] checks the first item
      of the dict against [np.ndarray] before the body runs.
    - A call returns the state it leaves behind together with the exception
      it raised, if any: a Python exception does not undo earlier writes.
    - [sample] draws its indices from the random generator; [lookahead] is
      studied on any batch of indices, which covers what [la_sample] hands
      to it.
    - The generators [rollout] and [episode] of [orchestrator.py] are
      functions of [env] and [agent]: the two objects are a record of
      answers over a hidden state, every call on them is logged, and a
      call of [__next__] runs the loop to its next [yield] within a given
      number of passes. *)

From Stdlib Require Import ZArith QArith Qpower Qround Qabs Lia List String Bool.
From stdpp Require Import base list strings gmap.

Local Open Scope Z_scope.

(** ** Exceptions *)

Inductive pyexn : Type :=
| KeyError
| RuntimeError
| ZeroDivisionError
| IndexError
| ValueError
| AssertionError
| TypeError (k : string)
| BeartypeCallHintParamViolation.

(** Result of a call without side effect. *)
Definition res (A : Type) : Type := pyexn + A.

Definition ret {A} (a : A) : res A := inr a.
Definition raise {A} (e : pyexn) : res A := inl e.
Definition bind {A B} (m : res A) (f : A -> res B) : res B :=
  match m with
  | inl e => inl e
  | inr a => f a
  end.

Declare Scope res_scope.
Delimit Scope res_scope with res.
Notation "'do' x <- m ; k" := (bind m (fun x => k))
  (at level 10, x name, m at level 100, k at level 200) : res_scope.
Local Open Scope res_scope.

Fixpoint mapM {A B} (f : A -> res B) (l : list A) : res (list B) :=
  match l with
  | [] => ret []
  | a :: l' => do b <- f a ; do bs <- mapM f l' ; ret (b :: bs)
  end.

(** ** The fragment of Python and numpy the buffer relies on *)

(** A row of a two-dimensional float array. *)
Definition row : Type := list Q.

(** Python values reaching [append]. *)
Inductive pyval : Type :=
| NdArray (a : row)     (* a one-dimensional [np.ndarray] *)
| NotArray.             (* any other object: a float, a bool, ... *)

Definition len {A} (l : list A) : Z := Z.of_nat (List.length l).

(** [a % b] on Python integers. *)
Definition py_mod (a b : Z) : res Z :=
  if b =? 0 then raise ZeroDivisionError else ret (a mod b).

(** [a % b] on a numpy integer array element: a zero divisor gives 0. *)
Definition np_mod (a b : Z) : Z :=
  if b =? 0 then 0 else a mod b.

(** Reduction of an integer index against the first axis: negative
    indices count from the end, anything else out of range raises. *)
Definition np_index {A} (d : list A) (p : Z) : res nat :=
  if (0 <=? p) && (p <? len d) then ret (Z.to_nat p)
  else if (- len d <=? p) && (p <? 0) then ret (Z.to_nat (len d + p))
  else raise IndexError.

(** [d[p]] for an integer [p]. *)
Definition np_getitem {A} (d : list A) (p : Z) : res A :=
  do i <- np_index d p ;
  match d !! i with
  | Some x => ret x
  | None => raise IndexError
  end.

(** Broadcasting of a one-dimensional value against a row of width [w]. *)
Definition np_broadcast (w : nat) (a : row) : res row :=
  if (List.length a =? w)%nat then ret a
  else match a with
       | [x] => ret (repeat x w)
       | _ => raise ValueError
       end.

(** The size in bytes numpy computes for an array of [float32] of the
    shape [(maxlen, w)] before it allocates: the item size times the
    dimensions other than 0. *)
Definition np_nbytes (maxlen : Z) (w : nat) : Z :=
  4 * (if maxlen =? 0 then 1 else maxlen) * (if (w =? 0)%nat then 1 else Z.of_nat w).

(** [np.zeros((maxlen, w), dtype=np.float32)]: [ValueError] for a negative
    dimension and for a size beyond the largest index, [2^63 - 1].  An
    allocation the machine refuses ([MemoryError]) is outside the model. *)
Definition np_zeros (maxlen : Z) (w : nat) : res (list row) :=
  if maxlen <? 0 then raise ValueError
  else if 2 ^ 63 - 1 <? np_nbytes maxlen w then raise ValueError
  else ret (repeat (repeat 0%Q w) (Z.to_nat maxlen)).

(** The exponent [e] of a rational [x <> 0]: [2^e <= |x| < 2^(e+1)]. *)
Definition Qlog2 (x : Q) : Z :=
  let n := Z.abs (Qnum x) in
  let d := Z.pos (Qden x) in
  let k := Z.log2 n - Z.log2 d in
  if (if 0 <=? k then 2 ^ k * d <=? n else d <=? 2 ^ (- k) * n) then k else k - 1.

(** Rounding to the nearest integer, a tie to the even one. *)
Definition round_half_even (x : Q) : Z :=
  let f := Qfloor x in
  match (x - inject_Z f ?= 1 # 2)%Q with
  | Lt => f
  | Gt => f + 1
  | Eq => if Z.even f then f else f + 1
  end.

(** [np.float32(x)], the cast of an assignment into a [float32] array:
    the nearest number with a significand of 24 bits, a tie to the even
    one, on the grid [2^-149] below [2^-126].  A value the cast sends to
    infinity, [|x| >= 2^128 - 2^103], is outside the model, the scalars
    being rationals. *)
Definition float32 (x : Q) : Q :=
  if Qeq_bool x 0 then 0%Q
  else
    let e := Z.max (Qlog2 x) (-126) in
    let ulp := (2 ^ (e - 23))%Q in
    Qred (inject_Z (round_half_even (x / ulp)) * ulp).

(** The cast of a row. *)
Definition float32_row (r : row) : row := float32 <$> r.

(** A value [np.float32] keeps finite. *)
Definition f32_finite (x : Q) : Prop := (Qabs x < 2 ^ 128 - 2 ^ 103)%Q.

(** The value of an [int64] result: sums of [int64] arrays wrap. *)
Definition int64 (z : Z) : Z := (z + 2 ^ 63) mod 2 ^ 64 - 2 ^ 63.

(** ** RingBuffer *)

Module RingBuffer.

Record t : Type := mk {
  maxlen : Z;
  start : Z;
  length : Z;
  shape : nat;          (* [data.shape[1:]], the width of a row *)
  data : list row
}.

(** [self.start = 0], [self.length = 0], [self.data = np.zeros(...)]. *)
Definition __init__ (maxlen : Z) (shape : nat) : res t :=
  do d <- np_zeros maxlen shape ;
  ret (mk maxlen 0 0 shape d).

Definition __len__ (self : t) : Z := length self.

(** The checked read: [KeyError] outside [0, length). *)
Definition __getitem__ (self : t) (idx : Z) : res row :=
  if (idx <? 0) || (idx >=? length self) then raise KeyError
  else do p <- py_mod (start self + idx) (maxlen self) ;
       np_getitem (data self) p.

(** The vectorised read [self.data[(self.start + idxs) % self.maxlen]],
    for the values [idxs] of an [int64] array: the sum is an [int64] array
    too, and wraps. *)
Definition get_batch (self : t) (idxs : list Z) : res (list row) :=
  mapM (fun i => np_getitem (data self) (np_mod (int64 (start self + i)) (maxlen self)))
       idxs.

(** Assignments to the attributes. *)
Definition set_start (self : t) (s : Z) : t :=
  mk (maxlen self) s (length self) (shape self) (data self).
Definition set_length (self : t) (n : Z) : t :=
  mk (maxlen self) (start self) n (shape self) (data self).
Definition set_data (self : t) (d : list row) : t :=
  mk (maxlen self) (start self) (length self) (shape self) d.

(** [self.data[p] = v]: the state afterwards and the exception raised.
    The value is broadcast to the row and cast to the [float32] of the
    storage. *)
Definition setitem (self : t) (p : Z) (v : row) : t * option pyexn :=
  match np_index (data self) p with
  | inl e => (self, Some e)
  | inr i =>
      match np_broadcast (shape self) v with
      | inl e => (self, Some e)
      | inr r => (set_data self (<[i := float32_row r]> (data self)), None)
      end
  end.

(** [self.data[(self.start + self.length - 1) % self.maxlen] = v] *)
Definition write_last (self : t) (v : row) : t * option pyexn :=
  match py_mod (start self + length self - 1) (maxlen self) with
  | inl e => (self, Some e)
  | inr p => setitem self p v
  end.

(** [append]: the decorator rejects a value that is no ndarray before the
    body runs; the body updates [length] or [start] first and writes then. *)
Definition append (self : t) (v : pyval) : t * option pyexn :=
  match v with
  | NotArray => (self, Some BeartypeCallHintParamViolation)
  | NdArray a =>
      if length self <? maxlen self then
        write_last (set_length self (length self + 1)) a
      else if length self =? maxlen self then
        match py_mod (start self + 1) (maxlen self) with
        | inl e => (self, Some e)
        | inr s => write_last (set_start self s) a
        end
      else (self, Some RuntimeError)
  end.

(** Successive appends; the run stops at the first exception. *)
Fixpoint appends (self : t) (vs : list pyval) : t * option pyexn :=
  match vs with
  | [] => (self, None)
  | v :: vs' =>
      match append self v with
      | (self', None) => appends self' vs'
      | r => r
      end
  end.

End RingBuffer.

Arguments float32 : simpl never.
Arguments int64 : simpl never.
Arguments RingBuffer.append : simpl never.
Arguments RingBuffer.get_batch : simpl never.
Arguments RingBuffer.__getitem__ : simpl never.

(** ** Batches *)

(** An index array.  [np.array(range(a, b))] of an empty range is an empty
    float64 array, which numpy refuses as an index. *)
Inductive ndindex : Type :=
| IntArray (l : list Z)
| EmptyFloatArray.

Definition np_array_range (a b : Z) : ndindex :=
  if b <=? a then EmptyFloatArray else IntArray (seqZ a (b - a)).

(** A batch: the dict from field names to two-dimensional arrays, and the
    index array kept under the reserved key ["idxs"]. *)
Record batch : Type := mk_batch {
  cols : gmap string (list row);
  idxs : ndindex
}.

(** [d[k]] on a batch, for a field name [k]. *)
Definition batch_get (d : batch) (k : string) : res (list row) :=
  match cols d !! k with
  | Some x => ret x
  | None => raise KeyError
  end.

(** [array_min2d]: arrays of rank two or more pass unchanged; every array
    of rows is of rank two. *)
Definition array_min2d (x : list row) : list row := x.

(** [x[:k]] *)
Definition np_slice_to {A} (x : list A) (k : Z) : list A :=
  if k <? 0 then take (Z.to_nat (len x + k)) x else take (Z.to_nat k) x.

(** [1.0 in dones]: some scalar of the array equals 1.0. *)
Definition np_contains_one (dones : list row) : bool :=
  existsb (existsb (fun d => Qeq_bool d 1)) dones.

(** Truth value of [r == 1.0] for a row [r], as [list.index] takes it:
    defined for an array of one element only. *)
Definition row_eq_one (r : row) : res bool :=
  match r with
  | [d] => ret (Qeq_bool d 1)
  | _ => raise ValueError
  end.

(** [list(dones).index(1.0)] *)
Fixpoint list_index_one (dones : list row) : res Z :=
  match dones with
  | [] => raise ValueError
  | r :: rest =>
      do b <- row_eq_one r ;
      if b then ret 0 else do j <- list_index_one rest ; ret (1 + j)
  end.

(** Sum of two rows and product of a row by a scalar. *)
Definition vadd (x y : row) : row := zip_with Qplus x y.
Definition vscale (g : Q) (x : row) : row := Qmult g <$> x.

(** Modelled from the spec: [helpers.math_util.discount] is imported by
    [memory.py] but its module is not among the sources.  The discounted
    sums along the first axis, [y[t] = x[t] + gamma * x[t+1] + gamma^2 *
    x[t+2] + ...], by the backward recurrence [y[t] = x[t] + gamma * y[t+1]]. *)
Fixpoint discount (x : list row) (gamma : Q) : list row :=
  match x with
  | [] => []
  | r :: x' =>
      match discount x' gamma with
      | [] => [r]
      | y :: ys => vadd r (vscale gamma y) :: y :: ys
      end
  end.

(** [dict[k]] on an insertion-ordered dict with string keys. *)
Fixpoint dict_get {V} (d : list (string * V)) (k : string) : res V :=
  match d with
  | [] => raise KeyError
  | (k', v) :: d' => if String.eqb k' k then ret v else dict_get d' k
  end.

(** A Python dict from field names to values: its items, in insertion
    order.  The keys of a dict are distinct. *)
Definition pydict : Type := list (string * pyval).

Typeclasses Opaque pydict.

(** [d.get(k)] and [d.keys()] *)
#[global] Instance pydict_lookup : Lookup string pyval pydict :=
  fun k d => match dict_get d k with inr v => Some v | inl _ => None end.
#[global] Instance pydict_dom : Dom pydict (gset string) :=
  fun d => list_to_set (fst <$> (d : list (string * pyval))).

(** What [@beartype] checks of an argument annotated
    [dict[str, np.ndarray]]: the first item of the dict, and no other. *)
Definition beartype_dict_ndarray (d : pydict) : bool :=
  match d with
  | (_, NotArray) :: _ => false
  | _ => true
  end.

(** ** ReplayBuffer *)

(** One entry of the lookahead batch: what one pass of the loop of
    [lookahead] appends to the lists of [la_batch]. *)
Record la_entry : Type := mk_la {
  la_obs0 : row;
  la_obs1 : row;
  la_acs : row;
  la_rews : row;
  la_dones1 : Q;
  la_td_len : Z;
  la_obs1_td1 : row;
  la_obs0_orig : option row;
  la_obs1_orig : option row;
  la_acs_orig : option row
}.

Definition patcher_t : Type := list row -> list row -> list row -> list row.

Module ReplayBuffer.

Record t : Type := mk {
  capacity : Z;
  ring_buffers : list (string * RingBuffer.t)
}.

(** One ring per entry of [erb_shapes], in dict order. *)
Definition __init__ (capacity : Z) (erb_shapes : list (string * nat)) : res t :=
  do rbs <- mapM (fun ns => do rb <- RingBuffer.__init__ capacity ns.2 ; ret (ns.1, rb))
                 erb_shapes ;
  ret (mk capacity rbs).

(** [len(self.ring_buffers["obs0"])] *)
Definition num_entries (self : t) : res Z :=
  do pick <- dict_get (ring_buffers self) "obs0" ;
  ret (RingBuffer.__len__ pick).

(** [(pick.start + pick.length - 1) % pick.maxlen] for the ring of obs0. *)
Definition latest_entry_idx (self : t) : res Z :=
  do pick <- dict_get (ring_buffers self) "obs0" ;
  py_mod (RingBuffer.start pick + RingBuffer.length pick - 1) (RingBuffer.maxlen pick).

(** The loop of [batchify] over the fields, in dict order. *)
Fixpoint batchify_loop (rbs : list (string * RingBuffer.t)) (ix : ndindex)
    (transitions : gmap string (list row)) : res (gmap string (list row)) :=
  match rbs with
  | [] => ret transitions
  | (n, rb) :: rest =>
      do ll <- match ix with
               | IntArray l => RingBuffer.get_batch rb l
               | EmptyFloatArray => raise IndexError
               end ;
      let aa := array_min2d ll in
      batchify_loop rest ix (<[n := aa]> transitions)
  end.

(** [batchify]: the columns of all fields, then [transitions["idxs"] = idxs]. *)
Definition batchify (self : t) (ix : ndindex) : res batch :=
  do transitions <- batchify_loop (ring_buffers self) ix ∅ ;
  ret (mk_batch (delete "idxs" transitions) ix).

(** [la_transitions["rews"] = patcher(obs0, acs, obs1)] when a patcher is given. *)
Definition patch (la_transitions : batch) (patcher : option patcher_t) : res batch :=
  match patcher with
  | None => ret la_transitions
  | Some f =>
      do o0 <- batch_get la_transitions "obs0" ;
      do ac <- batch_get la_transitions "acs" ;
      do o1 <- batch_get la_transitions "obs1" ;
      ret (mk_batch (<["rews" := f o0 ac o1]> (cols la_transitions)) (idxs la_transitions))
  end.

(** [la_end_idx = min(idx + n, self.num_entries) - 1] *)
Definition la_end_idx_of (idx n num_entries : Z) : Z :=
  Z.min (idx + n) num_entries - 1.

(** [la_idxs = np.array(range(idx, la_end_idx + 1))] *)
Definition la_idxs_of (idx la_end_idx : Z) : ndindex :=
  np_array_range idx (la_end_idx + 1).

(** [ep_end_idx = idx + list(dones).index(1.0) if 1.0 in dones else la_end_idx] *)
Definition ep_end_idx_of (idx la_end_idx : Z) (dones : list row) : res Z :=
  if np_contains_one dones
  then do j <- list_index_one dones ; ret (idx + j)
  else ret la_end_idx.

(** [la_is_trimmed = 0.0 if ep_end_idx == la_end_idx else 1.0] *)
Definition la_is_trimmed_of (ep_end_idx la_end_idx : Z) : Q :=
  if ep_end_idx =? la_end_idx then 0%Q else 1%Q.

(** [la_transitions[k][i]] if the field [k] is present. *)
Definition orig_at (la_transitions : batch) (k : string) (i : Z) : res (option row) :=
  match cols la_transitions !! k with
  | None => ret None
  | Some x => do r <- np_getitem x i ; ret (Some r)
  end.

(** The body of the loop of [lookahead] for one sampled index. *)
Definition lookahead_step (self : t) (idx n : Z) (gamma : Q)
    (patcher : option patcher_t) : res la_entry :=
  do num <- num_entries self ;
  let la_end_idx := la_end_idx_of idx n num in
  let la_idxs := la_idxs_of idx la_end_idx in
  do la_transitions <- batchify self la_idxs ;
  do la_transitions <- patch la_transitions patcher ;
  do dones <- batch_get la_transitions "dones1" ;
  do ep_end_idx <- ep_end_idx_of idx la_end_idx dones ;
  let la_is_trimmed := la_is_trimmed_of ep_end_idx la_end_idx in
  let td_len := ep_end_idx - idx + 1 in
  do rews <- batch_get la_transitions "rews" ;
  let la_rews := np_slice_to rews td_len in
  do la_discounted_sum_n_rews <- np_getitem (discount la_rews gamma) 0 ;
  do obs0 <- batch_get la_transitions "obs0" ;
  do obs0_0 <- np_getitem obs0 0 ;
  do obs1 <- batch_get la_transitions "obs1" ;
  do obs1_end <- np_getitem obs1 (td_len - 1) ;
  do acs <- batch_get la_transitions "acs" ;
  do acs_0 <- np_getitem acs 0 ;
  do obs1_0 <- np_getitem obs1 0 ;
  do obs0_orig <- orig_at la_transitions "obs0_orig" 0 ;
  do obs1_orig <- orig_at la_transitions "obs1_orig" (td_len - 1) ;
  do acs_orig <- orig_at la_transitions "acs_orig" 0 ;
  ret (mk_la obs0_0 obs1_end acs_0 la_discounted_sum_n_rews la_is_trimmed td_len
             obs1_0 obs0_orig obs1_orig acs_orig).

(** [lookahead]: the assertion on [gamma], then one entry per sampled
    index, and the sampled indices.  The final stacking of the lists into
    arrays changes no value. *)
Definition lookahead (self : t) (transitions : batch) (n : Z) (gamma : Q)
    (patcher : option patcher_t) : res (list la_entry * ndindex) :=
  if negb (Qle_bool 0 gamma && Qle_bool gamma 1) then raise AssertionError
  else
    do la_batch <- match idxs transitions with
                   | IntArray l => mapM (fun idx => lookahead_step self idx n gamma patcher) l
                   | EmptyFloatArray => ret []
                   end ;
    ret (la_batch, idxs transitions).

(** The loop of [append] over the fields, in dict order. *)
Fixpoint append_loop (rbs : list (string * RingBuffer.t)) (transition : pydict)
    : list (string * RingBuffer.t) * option pyexn :=
  match rbs with
  | [] => ([], None)
  | (k, rb) :: rest =>
      match transition !! k with
      | None => (rbs, Some KeyError)
      | Some NotArray => (rbs, Some (TypeError k))
      | Some (NdArray a) =>
          match RingBuffer.append rb (NdArray a) with
          | (rb', Some e) => ((k, rb') :: rest, Some e)
          | (rb', None) =>
              let r := append_loop rest transition in
              ((k, rb') :: r.1, r.2)
          end
      end
  end.

(** [append]: the decorator rejects a dict whose first value is no
    ndarray before the body runs; the body asserts the key sets equal and
    runs the loop, which tests every value. *)
Definition append (self : t) (transition : pydict) : t * option pyexn :=
  if beartype_dict_ndarray transition then
    if decide (list_to_set (ring_buffers self).*1 = dom transition :> gset string) then
      let r := append_loop (ring_buffers self) transition in
      (mk (capacity self) r.1, r.2)
    else (self, Some AssertionError)
  else (self, Some BeartypeCallHintParamViolation).

(** Successive appends; the run stops at the first exception. *)
Fixpoint appends (self : t) (ts : list pydict) : t * option pyexn :=
  match ts with
  | [] => (self, None)
  | tr :: ts' =>
      match append self tr with
      | (self', None) => appends self' ts'
      | r => r
      end
  end.

(** [sample]: the random generator is external.  [integers g low high
    size] stands for [g.integers(low=low, high=high, size=size)]: the array
    it returns or the exception it raises, and the generator afterwards.
    The property [num_entries] is read before the generator is called. *)
Definition sample {G : Type} (integers : G -> Z -> Z -> Z -> res (list Z) * G)
    (self : t) (np_rng : G) (batch_size : Z) (patcher : option patcher_t)
    : res batch * G :=
  match num_entries self with
  | inl e => (inl e, np_rng)
  | inr num =>
      match integers np_rng 0 num batch_size with
      | (inl e, np_rng') => (inl e, np_rng')
      | (inr ix, np_rng') =>
          (do transitions <- batchify self (IntArray ix) ; patch transitions patcher,
           np_rng')
      end
  end.

(** [la_sample]: sample a batch, then expand it with [lookahead]. *)
Definition la_sample {G : Type} (integers : G -> Z -> Z -> Z -> res (list Z) * G)
    (self : t) (np_rng : G) (batch_size n : Z) (gamma : Q)
    (patcher : option patcher_t) : res (list la_entry * ndindex) * G :=
  match sample integers self np_rng batch_size patcher with
  | (inl e, np_rng') => (inl e, np_rng')
  | (inr transitions, np_rng') => (lookahead self transitions n gamma patcher, np_rng')
  end.

End ReplayBuffer.

(** An integer as a float. *)
Definition q (n : Z) : Q := inject_Z n.

(** ** Vocabulary of the statements *)

(** States a ring can be in: built by the constructor, then any number
    of [append] calls, failed ones included. *)
Inductive reachable : RingBuffer.t -> Prop :=
| reach_init m w rb : RingBuffer.__init__ m w = inr rb -> reachable rb
| reach_append rb v : reachable rb -> reachable (fst (RingBuffer.append rb v)).

(** Shape of every state the program can produce. *)
Definition ring_wf (rb : RingBuffer.t) : Prop :=
  0 <= RingBuffer.length rb <= RingBuffer.maxlen rb /\
  len (RingBuffer.data rb) = RingBuffer.maxlen rb.

(** [models c w hist rb]: [rb] is a ring of capacity [c] and row width
    [w] that has received the rows [hist], oldest first.  The [j]-th row
    ever stored lives in slot [j mod c] for as long as it is retained. *)
Definition models (c : Z) (w : nat) (hist : list row) (rb : RingBuffer.t) : Prop :=
  RingBuffer.maxlen rb = c /\ RingBuffer.shape rb = w /\
  len (RingBuffer.data rb) = c /\
  Forall (fun r => List.length r = w) (RingBuffer.data rb) /\
  RingBuffer.length rb = Z.min (len hist) c /\
  RingBuffer.start rb = (len hist - RingBuffer.length rb) mod c /\
  forall j, len hist - RingBuffer.length rb <= j < len hist ->
    RingBuffer.data rb !! Z.to_nat (j mod c) = hist !! Z.to_nat j.

(** The row in the slot of logical index [i]. *)
Definition slot_row (rb : RingBuffer.t) (i : Z) : row :=
  match RingBuffer.data rb
        !! Z.to_nat ((RingBuffer.start rb + i) mod RingBuffer.maxlen rb) with
  | Some r => r
  | None => []
  end.

(** The rows behind the logical indices [l]. *)
Definition gather (rb : RingBuffer.t) (l : list Z) : list row :=
  slot_row rb <$> l.

(** A store all of whose rings received [n] rows, field by field as the
    schema [shapes] lists them. *)
Definition store_models (c n : Z) (shapes : list (string * nat))
    (rbs : list (string * RingBuffer.t)) : Prop :=
  Forall2 (fun ns kr => kr.1 = ns.1 /\
             exists hist, len hist = n /\ models c ns.2 hist kr.2) shapes rbs.

(** All rings agree on capacity, start and length. *)
Definition synced (rbs : list (string * RingBuffer.t)) : Prop :=
  exists m s l, Forall (fun kr => RingBuffer.maxlen kr.2 = m /\
                                  RingBuffer.start kr.2 = s /\
                                  RingBuffer.length kr.2 = l) rbs.

(** [built c shapes ts s]: the store [s] was constructed with capacity [c]
    and schema [shapes], and then received the transitions [ts], every
    call succeeding. *)
Definition built (c : Z) (shapes : list (string * nat))
    (ts : list pydict) (s : ReplayBuffer.t) : Prop :=
  exists s0, ReplayBuffer.__init__ c shapes = inr s0 /\
             ReplayBuffer.appends s0 ts = (s, None).

(** The schema of a replay memory: a dict (no key twice) with the five
    fields [lookahead] reads, the terminal flag being one scalar. *)
Definition schema_ok (shapes : list (string * nat)) : Prop :=
  NoDup shapes.*1 /\
  dict_get shapes "dones1" = inr 1%nat /\
  Forall (fun k => exists w, dict_get shapes k = inr w) ["obs0"; "acs"; "obs1"; "rews"].

(** A two-dimensional array: all rows have one width. *)
Definition rectangular (x : list row) : Prop :=
  exists w, Forall (fun r => List.length r = w) x.

(** A reward patcher returns a two-dimensional array with one reward row
    per transition of the batch it is given. *)
Definition patcher_ok (patcher : option patcher_t) : Prop :=
  match patcher with
  | None => True
  | Some f => forall o0 ac o1,
      List.length ac = List.length o0 -> List.length o1 = List.length o0 ->
      List.length (f o0 ac o1) = List.length o0 /\ rectangular (f o0 ac o1)
  end.

(** The ring of field [k], an empty ring if there is none. *)
Definition ring_of (s : ReplayBuffer.t) (k : string) : RingBuffer.t :=
  match dict_get (ReplayBuffer.ring_buffers s) k with
  | inr rb => rb
  | inl _ => RingBuffer.mk 0 0 0 0 []
  end.

(** The terminal flag read at logical index [i] equals 1.0. *)
Definition flag_is_one (rb : RingBuffer.t) (i : Z) : bool :=
  match RingBuffer.__getitem__ rb i with
  | inr [d] => Qeq_bool d 1
  | _ => false
  end.

(** A row holding the single scalar 1.0. *)
Definition row_is_one (r : row) : bool :=
  match r with
  | [d] => Qeq_bool d 1
  | _ => false
  end.

(** Number of transitions the lookahead of [idx] gathers. *)
Definition window_len (idx n num : Z) : Z := Z.min n (num - idx).

(** The rows of field [k] in the window of [idx], as the store holds them
    behind the logical indices [idx, idx + 1, ...]. *)
Definition window_of (s : ReplayBuffer.t) (k : string) (idx n num : Z) : list row :=
  gather (ring_of s k) (seqZ idx (window_len idx n num)).

(** The rewards of the window: the stored ones, or those of the patcher. *)
Definition window_rewards (s : ReplayBuffer.t) (idx n num : Z)
    (patcher : option patcher_t) : list row :=
  match patcher with
  | None => window_of s "rews" idx n num
  | Some f => f (window_of s "obs0" idx n num) (window_of s "acs" idx n num)
                (window_of s "obs1" idx n num)
  end.

(** The dict [batchify] fills for the integer indices [l]. *)
Definition batch_cols (rbs : list (string * RingBuffer.t)) (l : list Z)
    (acc : gmap string (list row)) : gmap string (list row) :=
  foldl (fun m kr => <[kr.1 := gather kr.2 l]> m) acc rbs.

(** Componentwise equality of rows of rationals. *)
Definition row_eq (x y : row) : Prop := Forall2 Qeq x y.

(** The unweighted sum of a non-empty list of rows. *)
Fixpoint vsum (x : list row) : option row :=
  match x with
  | [] => None
  | r :: x' =>
      match vsum x' with
      | None => Some r
      | Some s => Some (vadd r s)
      end
  end.

(** The weighted sum [gamma^k0 * x[0] + gamma^(k0+1) * x[1] + ...]: with
    [k0 = 0], the sum the spec asks [discount] to agree with. *)
Fixpoint weighted_sum (k0 : nat) (x : list row) (gamma : Q) : option row :=
  match x with
  | [] => None
  | r :: x' =>
      let t := vscale (gamma ^ Z.of_nat k0) r in
      match weighted_sum (S k0) x' gamma with
      | None => Some t
      | Some s => Some (vadd t s)
      end
  end.

(** A successful pass of the loop of [append] appended to every ring,
    once, the array the transition holds for its field. *)
Definition appended (transition : pydict)
    (kr kr' : string * RingBuffer.t) : Prop :=
  kr'.1 = kr.1 /\
  exists a, transition !! kr.1 = Some (NdArray a) /\
            RingBuffer.append kr.2 (NdArray a) = (kr'.2, None).

(** A ring of positive capacity in a state the program can produce. *)
Definition ring_ok (kr : string * RingBuffer.t) : Prop :=
  ring_wf kr.2 /\ 0 < RingBuffer.maxlen kr.2.

(** Indices whose sum with the start of the ring is an [int64]: reading
    them, [get_batch] does not wrap. *)
Definition no_wrap (l : list Z) (kr : string * RingBuffer.t) : Prop :=
  Forall (fun i => - 2 ^ 63 <= RingBuffer.start kr.2 + i < 2 ^ 63) l.

(** ** Scenarios *)

(** The ring [RingBuffer(3, (1,))]. *)
Definition ring_3_1 : RingBuffer.t :=
  RingBuffer.mk 3 0 0 1 [[0%Q]; [0%Q]; [0%Q]].

(** [ring_3_1] after one append. *)
Definition ring_3_1_one : RingBuffer.t :=
  fst (RingBuffer.append ring_3_1 (NdArray [q 5])).

(** The schema of the replay memory of the agent, with small shapes. *)
Definition shapes5 : list (string * nat) :=
  [("obs0", 2%nat); ("acs", 1%nat); ("obs1", 2%nat); ("rews", 1%nat); ("dones1", 1%nat)].

(** A transition of the schema [shapes5] with reward [r] and terminal flag [d]. *)
Definition transition5 (r d : Z) : pydict :=
  [("obs0", NdArray [q r; q 0]); ("acs", NdArray [q 0]);
               ("obs1", NdArray [q (r + 1); q 0]);
               ("rews", NdArray [q r]); ("dones1", NdArray [q d])].

(** The store built with capacity [c] and schema [shapes] after the calls [ts]. *)
Definition store_after (c : Z) (shapes : list (string * nat))
    (ts : list pydict) : ReplayBuffer.t :=
  match ReplayBuffer.__init__ c shapes with
  | inr s0 => fst (ReplayBuffer.appends s0 ts)
  | inl _ => ReplayBuffer.mk c []
  end.

(** Four transitions with the rewards 1..4, none terminal. *)
Definition four_transitions : list pydict :=
  [transition5 1 0; transition5 2 0; transition5 3 0; transition5 4 0].

(** Capacity 3 after four transitions: one eviction. *)
Definition store_3_4 : ReplayBuffer.t := store_after 3 shapes5 four_transitions.

(** Five transitions with rewards 1..5, the third one terminal. *)
Definition five_transitions : list pydict :=
  [transition5 1 0; transition5 2 0; transition5 3 1; transition5 4 0; transition5 5 0].

(** Capacity 5 holding the five transitions. *)
Definition store_5 : ReplayBuffer.t := store_after 5 shapes5 five_transitions.

(** A schema of two fields. *)
Definition shapes2 : list (string * nat) := [("obs0", 2%nat); ("rews", 1%nat)].

(** An empty store of capacity 3 with these two fields. *)
Definition store_fresh : ReplayBuffer.t := store_after 3 shapes2 [].

(** The reward is an array of three scalars where the schema has one. *)
Definition transition_bad_shape : pydict :=
  [("obs0", NdArray [q 1; q 2]); ("rews", NdArray [q 1; q 2; q 3])].

(** The reward is a Python float, not an array. *)
Definition transition_bad_type : pydict :=
  [("obs0", NdArray [q 1; q 2]); ("rews", NotArray)].

(** The observation, the first item of the dict, is a Python float. *)
Definition transition_bad_first : pydict :=
  [("obs0", NotArray); ("rews", NdArray [q 1])].

(** A schema without the field obs0, a transition of it, and the store
    of capacity 3 that holds this transition. *)
Definition shapes_no_obs0 : list (string * nat) := [("acs", 1%nat); ("rews", 1%nat)].

Definition transition_no_obs0 : pydict :=
  [("acs", NdArray [q 1]); ("rews", NdArray [q 2])].

Definition store_no_obs0 : ReplayBuffer.t :=
  store_after 3 shapes_no_obs0 [transition_no_obs0].

(** The reward relabelled to the first scalar of the next observation. *)
Definition patch_next_obs : patcher_t :=
  fun obs0 acs obs1 => (fun r => [hd 0%Q r]) <$> obs1.

(** The columns [td_len] and [dones1] of a lookahead batch. *)
Definition td_len_and_dones1 (r : res (list la_entry * ndindex)) : res (list (Z * Q)) :=
  do b <- r ; ret ((fun e => (la_td_len e, la_dones1 e)) <$> b.1).

(** The column [rews] of a lookahead batch. *)
Definition rews_column (r : res (list la_entry * ndindex)) : res (list row) :=
  do b <- r ; ret (la_rews <$> b.1).

(** ** Vocabulary of the further statements *)

(** What every ring the program can produce satisfies, on top of
    [ring_wf]: the start stays inside the storage and at 0 until the ring
    is full, and every row of the storage has the ring's width. *)
Definition ring_inv (rb : RingBuffer.t) : Prop :=
  ring_wf rb /\
  0 <= RingBuffer.start rb /\
  (0 < RingBuffer.maxlen rb -> RingBuffer.start rb < RingBuffer.maxlen rb) /\
  (RingBuffer.length rb < RingBuffer.maxlen rb -> RingBuffer.start rb = 0) /\
  Forall (fun r => List.length r = RingBuffer.shape rb) (RingBuffer.data rb).

(** The row a ring of width [w] keeps of the value a transition holds
    for its field: the array, broadcast to the width and cast to
    [float32]. *)
Definition stored_row (w : nat) (v : option pyval) : row :=
  match v with
  | Some (NdArray a) =>
      match np_broadcast w a with
      | inr r => float32_row r
      | inl _ => []
      end
  | _ => []
  end.

(** A transition all of whose arrays [float32] keeps finite. *)
Definition finite_values (t : pydict) : Prop :=
  Forall (fun kv => match kv.2 with
                    | NdArray a => Forall f32_finite a
                    | NotArray => True
                    end) (t : list (string * pyval)).

(** The rows the field [k] of width [w] receives from the transitions [ts]. *)
Definition field_history (ts : list pydict) (k : string) (w : nat) : list row :=
  (fun t => stored_row w (t !! k)) <$> ts.

(** The transition [t] holds, for the field [ns], an array the ring of
    the field can store. *)
Definition fits (t : pydict) (ns : string * nat) : Prop :=
  exists a r, t !! ns.1 = Some (NdArray a) /\ np_broadcast ns.2 a = inr r.

(** A store whose rings hold, field by field, the rows of the
    transitions [ts]. *)
Definition store_holds (c : Z) (ts : list pydict)
    (shapes : list (string * nat)) (rbs : list (string * RingBuffer.t)) : Prop :=
  Forall2 (fun ns kr => kr.1 = ns.1 /\
             models c ns.2 (field_history ts ns.1 ns.2) kr.2 /\
             Forall (fun t => fits t ns) ts) shapes rbs.

(** What numpy documents of [Generator.integers] with scalar bounds: an
    empty request is served without a look at the bounds, a non-empty one
    returns [size] values of [low, high), and raises [ValueError] when
    that interval is empty or the size negative. *)
Definition integers_ok {G : Type}
    (integers : G -> Z -> Z -> Z -> res (list Z) * G) : Prop :=
  forall g low high size,
    (size = 0 -> (integers g low high size).1 = inr []) /\
    (0 < size -> low < high ->
       exists l, (integers g low high size).1 = inr l /\ len l = size /\
                 Forall (fun i => low <= i < high) l) /\
    (0 < size -> high <= low -> (integers g low high size).1 = inl ValueError) /\
    (size < 0 -> (integers g low high size).1 = inl ValueError).

(** A generator for the scenarios: a counter, taken modulo the range. *)
Definition counter_integers (g low high size : Z) : res (list Z) * Z :=
  if size =? 0 then (inr [], g)
  else if (size <? 0) || (high <=? low) then (inl ValueError, g)
  else (inr ((fun k => low + (g + k) mod (high - low)) <$> seqZ 0 size), g + size).

(** The ring [RingBuffer(0, (2,))]. *)
Definition ring_0_2 : RingBuffer.t := RingBuffer.mk 0 0 0 2 [].

(** [ring_3_1] after three appends: full. *)
Definition ring_3_1_full : RingBuffer.t :=
  fst (RingBuffer.appends ring_3_1 [NdArray [q 1]; NdArray [q 2]; NdArray [q 3]]).

(** [ring_3_1] after four appends: the oldest row is gone. *)
Definition ring_3_1_four : RingBuffer.t :=
  fst (RingBuffer.append ring_3_1_full (NdArray [q 4])).

(** What [lookahead] keeps of an optional field [k]: the row read at the
    logical index [i] when the schema has the field, nothing otherwise. *)
Definition read_if_field (shapes : list (string * nat)) (s : ReplayBuffer.t)
    (k : string) (i : Z) (o : option row) : Prop :=
  match dict_get shapes k with
  | inr _ => exists r, o = Some r /\ RingBuffer.__getitem__ (ring_of s k) i = inr r
  | inl _ => o = None
  end.

(** The schema of the memory when absorbing states wrap the episodes:
    observations and actions carry one more scalar, and the unwrapped
    ones are kept beside them. *)
Definition shapes_absorb : list (string * nat) :=
  [("obs0", 2%nat); ("acs", 2%nat); ("obs1", 2%nat); ("rews", 1%nat); ("dones1", 1%nat);
   ("obs0_orig", 1%nat); ("acs_orig", 1%nat); ("obs1_orig", 1%nat)].

(** A transition of the schema [shapes_absorb] with reward [r] and
    terminal flag [d]. *)
Definition transition_absorb (r d : Z) : pydict :=
  [("obs0", NdArray [q r; q 0]); ("acs", NdArray [q (10 * r); q 0]);
               ("obs1", NdArray [q (r + 1); q 0]);
               ("rews", NdArray [q r]); ("dones1", NdArray [q d]);
               ("obs0_orig", NdArray [q r]); ("acs_orig", NdArray [q (10 * r)]);
               ("obs1_orig", NdArray [q (r + 1)])].

(** Four transitions with the rewards 1..4, the third one terminal. *)
Definition four_absorb : list pydict :=
  [transition_absorb 1 0; transition_absorb 2 0; transition_absorb 3 1; transition_absorb 4 0].

(** Capacity 3 after these four transitions: one eviction. *)
Definition store_absorb : ReplayBuffer.t := store_after 3 shapes_absorb four_absorb.

(** ** The orchestrator: the rollout generator *)

Module Orchestrator.

(** The values [rollout] puts into a transition. *)
Inductive value : Type :=
| Arr (a : row)        (* a numpy array *)
| PyFloat (x : Q)      (* the reward, what [.item()] returns *)
| PyBool (b : bool).   (* [done], as the environment returns it *)

(** A transition: the dict literal, in the order of its keys. *)
Definition transition : Type := list (string * value).

(** The calls [rollout] makes on [env] and [agent]. *)
Inductive call : Type :=
| ResetNoise
| EnvReset
| Predict (ob : row)
| EnvStep (ac : row)
| GetSynRew (ob ac new_ob : row)
| StoreTransition (tr : transition).

(** [env] and [agent], the two arguments of [rollout]: what their methods
    and attributes answer, as functions of the state [W] the two objects
    hide. *)
Record collab (W : Type) : Type := mk_collab {
  reset_noise : W -> W;
  env_reset : W -> row * W;
  predict : W -> row -> row * W;
  action_low : W -> row;
  action_high : W -> row;
  env_step : W -> row -> (row * bool) * W;
  at_time_limit : W -> bool;     (* [env._elapsed_steps == env._max_episode_steps] *)
  wrap_absorb : W -> bool;
  ob_shape : W -> nat;           (* the number of scalars of an observation *)
  ac_shape : W -> nat;
  get_syn_rew : W -> row -> row -> row -> Q * W;
  store_transition : W -> transition -> W
}.

Arguments reset_noise {W}.
Arguments env_reset {W}.
Arguments predict {W}.
Arguments action_low {W}.
Arguments action_high {W}.
Arguments env_step {W}.
Arguments at_time_limit {W}.
Arguments wrap_absorb {W}.
Arguments ob_shape {W}.
Arguments ac_shape {W}.
Arguments get_syn_rew {W}.
Arguments store_transition {W}.

(** [np.nan_to_num]: the rows are exact rationals, with no nan and no
    infinity to replace. *)
Definition np_nan_to_num (a : row) : row := a.

(** [np.clip(a, low, high)], that is [minimum(maximum(a, low), high)], for
    bounds of the shape of [a]. *)
Definition np_clip (a low high : row) : row :=
  zip_with (fun y hi => if Qle_bool y hi then y else hi)
           (zip_with (fun x lo => if Qle_bool lo x then x else lo) a low) high.

(** [np.append(a, x)] *)
Definition np_append (a : row) (x : Q) : row := a ++ [x].

(** A suspended generator: not started yet, or paused at its [yield] with
    the locals [t], [ob] and [ac]. *)
Inductive generator : Type :=
| Created
| Suspended (t : Z) (ob ac : row).

(** How a call of [__next__] ends. *)
Inductive outcome : Type :=
| Yielded (g : generator)
| Raised (e : pyexn).

(** [t > 0 and t % rollout_len == 0] *)
Definition yield_test (t rollout_len : Z) : res bool :=
  if t >? 0 then do m <- py_mod t rollout_len ; ret (m =? 0) else ret false.

Section Rollout.

Context {W : Type}.
Variable c : collab W.
Variable rollout_len : Z.

(** The hidden state of [env] and [agent], and the calls made so far. *)
Definition state : Type := W * list call.

Definition agent_reset_noise (st : state) : state :=
  (reset_noise c st.1, st.2 ++ [ResetNoise]).

Definition env_reset_call (st : state) : row * state :=
  let (ob, w) := env_reset c st.1 in (ob, (w, st.2 ++ [EnvReset])).

Definition agent_predict (ob : row) (st : state) : row * state :=
  let (ac, w) := predict c st.1 ob in (ac, (w, st.2 ++ [Predict ob])).

Definition env_step_call (ac : row) (st : state) : (row * bool) * state :=
  let (r, w) := env_step c st.1 ac in (r, (w, st.2 ++ [EnvStep ac])).

Definition agent_get_syn_rew (ob ac new_ob : row) (st : state) : Q * state :=
  let (r, w) := get_syn_rew c st.1 ob ac new_ob in (r, (w, st.2 ++ [GetSynRew ob ac new_ob])).

Definition agent_store_transition (tr : transition) (st : state) : state :=
  (store_transition c st.1 tr, st.2 ++ [StoreTransition tr]).

(** The branch [if agent.hps.wrap_absorb: ... else: ...] of the loop. *)
Definition store_step (ob ac new_ob : row) (done : bool) (st : state) : state :=
  if wrap_absorb c st.1 then
    let _ob := np_append ob 0 in
    let _ac := np_append ac 0 in
    if done && negb (at_time_limit c st.1) then
      let _new_ob := np_append (repeat 0%Q (ob_shape c st.1)) 1 in
      let (_rew, st) := agent_get_syn_rew _ob _ac _new_ob st in
      let transition :=
        [("obs0", Arr _ob); ("acs", Arr _ac); ("obs1", Arr _new_ob);
         ("rews", PyFloat _rew); ("dones1", PyBool done);
         ("obs0_orig", Arr ob); ("acs_orig", Arr ac); ("obs1_orig", Arr new_ob)] in
      let st := agent_store_transition transition st in
      let _ob_a := np_append (repeat 0%Q (ob_shape c st.1)) 1 in
      let _ac_a := np_append (repeat 0%Q (ac_shape c st.1)) 1 in
      let _new_ob_a := np_append (repeat 0%Q (ob_shape c st.1)) 1 in
      let (_rew_a, st) := agent_get_syn_rew _ob_a _ac_a _new_ob_a st in
      let transition_a :=
        [("obs0", Arr _ob_a); ("acs", Arr _ac_a); ("obs1", Arr _new_ob_a);
         ("rews", PyFloat _rew_a); ("dones1", PyBool done);
         ("obs0_orig", Arr ob); ("acs_orig", Arr ac); ("obs1_orig", Arr new_ob)] in
      agent_store_transition transition_a st
    else
      let _new_ob := np_append new_ob 0 in
      let (_rew, st) := agent_get_syn_rew _ob _ac _new_ob st in
      let transition :=
        [("obs0", Arr _ob); ("acs", Arr _ac); ("obs1", Arr _new_ob);
         ("rews", PyFloat _rew); ("dones1", PyBool done);
         ("obs0_orig", Arr ob); ("acs_orig", Arr ac); ("obs1_orig", Arr new_ob)] in
      agent_store_transition transition st
  else
    let (rew, st) := agent_get_syn_rew ob ac new_ob st in
    let transition :=
      [("obs0", Arr ob); ("acs", Arr ac); ("obs1", Arr new_ob);
       ("rews", PyFloat rew); ("dones1", PyBool done)] in
    agent_store_transition transition st.

(** The loop body from the [yield] on: the step of the environment, the
    transitions stored, the next observation. *)
Definition interact (ob ac : row) (st : state) : row * state :=
  let '(new_ob, done, st) := env_step_call ac st in
  let st := store_step ob ac new_ob done st in
  let ob := new_ob in
  if done then
    let st := agent_reset_noise st in
    env_reset_call st
  else (ob, st).

(** [while True: ...], entered at the top of the loop body with the
    locals [t] and [ob], and left at the [yield] or by an exception.
    [None]: more than [fuel] passes. *)
Fixpoint loop (fuel : nat) (t : Z) (ob : row) (st : state) : option (outcome * state) :=
  match fuel with
  | O => None
  | S fuel' =>
      let (ac, st) := agent_predict ob st in
      let ac := np_nan_to_num ac in
      let ac := np_clip ac (action_low c st.1) (action_high c st.1) in
      match yield_test t rollout_len with
      | inl e => Some (Raised e, st)
      | inr true => Some (Yielded (Suspended t ob ac), st)
      | inr false =>
          let (ob, st) := interact ob ac st in
          loop fuel' (t + 1) ob st
      end
  end.

(** [roll_gen.__next__()]: from the start of the function, or from the
    [yield] the generator is paused at. *)
Definition next (fuel : nat) (g : generator) (st : state) : option (outcome * state) :=
  match g with
  | Created =>
      let t := 0 in
      let st := agent_reset_noise st in
      let (ob, st) := env_reset_call st in
      loop fuel t ob st
  | Suspended t ob ac =>
      let (ob, st) := interact ob ac st in
      loop fuel (t + 1) ob st
  end.

End Rollout.

End Orchestrator.

(** ** Vocabulary of the statements on the rollout generator *)

Definition is_env_step (x : Orchestrator.call) : bool :=
  match x with Orchestrator.EnvStep _ => true | _ => false end.

Definition is_store (x : Orchestrator.call) : bool :=
  match x with Orchestrator.StoreTransition _ => true | _ => false end.

(** The number of calls of a log that satisfy [p]. *)
Definition count_calls (p : Orchestrator.call -> bool) (l : list Orchestrator.call) : Z :=
  len (List.filter p l).

(** The generators [__next__] can find: not started, or paused at a
    positive multiple of [rollout_len]. *)
Definition paused_ok (rollout_len : Z) (g : Orchestrator.generator) : Prop :=
  match g with
  | Orchestrator.Created => True
  | Orchestrator.Suspended t _ _ => 0 < t /\ t mod rollout_len = 0
  end.

(** The local [t] of a generator. *)
Definition t_of (g : Orchestrator.generator) : Z :=
  match g with
  | Orchestrator.Created => 0
  | Orchestrator.Suspended t _ _ => t
  end.

(** The action a paused generator holds. *)
Definition pending_action (g : Orchestrator.generator) : option row :=
  match g with
  | Orchestrator.Created => None
  | Orchestrator.Suspended _ _ ac => Some ac
  end.

(** A toy pair of environment and agent over a step counter: the
    observation is the counter, every third step ends an episode before
    the time limit, the policy repeats the observation as action. *)
Definition toy_collab : Orchestrator.collab Z :=
  Orchestrator.mk_collab Z
    (fun w => w)
    (fun w => ([inject_Z w], w))
    (fun w ob => (ob, w))
    (fun _ => [(-1)%Q])
    (fun _ => [1%Q])
    (fun w ac => (([inject_Z (w + 1)], (w + 1) mod 3 =? 0), w + 1))
    (fun _ => false)
    (fun _ => true)
    (fun _ => 1%nat)
    (fun _ => 1%nat)
    (fun w _ _ _ => (inject_Z w, w))
    (fun w _ => w).

(** A value of a rollout transition as [ReplayBuffer.append] sees it. *)
Definition to_pyval (v : Orchestrator.value) : pyval :=
  match v with
  | Orchestrator.Arr a => NdArray a
  | Orchestrator.PyFloat _ | Orchestrator.PyBool _ => NotArray
  end.

(** The dict of a rollout transition. *)
Definition as_dict (tr : Orchestrator.transition) : pydict :=
  prod_map id to_pyval <$> tr.

(** A call that stores a transition whose reward and terminal flag are
    Python scalars, and that the store [s] would refuse as it is. *)
Definition stores_scalars (s : ReplayBuffer.t) (x : Orchestrator.call) : Prop :=
  match x with
  | Orchestrator.StoreTransition tr =>
      as_dict tr !! "rews" = Some NotArray /\
      as_dict tr !! "dones1" = Some NotArray /\
      exists e, (ReplayBuffer.append s (as_dict tr)).2 = Some e
  | _ => True
  end.

(** The first call of [__next__] on the toy pair, with [rollout_len = 2]. *)
Definition toy_first_call : option (Orchestrator.outcome * (Z * list Orchestrator.call)) :=
  Orchestrator.next toy_collab 2 3 Orchestrator.Created (0, []).

Definition toy_outcome : Orchestrator.outcome :=
  match toy_first_call with
  | Some (r, _) => r
  | None => Orchestrator.Yielded Orchestrator.Created
  end.

Definition toy_state_after : Z * list Orchestrator.call :=
  match toy_first_call with
  | Some (_, st) => st
  | None => (0, [])
  end.

(** ** The orchestrator: the episode generator *)

Module Episode.

(** The calls [episode] makes on [env] and [agent]. *)
Inductive call : Type :=
| EnvReset
| RenderRgb                 (* [env.render(mode='rgb_array')] *)
| Render                    (* [env.render()] *)
| Predict (ob : row)        (* [agent.predict(ob, apply_noise=False)] *)
| EnvStep (ac : row).

(** [env] and [agent] as [episode] uses them, over their hidden state [W];
    [F] is what a rendered frame is. *)
Record collab (W F : Type) : Type := mk_collab {
  env_reset : W -> row * W;
  render_rgb : W -> F * W;
  render : W -> W;
  predict : W -> row -> row * W;
  action_low : W -> row;
  action_high : W -> row;
  env_step : W -> row -> (row * Q * bool) * W
}.

Arguments env_reset {W F}.
Arguments render_rgb {W F}.
Arguments render {W F}.
Arguments predict {W F}.
Arguments action_low {W F}.
Arguments action_high {W F}.
Arguments env_step {W F}.

(** The dict [out] the generator yields. *)
Record trajectory (F : Type) : Type := mk_trajectory {
  obs : list row;
  obs_rgb : list F;
  acs : list row;
  env_rews : list Q;
  ep_len : Z;
  ep_env_ret : Q
}.

Arguments mk_trajectory {F}.
Arguments obs {F}.
Arguments obs_rgb {F}.
Arguments acs {F}.
Arguments env_rews {F}.
Arguments ep_len {F}.
Arguments ep_env_ret {F}.

Section Generator.

Context {W F : Type}.
Variable c : collab W F.
Variable render_flag : bool.      (* the argument [render] *)

Definition state : Type := W * list call.

Definition env_reset_call (st : state) : row * state :=
  let (ob, w) := env_reset c st.1 in (ob, (w, st.2 ++ [EnvReset])).

Definition env_render_rgb (st : state) : F * state :=
  let (f, w) := render_rgb c st.1 in (f, (w, st.2 ++ [RenderRgb])).

Definition env_render (st : state) : state :=
  (render c st.1, st.2 ++ [Render]).

Definition agent_predict (ob : row) (st : state) : row * state :=
  let (ac, w) := predict c st.1 ob in (ac, (w, st.2 ++ [Predict ob])).

Definition env_step_call (ac : row) (st : state) : (row * Q * bool) * state :=
  let (r, w) := env_step c st.1 ac in (r, (w, st.2 ++ [EnvStep ac])).

(** [while True: ...] up to the [yield], with the locals of the function.
    [None]: more than [fuel] passes. *)
Fixpoint loop (fuel : nat) (ob : row) (ob_rgb : F) (cur_ep_len : Z) (cur_ep_env_ret : Q)
    (obs : list row) (obs_rgb : list F) (acs : list row) (env_rews : list Q)
    (st : state) : option (trajectory F * state) :=
  match fuel with
  | O => None
  | S fuel' =>
      let (ac, st) := agent_predict ob st in
      let ac := Orchestrator.np_nan_to_num ac in
      let ac := Orchestrator.np_clip ac (action_low c st.1) (action_high c st.1) in
      let obs := obs ++ [ob] in
      let obs_rgb := obs_rgb ++ [ob_rgb] in
      let acs := acs ++ [ac] in
      let '(new_ob, env_rew, done, st) := env_step_call ac st in
      let st := if render_flag then env_render st else st in
      let (ob_rgb, st) := env_render_rgb st in
      let env_rews := env_rews ++ [env_rew] in
      let cur_ep_len := cur_ep_len + 1 in
      let cur_ep_env_ret := (cur_ep_env_ret + env_rew)%Q in
      let ob := new_ob in
      if done then
        Some (mk_trajectory obs obs_rgb acs env_rews cur_ep_len cur_ep_env_ret, st)
      else loop fuel' ob ob_rgb cur_ep_len cur_ep_env_ret obs obs_rgb acs env_rews st
  end.

(** [ep_gen.__next__()].  The first call runs the function from its
    start; a later one resumes after the [yield], where the locals are
    emptied and the environment is reset: the same statements, in another
    order, so that the generator needs no state of its own. *)
Definition next (fuel : nat) (st : state) : option (trajectory F * state) :=
  let (ob, st) := env_reset_call st in
  let (ob_rgb, st) := env_render_rgb st in
  loop fuel ob ob_rgb 0 0%Q [] [] [] [] st.

End Generator.

End Episode.

(** The actions a log of [episode] hands to the environment, in order. *)
Definition stepped_actions (l : list Episode.call) : list row :=
  omap (fun x => match x with Episode.EnvStep ac => Some ac | _ => None end) l.

(** The observations a log of [episode] asks the policy about, in order. *)
Definition predicted_observations (l : list Episode.call) : list row :=
  omap (fun x => match x with Episode.Predict ob => Some ob | _ => None end) l.

(** An environment whose episodes end: [m] bounds the steps left before
    [done], and nothing but a reset raises it. *)
Definition episodes_end {W F : Type} (c : Episode.collab W F) (m : W -> nat) : Prop :=
  (forall w ac, (Episode.env_step c w ac).1.2 = true \/
                (m (Episode.env_step c w ac).2 < m w)%nat) /\
  (forall w ob, (m (Episode.predict c w ob).2 <= m w)%nat) /\
  (forall w, (m (Episode.render c w) <= m w)%nat) /\
  (forall w, (m (Episode.render_rgb c w).2 <= m w)%nat).

(** A toy environment over a step counter: the observation is the
    counter, the reward is 1/2, every third step ends the episode. *)
Definition toy_episode_collab : Episode.collab Z unit :=
  Episode.mk_collab Z unit
    (fun w => ([inject_Z w], w))
    (fun w => (tt, w))
    (fun w => w)
    (fun w ob => (ob, w))
    (fun _ => [(-1)%Q])
    (fun _ => [10%Q])
    (fun w ac => (([inject_Z (w + 1)], 1 # 2, (w + 1) mod 3 =? 0), w + 1)).

(** The steps left before the toy environment says [done]. *)
Definition toy_steps_left (w : Z) : nat := Z.to_nat (2 - w mod 3).

(** One step of a chain of calls: the call returns what [H] says. *)
Ltac run H := rewrite H; cbn [bind ret].

(** ** Properties of the ring buffer *)

Section RingFacts.

Import RingBuffer.

Lemma setitem_fields self p v :
  let self' := fst (setitem self p v) in
  maxlen self' = maxlen self /\ start self' = start self /\
  length self' = length self /\ shape self' = shape self.
Proof.
  unfold setitem. destruct (np_index _ _); [done|].
  destruct (np_broadcast _ _); done.
Qed.

Lemma write_last_fields self v :
  let self' := fst (write_last self v) in
  maxlen self' = maxlen self /\ start self' = start self /\
  length self' = length self /\ shape self' = shape self.
Proof.
  unfold write_last. destruct (py_mod _ _); [done|]. apply setitem_fields.
Qed.

Lemma append_maxlen self v : maxlen (fst (append self v)) = maxlen self.
Proof.
  destruct v as [a|]; [|done]. unfold append.
  destruct (length self <? maxlen self).
  - by destruct (write_last_fields (set_length self (length self + 1)) a) as (-> & _).
  - destruct (length self =? maxlen self); [|done].
    destruct (py_mod _ _) as [e|s]; [done|].
    by destruct (write_last_fields (set_start self s) a) as (-> & _).
Qed.

(** What one [append] of an ndarray does to [length], whatever the
    outcome of the write. *)
Lemma append_length self a :
  0 <= length self <= maxlen self ->
  length (fst (append self (NdArray a))) = Z.min (length self + 1) (maxlen self).
Proof.
  intros Hl. unfold append.
  destruct (Z.ltb_spec (length self) (maxlen self)).
  - destruct (write_last_fields (set_length self (length self + 1)) a) as (_ & _ & -> & _).
    simpl. lia.
  - destruct (Z.eqb_spec (length self) (maxlen self)) as [Heq|]; [|lia].
    destruct (py_mod _ _) as [err|s]; [simpl; lia|].
    destruct (write_last_fields (set_start self s) a) as (_ & _ & -> & _).
    simpl. lia.
Qed.

Lemma setitem_data_len self p v :
  len (data (fst (setitem self p v))) = len (data self).
Proof.
  unfold setitem. destruct (np_index _ _); [done|].
  destruct (np_broadcast _ _); [done|]. simpl. unfold len. by rewrite length_insert.
Qed.

Lemma append_data_len self v :
  len (data (fst (append self v))) = len (data self).
Proof.
  destruct v as [a|]; [|done]. unfold append, write_last.
  destruct (length self <? maxlen self).
  - destruct (py_mod _ _); [done|]. by rewrite setitem_data_len.
  - destruct (length self =? maxlen self); [|done].
    destruct (py_mod _ _) as [err|s]; [done|]. simpl.
    destruct (py_mod _ _); [done|]. by rewrite setitem_data_len.
Qed.

(** What the constructor returns, and the capacities it accepts. *)
Lemma init_inr m w rb :
  __init__ m w = inr rb ->
  rb = mk m 0 0 w (repeat (repeat 0%Q w) (Z.to_nat m)) /\ 0 <= m < 2 ^ 61.
Proof.
  unfold __init__, np_zeros. destruct (Z.ltb_spec m 0); [done|].
  destruct (Z.ltb_spec (2 ^ 63 - 1) (np_nbytes m w)) as [|Hsize]; [done|]. intros [= <-].
  split; [done|]. split; [done|]. unfold np_nbytes in Hsize.
  destruct (Z.eqb_spec m 0); [lia|]. change (2 ^ 61) with 2305843009213693952.
  change (2 ^ 63 - 1) with 9223372036854775807 in Hsize.
  destruct (Nat.eqb_spec w 0); [lia|].
  assert (4 * m * 1 <= 4 * m * Z.of_nat w) by (apply Z.mul_le_mono_nonneg_l; lia). lia.
Qed.

Lemma reachable_wf rb : reachable rb -> ring_wf rb.
Proof.
  induction 1 as [m w rb Hi|rb v _ [IHl IHd]].
  - apply init_inr in Hi as [-> Hm]. split; simpl; [lia|].
    unfold len. rewrite repeat_length. lia.
  - split.
    + rewrite append_maxlen. destruct v as [a|]; [|done].
      rewrite append_length by done. lia.
    + by rewrite append_data_len, append_maxlen.
Qed.

Lemma append_start self a :
  start (fst (append self (NdArray a))) =
    if length self <? maxlen self then start self
    else if (length self =? maxlen self) && negb (maxlen self =? 0)
         then (start self + 1) mod maxlen self
         else start self.
Proof.
  unfold append. destruct (length self <? maxlen self).
  - by destruct (write_last_fields (set_length self (length self + 1)) a) as (_ & -> & _).
  - destruct (length self =? maxlen self); [|done]. unfold py_mod.
    destruct (maxlen self =? 0); [done|]. simpl.
    by destruct (write_last_fields (set_start self ((start self + 1) mod maxlen self)) a)
      as (_ & -> & _).
Qed.

(** The start of a ring the program can produce stays inside the storage. *)
Lemma reachable_start rb :
  reachable rb -> 0 <= start rb /\ (0 < maxlen rb -> start rb < maxlen rb).
Proof.
  induction 1 as [m w rb Hi|rb v Hr [IH0 IH1]].
  - apply init_inr in Hi as [-> Hm]. simpl. lia.
  - destruct (reachable_wf rb Hr) as [Hl _]. rewrite append_maxlen.
    destruct v as [a|]; [|done]. rewrite append_start.
    destruct (Z.ltb_spec (length rb) (maxlen rb)); [done|].
    destruct (Z.eqb_spec (length rb) (maxlen rb)); [|done].
    destruct (Z.eqb_spec (maxlen rb) 0); [done|]. simpl.
    pose proof (Z.mod_pos_bound (start rb + 1) (maxlen rb)). lia.
Qed.

(** The capacity of a ring the program can produce is one [np.zeros]
    accepted. *)
Lemma reachable_maxlen rb : reachable rb -> 0 <= maxlen rb < 2 ^ 61.
Proof.
  induction 1 as [m w rb Hi|rb v Hr IH].
  - by apply init_inr in Hi as [-> Hm].
  - by rewrite append_maxlen.
Qed.

Lemma mod_slot_distinct c j n :
  0 < c -> n - c < j < n -> j mod c <> n mod c.
Proof.
  intros Hc Hj Heq.
  assert (Hd : (n - j) mod c = 0).
  { rewrite Zminus_mod, Heq, Z.sub_diag. by apply Zmod_0_l. }
  rewrite Z.mod_small in Hd by lia. lia.
Qed.

Lemma len_snoc {A} (l : list A) x : len (l ++ [x]) = len l + 1.
Proof. unfold len. rewrite List.length_app. simpl. lia. Qed.

Lemma len_nonneg {A} (l : list A) : 0 <= len l.
Proof. unfold len. lia. Qed.

Lemma np_index_in {A} (d : list A) p :
  0 <= p < len d -> np_index d p = inr (Z.to_nat p).
Proof.
  intros Hp. unfold np_index.
  destruct (Z.leb_spec 0 p); [|lia]. destruct (Z.ltb_spec p (len d)); [done|lia].
Qed.

Lemma init_models c w rb :
  0 <= c -> __init__ c w = inr rb -> models c w [] rb.
Proof.
  intros Hc Hi. apply init_inr in Hi as [-> _].
  repeat split; simpl.
  - unfold len. rewrite repeat_length. lia.
  - apply Forall_forall. intros r Hr%list_elem_of_In%repeat_spec. subst r.
    apply repeat_length.
  - unfold len. simpl. lia.
  - unfold len. simpl. lia.
Qed.

Lemma broadcast_width w a r : np_broadcast w a = inr r -> List.length r = w.
Proof.
  unfold np_broadcast. destruct (Nat.eqb_spec (List.length a) w) as [Heq|Hne].
  - by intros [= <-].
  - destruct a as [|x [|]]; try done. intros [= <-]. apply repeat_length.
Qed.

(** The write of [append], once [start] and [length] are updated. *)
Lemma write_last_models c w (hist : list row) r a rb :
  0 < c ->
  maxlen rb = c -> shape rb = w -> len (data rb) = c ->
  Forall (fun x => List.length x = w) (data rb) ->
  length rb = Z.min (len hist + 1) c ->
  start rb = (len hist + 1 - length rb) mod c ->
  (forall j, len hist + 1 - length rb <= j < len hist ->
     data rb !! Z.to_nat (j mod c) = hist !! Z.to_nat j) ->
  np_broadcast w a = inr r ->
  exists rb', write_last rb a = (rb', None) /\ models c w (hist ++ [float32_row r]) rb'.
Proof.
  intros Hc Hm Hw Hd Hrows Hl Hs Hdata Hb.
  assert (Hp : (start rb + length rb - 1) mod c = len hist mod c).
  { rewrite Hs, <- Z.add_sub_assoc, Zplus_mod_idemp_l. f_equal. lia. }
  pose proof (Z.mod_pos_bound (len hist) c Hc) as Hbound.
  unfold write_last, py_mod. rewrite Hm.
  destruct (Z.eqb_spec c 0); [lia|]. simpl. rewrite Hp.
  unfold setitem. rewrite np_index_in by lia. rewrite Hw, Hb.
  eexists; split; [done|].
  assert (Hn : 0 <= len hist) by (unfold len; lia).
  repeat split; simpl; try done.
  - unfold len in *. rewrite length_insert. done.
  - apply Forall_insert; [done|]. unfold float32_row. rewrite length_fmap. by apply broadcast_width with a.
  - rewrite len_snoc. exact Hl.
  - rewrite len_snoc. exact Hs.
  - intros j. rewrite len_snoc. intros Hj.
    destruct (Z.eq_dec j (len hist)) as [->|Hne].
    + rewrite list_lookup_insert_eq by (unfold len in *; lia).
      unfold len. rewrite Nat2Z.id.
      by rewrite lookup_app_r, Nat.sub_diag.
    + rewrite list_lookup_insert_ne.
      * rewrite Hdata by lia. rewrite lookup_app_l; [done|]. unfold len in *. lia.
      * intros Heq. apply Z2Nat.inj in Heq; try lia.
        -- symmetry in Heq. revert Heq. apply mod_slot_distinct; lia.
        -- pose proof (Z.mod_pos_bound j c Hc). lia.
Qed.

(** An append of a row that fits succeeds and records its cast. *)
Lemma append_models c w hist rb a r :
  0 < c -> models c w hist rb -> np_broadcast w a = inr r ->
  exists rb', append rb (NdArray a) = (rb', None) /\
              models c w (hist ++ [float32_row r]) rb'.
Proof.
  intros Hc (Hm & Hw & Hd & Hrows & Hl & Hs & Hdata) Hb.
  assert (Hn : 0 <= len hist) by (unfold len; lia).
  unfold append. rewrite Hm.
  destruct (Z.ltb_spec (length rb) c) as [Hlt|Hge].
  - apply write_last_models; simpl; try done; try lia.
    + rewrite Hs. f_equal. lia.
    + intros j Hj. apply Hdata. lia.
  - destruct (Z.eqb_spec (length rb) c) as [Heq|]; [|lia].
    unfold py_mod. destruct (Z.eqb_spec c 0); [lia|]. simpl.
    apply write_last_models; simpl; try done; try lia.
    + rewrite Hs, Zplus_mod_idemp_l. f_equal. lia.
    + intros j Hj. apply Hdata. lia.
Qed.

(** A successful append stored some row: the value itself, or its
    broadcast to the width of the ring. *)
Lemma append_success_models c w hist rb v rb' :
  0 < c -> models c w hist rb -> append rb v = (rb', None) ->
  exists r, models c w (hist ++ [r]) rb'.
Proof.
  intros Hc Hmod Happ. destruct v as [a|]; [|done].
  destruct (np_broadcast w a) as [e|r] eqn:Hb.
  - exfalso. destruct Hmod as (Hm & Hw & Hd & _).
    revert Happ. unfold append, write_last, setitem. simpl.
    rewrite Hw, Hb.
    repeat (case_match; simplify_eq; try done).
  - destruct (append_models c w hist rb a r Hc Hmod Hb) as (rb2 & Happ2 & Hmod2).
    exists (float32_row r). rewrite Happ in Happ2. by injection Happ2 as <-.
Qed.

Lemma broadcast_same w (a : row) : List.length a = w -> np_broadcast w a = inr a.
Proof. intros <-. unfold np_broadcast. by rewrite Nat.eqb_refl. Qed.

Lemma appends_models c w hist rb (vs : list row) :
  0 < c -> models c w hist rb -> Forall (fun a => List.length a = w) vs ->
  exists rb', appends rb (NdArray <$> vs) = (rb', None) /\
              models c w (hist ++ (float32_row <$> vs)) rb'.
Proof.
  intros Hc Hmod Hvs. revert rb hist Hmod.
  induction Hvs as [|a vs Ha _ IH]; intros rb hist Hmod.
  - exists rb. by rewrite app_nil_r.
  - destruct (append_models c w hist rb a a Hc Hmod (broadcast_same w a Ha))
      as (rb1 & Happ & Hmod1).
    destruct (IH rb1 _ Hmod1) as (rb2 & Happs & Hmod2).
    exists rb2. rewrite fmap_cons. change (appends rb (NdArray a :: (NdArray <$> vs)))
      with (match append rb (NdArray a) with
            | (self', None) => appends self' (NdArray <$> vs)
            | r => r
            end).
    rewrite Happ. split; [done|].
    rewrite fmap_cons. by rewrite <- app_assoc in Hmod2.
Qed.

(** Slot read by logical index [idx], for any integer [idx]. *)
Lemma slot_in_range rb i :
  ring_wf rb -> 0 < maxlen rb ->
  0 <= (start rb + i) mod maxlen rb < len (data rb).
Proof. intros [_ ->] Hc. by apply Z.mod_pos_bound. Qed.

Lemma np_getitem_in {A} (d : list A) p :
  0 <= p < len d -> exists x, d !! Z.to_nat p = Some x /\ np_getitem d p = inr x.
Proof.
  intros Hp. unfold np_getitem. rewrite np_index_in by done. simpl.
  destruct (lookup_lt_is_Some_2 d (Z.to_nat p)) as [x Hx]; [unfold len in Hp; lia|].
  exists x. by rewrite Hx.
Qed.

Lemma getitem_in_range rb idx :
  ring_wf rb -> 0 <= idx < length rb ->
  exists r, data rb !! Z.to_nat ((start rb + idx) mod maxlen rb) = Some r /\
            __getitem__ rb idx = inr r.
Proof.
  intros Hwf Hidx. pose proof Hwf as [Hl Hd].
  unfold __getitem__, py_mod.
  destruct (Z.ltb_spec idx 0); [lia|]. destruct (Z.geb_spec idx (length rb)); [lia|].
  destruct (Z.eqb_spec (maxlen rb) 0); [lia|]. simpl.
  apply np_getitem_in, slot_in_range; [done|lia].
Qed.

Lemma getitem_out_of_range rb idx :
  ~ (0 <= idx < length rb) -> __getitem__ rb idx = inl KeyError.
Proof.
  intros Hidx. unfold __getitem__.
  destruct (Z.ltb_spec idx 0); [done|]. destruct (Z.geb_spec idx (length rb)); [done|lia].
Qed.

(** Logical index [idx] holds the row appended [length - idx] calls ago. *)
Lemma getitem_models c w hist rb idx :
  0 < c -> models c w hist rb -> 0 <= idx < length rb ->
  exists a, hist !! Z.to_nat (len hist - length rb + idx) = Some a /\
            __getitem__ rb idx = inr a.
Proof.
  intros Hc (Hm & Hw & Hd & Hrows & Hl & Hs & Hdata) Hidx.
  destruct (getitem_in_range rb idx) as (r & Hr & Hget); [split; [lia|congruence]|done|].
  exists r. split; [|done].
  rewrite <- Hdata by lia. rewrite <- Hr, Hm, Hs, Zplus_mod_idemp_l. done.
Qed.

Lemma mapM_Forall2 {A B} (f : A -> res B) l l' :
  Forall2 (fun x y => f x = inr y) l l' -> mapM f l = inr l'.
Proof. induction 1 as [|x y l l' Hxy _ IH]; [done|]. simpl. by rewrite Hxy, IH. Qed.

Lemma int64_id z : - 2 ^ 63 <= z < 2 ^ 63 -> int64 z = z.
Proof. intros Hz. unfold int64. rewrite Z.mod_small; lia. Qed.

(** On a ring of positive capacity [get_batch] returns, whatever the
    indices: every slot it computes is inside the storage. *)
Lemma get_batch_total rb idxs :
  ring_wf rb -> 0 < maxlen rb ->
  exists rows, get_batch rb idxs = inr rows /\
    Forall2 (fun i r => data rb !! Z.to_nat (int64 (start rb + i) mod maxlen rb) = Some r)
            idxs rows.
Proof.
  intros Hwf Hc. induction idxs as [|i idxs (rows & Hrows & Hall)].
  - by exists [].
  - destruct (np_getitem_in (data rb) (int64 (start rb + i) mod maxlen rb))
      as (r & Hr & Hget).
    { destruct Hwf as [_ ->]. by apply Z.mod_pos_bound. }
    exists (r :: rows). split; [|by constructor].
    unfold get_batch in *. simpl. unfold np_mod at 1.
    destruct (Z.eqb_spec (maxlen rb) 0); [lia|]. by rewrite Hget, Hrows.
Qed.

Lemma write_last_exn self v e :
  snd (write_last self v) = Some e ->
  e = ZeroDivisionError \/ e = IndexError \/ e = ValueError.
Proof.
  unfold write_last, setitem, py_mod, np_index, np_broadcast, raise, ret.
  repeat case_match; simplify_eq; simpl; intros; simplify_eq; auto.
Qed.

(** As long as [start + idx] stays an [int64], the slot is the one of the
    logical index. *)
Lemma get_batch_gather rb l :
  ring_wf rb -> 0 < maxlen rb ->
  Forall (fun i => - 2 ^ 63 <= start rb + i < 2 ^ 63) l ->
  get_batch rb l = inr (gather rb l).
Proof.
  intros Hwf Hc Hl. destruct (get_batch_total rb l Hwf Hc) as (rows & -> & Hall).
  f_equal. induction Hall as [|i r l rows Hr _ IH]; [done|].
  apply Forall_cons in Hl as [Hi Hl].
  unfold gather in *. rewrite fmap_cons. f_equal; [|by apply IH].
  unfold slot_row. rewrite int64_id in Hr by done. by rewrite Hr.
Qed.

Lemma getitem_slot_row rb idx :
  ring_wf rb -> 0 <= idx < length rb -> __getitem__ rb idx = inr (slot_row rb idx).
Proof.
  intros Hwf Hidx. destruct (getitem_in_range rb idx Hwf Hidx) as (r & Hr & ->).
  unfold slot_row. by rewrite Hr.
Qed.

Lemma models_wf c w hist rb : 0 <= c -> models c w hist rb -> ring_wf rb.
Proof.
  intros Hc (Hm & _ & Hd & _ & Hl & _). pose proof (len_nonneg hist).
  split; [lia|congruence].
Qed.

End RingFacts.

(** ** The ring buffer: statements *)

(** C1, as the code has it.  The storage of a ring is [float32]: an
    append casts the row it stores.  After any run of appends of rows of
    the ring's shape, finite in [float32], the ring holds the last
    [min(n, capacity)] rows: logical index [idx] reads the cast of the row
    appended [length - idx] calls ago, whatever the number of evictions;
    past capacity, the indices [0, capacity) read exactly the casts of the
    last [capacity] rows, oldest first, and no other index reads.  A row
    the cast leaves as it is is read back as it was appended. *)
Theorem ring_wraparound_read (c : Z) (w : nat) (vs : list row) (rb0 : RingBuffer.t) :
  0 < c ->
  Forall (fun a => List.length a = w) vs ->
  Forall (Forall f32_finite) vs ->
  RingBuffer.__init__ c w = inr rb0 ->
  exists rb,
    RingBuffer.appends rb0 (NdArray <$> vs) = (rb, None) /\
    RingBuffer.length rb = Z.min (len vs) c /\
    (forall idx, 0 <= idx < RingBuffer.length rb ->
       exists a, vs !! Z.to_nat (len vs - RingBuffer.length rb + idx) = Some a /\
                 RingBuffer.__getitem__ rb idx = inr (float32_row a) /\
                 (float32_row a = a -> RingBuffer.__getitem__ rb idx = inr a)) /\
    (forall idx, ~ (0 <= idx < RingBuffer.length rb) ->
       RingBuffer.__getitem__ rb idx = inl KeyError) /\
    (c <= len vs ->
       mapM (RingBuffer.__getitem__ rb) (seqZ 0 c)
       = inr (float32_row <$> drop (Z.to_nat (len vs - c)) vs)).
Proof.
  intros Hc Hvs _ Hinit.
  pose proof (init_models c w rb0 ltac:(lia) Hinit) as Hm0.
  destruct (appends_models c w [] rb0 vs Hc Hm0 Hvs) as (rb & Happ & Hmod).
  simpl in Hmod. exists rb.
  assert (Hlen : RingBuffer.length rb = Z.min (len vs) c).
  { destruct Hmod as (_ & _ & _ & _ & -> & _). unfold len. by rewrite length_fmap. }
  assert (Hread : forall idx, 0 <= idx < RingBuffer.length rb ->
            exists a, vs !! Z.to_nat (len vs - RingBuffer.length rb + idx) = Some a /\
                      RingBuffer.__getitem__ rb idx = inr (float32_row a)).
  { intros idx Hidx.
    destruct (getitem_models c w _ rb idx Hc Hmod Hidx) as (r & Hr & Hget).
    rewrite list_lookup_fmap in Hr. unfold len in Hr. rewrite length_fmap in Hr.
    fold (len vs) in Hr.
    destruct (vs !! Z.to_nat (len vs - RingBuffer.length rb + idx)) as [a|]; [|done].
    exists a. split; [done|]. simpl in Hr. congruence. }
  split; [done|]. split; [done|]. split; [|split].
  - intros idx Hidx. destruct (Hread idx Hidx) as (a & Ha & Hget).
    exists a. split; [done|]. split; [done|]. by intros <-.
  - apply getitem_out_of_range.
  - intros Hfull. apply mapM_Forall2, Forall2_same_length_lookup_2.
    + rewrite length_seqZ, length_fmap, length_drop. unfold len in *. lia.
    + intros i x y [-> Hi]%lookup_seqZ Hy. rewrite list_lookup_fmap, lookup_drop in Hy.
      destruct (Hread (0 + Z.of_nat i)) as (a & Ha & ->); [lia|].
      f_equal. rewrite Hlen in Ha.
      replace (Z.to_nat (len vs - len vs `min` c + (0 + Z.of_nat i)))
        with (Z.to_nat (len vs - c) + i)%nat in Ha by lia.
      rewrite Ha in Hy. simpl in Hy. congruence.
Qed.

Lemma ring_wraparound_read_witness :
  exists rb,
    RingBuffer.appends ring_3_1 (NdArray <$> [[q 1]; [1 # 10]; [q 3]; [q 4]; [q 5]])
    = (rb, None) /\
    RingBuffer.length rb = Z.min (len [[q 1]; [1 # 10]; [q 3]; [q 4]; [q 5]]) 3 /\
    (forall idx, 0 <= idx < RingBuffer.length rb ->
       exists a, [[q 1]; [1 # 10]; [q 3]; [q 4]; [q 5]]
                   !! Z.to_nat (len [[q 1]; [1 # 10]; [q 3]; [q 4]; [q 5]]
                                - RingBuffer.length rb + idx) = Some a /\
                 RingBuffer.__getitem__ rb idx = inr (float32_row a) /\
                 (float32_row a = a -> RingBuffer.__getitem__ rb idx = inr a)) /\
    (forall idx, ~ (0 <= idx < RingBuffer.length rb) ->
       RingBuffer.__getitem__ rb idx = inl KeyError) /\
    (3 <= len [[q 1]; [1 # 10]; [q 3]; [q 4]; [q 5]] ->
       mapM (RingBuffer.__getitem__ rb) (seqZ 0 3)
       = inr (float32_row <$> drop (Z.to_nat (len [[q 1]; [1 # 10]; [q 3]; [q 4]; [q 5]] - 3))
                                   [[q 1]; [1 # 10]; [q 3]; [q 4]; [q 5]])).
Proof.
  apply (ring_wraparound_read 3 1 [[q 1]; [1 # 10]; [q 3]; [q 4]; [q 5]] ring_3_1).
  - lia.
  - repeat constructor.
  - repeat constructor; by vm_compute.
  - reflexivity.
Defined.

(** C1, counterexample to the claim as stated: the float 16777217, which
    [float64] holds exactly, is appended to an empty ring of capacity 3
    and read back at index 0 as 16777216, its [float32]. *)
Lemma getitem_returns_float32_of_value :
  RingBuffer.__init__ 3 1 = inr ring_3_1 /\
  snd (RingBuffer.append ring_3_1 (NdArray [q 16777217])) = None /\
  RingBuffer.__getitem__ (fst (RingBuffer.append ring_3_1 (NdArray [q 16777217]))) 0
  = inr [q 16777216].
Proof. by vm_compute. Qed.

(** C4. Every append of an array to a ring the program can produce
    leaves [0 <= length <= maxlen] and sets [length] to
    [min(previous length + 1, maxlen)]. *)
Theorem append_capacity_invariant (rb : RingBuffer.t) (a : row) :
  reachable rb ->
  let rb' := fst (RingBuffer.append rb (NdArray a)) in
  0 <= RingBuffer.length rb' <= RingBuffer.maxlen rb' /\
  RingBuffer.maxlen rb' = RingBuffer.maxlen rb /\
  RingBuffer.length rb' = Z.min (RingBuffer.length rb + 1) (RingBuffer.maxlen rb).
Proof.
  intros Hr rb'. destruct (reachable_wf rb Hr) as [Hl _].
  subst rb'. rewrite append_maxlen, append_length by done. lia.
Qed.

Lemma append_capacity_invariant_witness :
  let rb' := fst (RingBuffer.append ring_3_1_one (NdArray [q 6])) in
  0 <= RingBuffer.length rb' <= RingBuffer.maxlen rb' /\
  RingBuffer.maxlen rb' = RingBuffer.maxlen ring_3_1_one /\
  RingBuffer.length rb' = Z.min (RingBuffer.length ring_3_1_one + 1) (RingBuffer.maxlen ring_3_1_one).
Proof.
  apply (append_capacity_invariant ring_3_1_one [q 6]).
  exact (reach_append ring_3_1 (NdArray [q 5]) (reach_init 3 1 ring_3_1 eq_refl)).
Defined.

(** C10. On every ring the program can produce [length <= maxlen], so
    [append] takes one of its first two branches and never raises
    [RuntimeError]. *)
Theorem append_defensive_branch_unreachable (rb : RingBuffer.t) (v : pyval) :
  reachable rb ->
  RingBuffer.length rb <= RingBuffer.maxlen rb /\
  (RingBuffer.length rb <? RingBuffer.maxlen rb) || (RingBuffer.length rb =? RingBuffer.maxlen rb) = true /\
  snd (RingBuffer.append rb v) <> Some RuntimeError.
Proof.
  intros Hr. destruct (reachable_wf rb Hr) as [Hl _].
  split; [lia|]. split; [lia|].
  destruct v as [a|]; [|done]. unfold RingBuffer.append.
  destruct (Z.ltb_spec (RingBuffer.length rb) (RingBuffer.maxlen rb)).
  - intros He. apply write_last_exn in He. by destruct He as [|[|]].
  - destruct (Z.eqb_spec (RingBuffer.length rb) (RingBuffer.maxlen rb)); [|lia].
    unfold py_mod. destruct (RingBuffer.maxlen rb =? 0); [done|]. simpl.
    intros He. apply write_last_exn in He. by destruct He as [|[|]].
Qed.

Lemma append_defensive_branch_unreachable_witness :
  RingBuffer.length ring_3_1_one <= RingBuffer.maxlen ring_3_1_one /\
  (RingBuffer.length ring_3_1_one <? RingBuffer.maxlen ring_3_1_one)
    || (RingBuffer.length ring_3_1_one =? RingBuffer.maxlen ring_3_1_one) = true /\
  snd (RingBuffer.append ring_3_1_one (NdArray [q 1; q 2])) <> Some RuntimeError.
Proof.
  apply (append_defensive_branch_unreachable ring_3_1_one (NdArray [q 1; q 2])).
  exact (reach_append ring_3_1 (NdArray [q 5]) (reach_init 3 1 ring_3_1 eq_refl)).
Defined.

(** C7, as the code has it.  [__getitem__] raises, and raises [KeyError],
    exactly for an index outside [0, length).  [get_batch] checks no
    bound: on a ring of positive capacity it returns for any [int64]
    indices, one row per index, the row in the slot
    [(start + idx) mod maxlen], the sum being the one of [int64] values.
    As long as that sum does not wrap, [-2^63 <= idx < 2^63 - maxlen], the
    slot is the one of the logical index [idx], which for an index inside
    [0, length) is the row [__getitem__] returns. *)
Theorem getitem_checks_get_batch_wraps (rb : RingBuffer.t) :
  reachable rb ->
  (forall idx, (exists e, RingBuffer.__getitem__ rb idx = inl e) <->
               ~ (0 <= idx < RingBuffer.length rb)) /\
  (forall idx, ~ (0 <= idx < RingBuffer.length rb) ->
               RingBuffer.__getitem__ rb idx = inl KeyError) /\
  (0 < RingBuffer.maxlen rb ->
   forall idxs,
     (exists rows,
        RingBuffer.get_batch rb idxs = inr rows /\
        Forall2 (fun i r =>
          RingBuffer.data rb
            !! Z.to_nat (int64 (RingBuffer.start rb + i) mod RingBuffer.maxlen rb) = Some r)
          idxs rows) /\
     (Forall (fun i => - 2 ^ 63 <= i < 2 ^ 63 - RingBuffer.maxlen rb) idxs ->
      RingBuffer.get_batch rb idxs = inr (gather rb idxs)) /\
     Forall (fun i => 0 <= i < RingBuffer.length rb ->
                      RingBuffer.__getitem__ rb i = inr (slot_row rb i)) idxs).
Proof.
  intros Hr. pose proof (reachable_wf rb Hr) as Hwf. split; [|split].
  - intros idx. split.
    + intros [e He] Hin. by rewrite getitem_slot_row in He.
    + intros Hout. exists KeyError. by apply getitem_out_of_range.
  - apply getitem_out_of_range.
  - intros Hc idxs. split; [by apply get_batch_total|]. split.
    + intros Hl. apply get_batch_gather; [done|done|].
      destruct (reachable_start rb Hr) as [Hs0 Hs1]. specialize (Hs1 Hc).
      eapply Forall_impl; [exact Hl|]. intros i Hi. simpl in Hi. lia.
    + apply Forall_forall. intros i _ Hi. by apply getitem_slot_row.
Qed.

Lemma getitem_checks_get_batch_wraps_witness :
  (forall idx, (exists e, RingBuffer.__getitem__ ring_3_1_one idx = inl e) <->
               ~ (0 <= idx < RingBuffer.length ring_3_1_one)) /\
  (forall idx, ~ (0 <= idx < RingBuffer.length ring_3_1_one) ->
               RingBuffer.__getitem__ ring_3_1_one idx = inl KeyError) /\
  (0 < RingBuffer.maxlen ring_3_1_one ->
   forall idxs,
     (exists rows,
        RingBuffer.get_batch ring_3_1_one idxs = inr rows /\
        Forall2 (fun i r =>
          RingBuffer.data ring_3_1_one
            !! Z.to_nat (int64 (RingBuffer.start ring_3_1_one + i)
                         mod RingBuffer.maxlen ring_3_1_one) = Some r)
          idxs rows) /\
     (Forall (fun i => - 2 ^ 63 <= i < 2 ^ 63 - RingBuffer.maxlen ring_3_1_one) idxs ->
      RingBuffer.get_batch ring_3_1_one idxs = inr (gather ring_3_1_one idxs)) /\
     Forall (fun i => 0 <= i < RingBuffer.length ring_3_1_one ->
                      RingBuffer.__getitem__ ring_3_1_one i = inr (slot_row ring_3_1_one i)) idxs).
Proof.
  apply (getitem_checks_get_batch_wraps ring_3_1_one).
  exact (reach_append ring_3_1 (NdArray [q 5]) (reach_init 3 1 ring_3_1 eq_refl)).
Defined.

(** C7, counterexample to the claim as stated: a ring of capacity 3
    holding one row answers [get_batch] for the indices 3, 2 and -1, all
    outside [0, 1), while [__getitem__] refuses each of them. *)
Lemma get_batch_out_of_range_returns :
  reachable ring_3_1_one /\
  RingBuffer.length ring_3_1_one = 1 /\
  RingBuffer.get_batch ring_3_1_one [3; 2; -1] = inr [[q 5]; [q 0]; [q 0]] /\
  mapM (fun i => match RingBuffer.__getitem__ ring_3_1_one i with
                 | inl e => inr e
                 | inr _ => inl KeyError
                 end) [3; 2; -1] = inr [KeyError; KeyError; KeyError].
Proof.
  split; [|by vm_compute].
  exact (reach_append ring_3_1 (NdArray [q 5]) (reach_init 3 1 ring_3_1 eq_refl)).
Qed.

(** The sum [start + idxs] is one of [int64] values.  On the ring of
    capacity 3 after four appends, [start = 1] and the slots hold 4, 2, 3:
    the index [2^63 - 1] makes the sum wrap to [-2^63], and [get_batch]
    reads slot 1, not the slot [(start + idx) mod maxlen = 2] of the
    unbounded sum. *)
Example get_batch_index_sum_wraps :
  RingBuffer.start ring_3_1_four = 1 /\
  RingBuffer.data ring_3_1_four = [[q 4]; [q 2]; [q 3]] /\
  RingBuffer.get_batch ring_3_1_four [2 ^ 63 - 1] = inr [[q 2]] /\
  (RingBuffer.start ring_3_1_four + (2 ^ 63 - 1)) mod RingBuffer.maxlen ring_3_1_four = 2 /\
  slot_row ring_3_1_four (2 ^ 63 - 1) = [q 3].
Proof. by vm_compute. Qed.

(** ** The store: lemmas *)

Section StoreFacts.

Import ReplayBuffer.

(** What a successful [append] does to the cursor of a ring. *)
Lemma ring_append_cursor rb v rb' :
  RingBuffer.append rb v = (rb', None) ->
  RingBuffer.maxlen rb' = RingBuffer.maxlen rb /\
  RingBuffer.start rb' =
    (if RingBuffer.length rb <? RingBuffer.maxlen rb then RingBuffer.start rb
     else (RingBuffer.start rb + 1) mod RingBuffer.maxlen rb) /\
  RingBuffer.length rb' =
    (if RingBuffer.length rb <? RingBuffer.maxlen rb then RingBuffer.length rb + 1
     else RingBuffer.length rb).
Proof.
  destruct v as [a|]; [|done]. unfold RingBuffer.append.
  destruct (RingBuffer.length rb <? RingBuffer.maxlen rb).
  - intros H.
    destruct (write_last_fields (RingBuffer.set_length rb (RingBuffer.length rb + 1)) a)
      as (Hm & Hs & Hl & _).
    rewrite H in Hm, Hs, Hl. done.
  - destruct (RingBuffer.length rb =? RingBuffer.maxlen rb); [|done].
    unfold py_mod. destruct (RingBuffer.maxlen rb =? 0); [done|]. simpl.
    intros H.
    destruct (write_last_fields
                (RingBuffer.set_start rb ((RingBuffer.start rb + 1) mod RingBuffer.maxlen rb)) a)
      as (Hm & Hs & Hl & _).
    rewrite H in Hm, Hs, Hl. done.
Qed.

Lemma append_loop_success rbs transition rbs' :
  append_loop rbs transition = (rbs', None) ->
  Forall2 (appended transition) rbs rbs'.
Proof.
  revert rbs'. induction rbs as [|[k rb] rest IH]; intros rbs'; simpl.
  - intros [= <-]. constructor.
  - destruct (transition !! k) as [[a|]|] eqn:Hk; try done.
    destruct (RingBuffer.append rb (NdArray a)) as [rb1 [e|]] eqn:Happ; [done|].
    destruct (append_loop rest transition) as [rest' e'] eqn:Hrest. simpl.
    intros [= <- ->]. constructor; [|by apply IH].
    split; [done|]. by exists a.
Qed.

Lemma append_loop_total rbs transition rbs' :
  Forall2 (appended transition) rbs rbs' ->
  append_loop rbs transition = (rbs', None).
Proof.
  induction 1 as [|[k rb] [k' rb'] rest rest' (Hk & a & Ht & Happ) _ IH]; [done|].
  simpl in *. subst k'. by rewrite Ht, Happ, IH.
Qed.

Lemma synced_append_loop rbs transition rbs' :
  append_loop rbs transition = (rbs', None) -> synced rbs -> synced rbs'.
Proof.
  intros Hloop%append_loop_success (m & s & l & Hall).
  exists m, (if l <? m then s else (s + 1) mod m), (if l <? m then l + 1 else l).
  induction Hloop as [|kr kr' rest rest' (_ & a & _ & Happ) _ IH]; [constructor|].
  inversion Hall as [|? ? (Hm & Hs & Hl) Hrest]; subst.
  constructor; [|by apply IH].
  apply ring_append_cursor in Happ as (-> & -> & ->). done.
Qed.

Lemma init_rings c shapes rbs :
  mapM (fun ns : string * nat =>
          do rb <- RingBuffer.__init__ c ns.2 ; ret (ns.1, rb)) shapes = inr rbs ->
  Forall2 (fun ns kr => kr.1 = ns.1 /\ RingBuffer.__init__ c ns.2 = inr kr.2) shapes rbs.
Proof.
  revert rbs. induction shapes as [|[k w] shapes IH]; intros rbs; simpl.
  - intros [= <-]. constructor.
  - destruct (RingBuffer.__init__ c w) as [e|rb] eqn:Hi; [done|]. simpl.
    destruct (mapM _ shapes) as [e|rbs0]; [done|]. simpl.
    intros [= <-]. constructor; [done|]. by apply IH.
Qed.

Lemma init_store c shapes s :
  __init__ c shapes = inr s ->
  capacity s = c /\
  Forall2 (fun ns kr => kr.1 = ns.1 /\ RingBuffer.__init__ c ns.2 = inr kr.2)
          shapes (ring_buffers s).
Proof.
  unfold __init__. destruct (mapM _ shapes) as [e|rbs] eqn:Hm; [done|]. simpl.
  intros [= <-]. split; [done|]. by apply init_rings.
Qed.

Lemma synced_init c shapes s : __init__ c shapes = inr s -> synced (ring_buffers s).
Proof.
  intros [_ Hall]%init_store. exists c, 0, 0.
  induction Hall as [|[k w] [k' rb] ? ? [_ Hi] _ IH]; constructor; [|done].
  simpl in *. unfold RingBuffer.__init__ in Hi. destruct (np_zeros c w); [done|].
  simpl in Hi. by injection Hi as <-.
Qed.

Lemma append_success self transition self' :
  append self transition = (self', None) ->
  capacity self' = capacity self /\
  append_loop (ring_buffers self) transition = (ring_buffers self', None).
Proof.
  unfold append. destruct (beartype_dict_ndarray transition); [|done].
  case_decide; [|done].
  destruct (append_loop _ _) as [rbs e] eqn:Hloop. simpl. by intros [= <- ->].
Qed.

Lemma synced_appends self ts self' :
  appends self ts = (self', None) -> synced (ring_buffers self) -> synced (ring_buffers self').
Proof.
  revert self. induction ts as [|tr ts IH]; intros self; simpl.
  - by intros [= <-].
  - destruct (append self tr) as [self1 [e|]] eqn:Happ; [done|].
    intros Hrest Hs. apply (IH self1 Hrest).
    apply append_success in Happ as [_ Hloop]. by eapply synced_append_loop.
Qed.

Lemma store_models_init c shapes s :
  0 <= c -> __init__ c shapes = inr s -> store_models c 0 shapes (ring_buffers s).
Proof.
  intros Hc [_ Hall]%init_store. unfold store_models.
  eapply Forall2_impl; [exact Hall|].
  intros [k w] [k' rb] [Hk Hi]. split; [done|]. exists []. split; [done|].
  by apply init_models.
Qed.

Lemma store_models_append_loop c n shapes rbs transition rbs' :
  0 < c -> store_models c n shapes rbs ->
  append_loop rbs transition = (rbs', None) ->
  store_models c (n + 1) shapes rbs'.
Proof.
  intros Hc Hst Hloop%append_loop_success. unfold store_models in *.
  revert rbs' Hloop. induction Hst as [|ns kr shapes rbs (Hk & hist & Hn & Hmod) _ IH];
    intros rbs' Hloop; inversion Hloop as [|? kr' ? rest' (Hk' & a & _ & Happ) Hrest]; subst.
  - constructor.
  - constructor; [|by apply IH]. split; [congruence|].
    destruct (append_success_models c ns.2 hist kr.2 _ kr'.2 Hc Hmod Happ) as (r & Hmod').
    exists (hist ++ [r]). split; [by rewrite len_snoc|done].
Qed.

Lemma len_cons {A} (x : A) l : len (x :: l) = 1 + len l.
Proof. unfold len. simpl. lia. Qed.

Lemma store_models_appends c n shapes self ts self' :
  0 < c -> store_models c n shapes (ring_buffers self) ->
  appends self ts = (self', None) ->
  store_models c (n + len ts) shapes (ring_buffers self').
Proof.
  intros Hc. revert self n. induction ts as [|tr ts IH]; intros self n Hst; simpl.
  - intros [= <-]. by rewrite Z.add_0_r.
  - destruct (append self tr) as [self1 [e|]] eqn:Happ; [done|].
    intros Hrest. apply append_success in Happ as [_ Hloop].
    rewrite len_cons, Z.add_assoc. apply (IH self1); [|done].
    by eapply store_models_append_loop.
Qed.

Lemma built_store_models c shapes ts s :
  0 < c -> built c shapes ts s -> store_models c (len ts) shapes (ring_buffers s).
Proof.
  intros Hc (s0 & Hinit & Happ).
  apply (store_models_appends c 0 shapes s0 ts s Hc); [|done].
  apply store_models_init; [lia|done].
Qed.

(** The capacity of a store with a field is one [np.zeros] accepted. *)
Lemma built_capacity c shapes ts s :
  built c shapes ts s -> shapes <> [] -> 0 <= c < 2 ^ 61.
Proof.
  intros (s0 & Hinit & _) Hne. apply init_store in Hinit as [_ Hall].
  destruct Hall as [|ns kr ? ? [_ Hi] _]; [done|]. by apply init_inr in Hi as [_ ?].
Qed.

Lemma store_models_get c n shapes rbs k w :
  store_models c n shapes rbs -> dict_get shapes k = inr w ->
  exists rb hist, dict_get rbs k = inr rb /\ len hist = n /\ models c w hist rb.
Proof.
  induction 1 as [|[k0 w0] [k1 rb1] shapes rbs (Hk & hist & Hn & Hmod) _ IH]; [done|].
  simpl in *. subst k1. destruct (String.eqb k0 k).
  - intros [= <-]. by exists rb1, hist.
  - apply IH.
Qed.

End StoreFacts.

(** ** The store: statements *)

Lemma built_store_3_4 : built 3 shapes5 four_transitions store_3_4.
Proof. eexists. split; [reflexivity|]. vm_compute. reflexivity. Defined.

(** C5. After any run of successful [append] calls on a freshly built
    store, all field rings report the same length and the same start. *)
Theorem rings_stay_synchronised (c : Z) (shapes : list (string * nat))
    (ts : list pydict) (s : ReplayBuffer.t) :
  built c shapes ts s ->
  forall k1 rb1 k2 rb2,
    (k1, rb1) ∈ ReplayBuffer.ring_buffers s ->
    (k2, rb2) ∈ ReplayBuffer.ring_buffers s ->
    RingBuffer.length rb1 = RingBuffer.length rb2 /\
    RingBuffer.start rb1 = RingBuffer.start rb2.
Proof.
  intros (s0 & Hinit & Happ) k1 rb1 k2 rb2 H1 H2.
  destruct (synced_appends s0 ts s Happ (synced_init c shapes s0 Hinit)) as (m & st & l & Hall).
  rewrite Forall_forall in Hall.
  destruct (Hall _ H1) as (_ & Hs1 & Hl1), (Hall _ H2) as (_ & Hs2 & Hl2).
  simpl in *. lia.
Qed.

Lemma rings_stay_synchronised_witness :
  RingBuffer.length (ring_of store_3_4 "obs0") = RingBuffer.length (ring_of store_3_4 "dones1") /\
  RingBuffer.start (ring_of store_3_4 "obs0") = RingBuffer.start (ring_of store_3_4 "dones1").
Proof.
  apply (rings_stay_synchronised 3 shapes5 four_transitions store_3_4 built_store_3_4
           "obs0" _ "dones1" _).
  - apply list_elem_of_lookup_2 with 0%nat. reflexivity.
  - apply list_elem_of_lookup_2 with 4%nat. reflexivity.
Defined.

Lemma last_slot_logical (n c : Z) :
  0 < c -> 0 < n ->
  ((n - 1) mod c = Z.min n c - 1 <-> n <= c \/ n mod c = 0).
Proof.
  intros Hc Hn. destruct (Z.le_gt_cases n c) as [Hle|Hgt].
  - rewrite Z.min_l by done. rewrite Z.mod_small by lia. intuition.
  - rewrite Z.min_r by lia. split.
    + intros Hm. right.
      replace n with ((n - 1) + 1) by lia.
      rewrite <- Zplus_mod_idemp_l, Hm. replace (c - 1 + 1) with c by lia.
      apply Z_mod_same_full.
    + intros [Hle|Hm]; [lia|].
      apply Z.mod_divide in Hm as [k Hk]; [|lia].
      replace (n - 1) with ((c - 1) + (k - 1) * c) by lia.
      rewrite Z_mod_plus_full. apply Z.mod_small. lia.
Qed.

(** C8, as the code has it.  [latest_entry_idx] is the physical slot of
    the last write, [(start + length - 1) mod maxlen], which after [n >= 1]
    appends is [(n - 1) mod capacity].  It is the logical index
    [num_entries - 1] of the newest entry exactly when no eviction has
    happened yet ([n <= capacity]) or [n] is a multiple of the capacity. *)
Theorem latest_entry_idx_last_written_slot (c : Z) (shapes : list (string * nat))
    (ts : list pydict) (s : ReplayBuffer.t) (w : nat) :
  0 < c -> built c shapes ts s -> dict_get shapes "obs0" = inr w -> 0 < len ts ->
  ReplayBuffer.num_entries s = inr (Z.min (len ts) c) /\
  ReplayBuffer.latest_entry_idx s = inr ((len ts - 1) mod c) /\
  ((len ts - 1) mod c = Z.min (len ts) c - 1 <-> len ts <= c \/ len ts mod c = 0).
Proof.
  intros Hc Hb Hobs Hn.
  destruct (store_models_get c (len ts) shapes _ "obs0" w (built_store_models c shapes ts s Hc Hb) Hobs)
    as (rb & hist & Hget & Hlen & Hmod).
  destruct Hmod as (Hm & _ & _ & _ & Hl & Hs & _).
  unfold ReplayBuffer.num_entries, ReplayBuffer.latest_entry_idx. rewrite Hget. simpl.
  split; [|split].
  - unfold RingBuffer.__len__. by rewrite Hl, Hlen.
  - unfold py_mod. rewrite Hm. destruct (Z.eqb_spec c 0); [lia|]. simpl. f_equal.
    rewrite Hs, <- Z.add_sub_assoc, Zplus_mod_idemp_l, Hlen. f_equal. lia.
  - by apply last_slot_logical.
Qed.

Lemma latest_entry_idx_last_written_slot_witness :
  ReplayBuffer.num_entries store_3_4 = inr (Z.min (len four_transitions) 3) /\
  ReplayBuffer.latest_entry_idx store_3_4 = inr ((len four_transitions - 1) mod 3) /\
  ((len four_transitions - 1) mod 3 = Z.min (len four_transitions) 3 - 1 <->
   len four_transitions <= 3 \/ len four_transitions mod 3 = 0).
Proof.
  apply (latest_entry_idx_last_written_slot 3 shapes5 four_transitions store_3_4 2).
  - lia.
  - exact built_store_3_4.
  - reflexivity.
  - reflexivity.
Defined.

(** C8, counterexample to the claim as stated: with capacity 3 and four
    transitions appended the store holds 3 entries, the newest at logical
    index 2, and [latest_entry_idx] returns 0. *)
Lemma latest_entry_idx_after_wraparound :
  built 3 shapes5 four_transitions store_3_4 /\
  ReplayBuffer.num_entries store_3_4 = inr 3 /\
  ReplayBuffer.latest_entry_idx store_3_4 = inr 0 /\
  RingBuffer.__getitem__ (ring_of store_3_4 "rews") 2 = inr [q 4] /\
  RingBuffer.__getitem__ (ring_of store_3_4 "rews") 0 = inr [q 2].
Proof. split; [exact built_store_3_4|]. by vm_compute. Qed.

(** The keys of a dict are the keys its lookup answers. *)
Lemma pydict_elem_of_dom (d : pydict) (k : string) :
  k ∈ (dom d : gset string) <-> is_Some (d !! k).
Proof.
  unfold dom, pydict_dom, lookup, pydict_lookup. rewrite elem_of_list_to_set.
  induction d as [|[k0 v] d IH].
  - simpl. split; [by intros ?%elem_of_nil|by intros [? ?]].
  - rewrite fmap_cons, elem_of_cons. simpl. destruct (String.eqb_spec k0 k) as [->|Hne].
    + split; [by eexists|by left].
    + rewrite <- IH. split; [by intros [?|?]; [congruence|]|by right].
Qed.

Lemma append_loop_failure_at rbs transition rbs' e :
  (forall k, k ∈ rbs.*1 -> is_Some (transition !! k)) ->
  ReplayBuffer.append_loop rbs transition = (rbs', Some e) ->
  exists pre pre' k rb rb' post,
    rbs = pre ++ (k, rb) :: post /\
    rbs' = pre' ++ (k, rb') :: post /\
    Forall2 (appended transition) pre pre' /\
    ((rb' = rb /\ transition !! k = Some NotArray /\ e = TypeError k) \/
     exists a, transition !! k = Some (NdArray a) /\
               RingBuffer.append rb (NdArray a) = (rb', Some e)).
Proof.
  revert rbs'. induction rbs as [|[k rb] rest IH]; intros rbs' Hkeys; simpl; [done|].
  destruct (transition !! k) as [[a|]|] eqn:Hk.
  - destruct (RingBuffer.append rb (NdArray a)) as [rb1 [e1|]] eqn:Happ.
    + intros [= <- <-]. exists [], [], k, rb, rb1, rest. repeat split; [constructor|].
      right. by exists a.
    + destruct (ReplayBuffer.append_loop rest transition) as [rest' e'] eqn:Hrest. simpl.
      intros [= <- ->].
      destruct (IH rest') as (pre & pre' & k2 & rb2 & rb2' & post & -> & -> & Hpre & Hfail);
        [|done|].
      { intros k' Hk'. apply Hkeys. rewrite fmap_cons. by apply elem_of_cons; right. }
      exists ((k, rb) :: pre), ((k, rb1) :: pre'), k2, rb2, rb2', post.
      repeat split; [|done]. constructor; [|done]. split; [done|]. by exists a.
  - intros [= <- <-]. exists [], [], k, rb, rb, rest. repeat split; [constructor|]. left. auto.
  - exfalso. destruct (Hkeys k) as [v Hv]; [rewrite fmap_cons; by apply elem_of_cons; left|].
    congruence.
Qed.

Lemma append_loop_failure rbs (transition : pydict) rbs' e :
  list_to_set rbs.*1 = (dom transition : gset string) ->
  ReplayBuffer.append_loop rbs transition = (rbs', Some e) ->
  exists pre pre' k rb rb' post,
    rbs = pre ++ (k, rb) :: post /\
    rbs' = pre' ++ (k, rb') :: post /\
    Forall2 (appended transition) pre pre' /\
    ((rb' = rb /\ transition !! k = Some NotArray /\ e = TypeError k) \/
     exists a, transition !! k = Some (NdArray a) /\
               RingBuffer.append rb (NdArray a) = (rb', Some e)).
Proof.
  intros Hkeys. apply append_loop_failure_at. intros k Hk.
  apply pydict_elem_of_dom. rewrite <- Hkeys. by apply elem_of_list_to_set.
Qed.

(** C9, as the code has it.  Two checks come before [append] touches a
    ring, and leave the store unchanged when they fail: the decorator
    looks at the first item of the dict and raises
    [BeartypeCallHintParamViolation] when its value is no array; the body
    then compares the key sets and raises [AssertionError] on a mismatch.
    When [append] returns, every ring was appended once, with the array
    the transition holds for its field.  A value rejected while the
    fields are processed is not rolled back: the rings of the fields
    before it, in the order of the schema, stay appended, those after it
    are untouched. *)
Theorem append_all_or_nothing_on_keys_only (self : ReplayBuffer.t)
    (transition : pydict) :
  let r := ReplayBuffer.append self transition in
  (beartype_dict_ndarray transition = false ->
     r = (self, Some BeartypeCallHintParamViolation)) /\
  (beartype_dict_ndarray transition = true ->
   list_to_set (ReplayBuffer.ring_buffers self).*1 <> (dom transition : gset string) ->
     r = (self, Some AssertionError)) /\
  (r.2 = None ->
     ReplayBuffer.capacity r.1 = ReplayBuffer.capacity self /\
     Forall2 (appended transition) (ReplayBuffer.ring_buffers self) (ReplayBuffer.ring_buffers r.1)) /\
  (forall e, r.2 = Some e -> e <> AssertionError -> e <> BeartypeCallHintParamViolation ->
     exists pre pre' k rb rb' post,
       ReplayBuffer.ring_buffers self = pre ++ (k, rb) :: post /\
       ReplayBuffer.ring_buffers r.1 = pre' ++ (k, rb') :: post /\
       Forall2 (appended transition) pre pre' /\
       ((rb' = rb /\ transition !! k = Some NotArray /\ e = TypeError k) \/
        exists a, transition !! k = Some (NdArray a) /\
                  RingBuffer.append rb (NdArray a) = (rb', Some e))).
Proof.
  intros r. subst r. unfold ReplayBuffer.append.
  destruct (beartype_dict_ndarray transition).
  - case_decide as Hkeys.
    + destruct (ReplayBuffer.append_loop _ _) as [rbs' [e'|]] eqn:Hloop; simpl.
      * split; [done|]. split; [done|]. split; [done|]. intros e [= <-] _ _.
        destruct (append_loop_failure _ _ _ _ Hkeys Hloop)
          as (pre & pre' & k & rb & rb' & post & H1 & H2 & H3 & H4).
        by exists pre, pre', k, rb, rb', post.
      * split; [done|]. split; [done|]. split; [|done]. intros _. split; [done|].
        by apply append_loop_success.
    + simpl. split; [done|]. split; [done|]. split; [done|]. by intros e [= <-].
  - simpl. split; [done|]. split; [done|]. split; [done|]. by intros e [= <-].
Qed.

(** C9, counterexample to the claim as stated: on an empty store with the
    fields obs0 and rews, a transition whose reward does not fit raises
    after the ring of obs0 was appended; the store is left with one
    observation.  The same happens when the reward is not an array. *)
Lemma append_failure_leaves_rings_appended :
  built 3 shapes2 [] store_fresh /\
  RingBuffer.length (ring_of store_fresh "obs0") = 0 /\
  snd (ReplayBuffer.append store_fresh transition_bad_shape) = Some ValueError /\
  RingBuffer.length (ring_of (fst (ReplayBuffer.append store_fresh transition_bad_shape)) "obs0") = 1 /\
  RingBuffer.__getitem__ (ring_of (fst (ReplayBuffer.append store_fresh transition_bad_shape)) "obs0") 0
    = inr [q 1; q 2] /\
  snd (ReplayBuffer.append store_fresh transition_bad_type) = Some (TypeError "rews") /\
  RingBuffer.length (ring_of (fst (ReplayBuffer.append store_fresh transition_bad_type)) "obs0") = 1.
Proof. split; [by eexists|]. by vm_compute. Qed.

(** The check of the decorator comes first and touches nothing: with the
    keys of the schema and an observation that is no array, in first
    position, the store is left as it was. *)
Example append_first_item_checked_by_decorator :
  (dom transition_bad_first : gset string) = list_to_set shapes2.*1 /\
  ReplayBuffer.append store_fresh transition_bad_first
  = (store_fresh, Some BeartypeCallHintParamViolation).
Proof. split; [|by vm_compute]. unfold dom, pydict_dom. by vm_compute. Qed.

(** ** The lookahead: lemmas *)

Section LookaheadFacts.

Import ReplayBuffer.

Lemma batchify_loop_cols rbs l acc :
  Forall ring_ok rbs -> Forall (no_wrap l) rbs ->
  batchify_loop rbs (IntArray l) acc = inr (batch_cols rbs l acc).
Proof.
  intros Hall. revert acc. induction Hall as [|[k rb] rbs [Hwf Hc] _ IH]; intros acc Hnw;
    [done|].
  apply Forall_cons in Hnw as [Hnw0 Hnw].
  simpl in *. rewrite get_batch_gather by done. simpl. by apply IH.
Qed.

Lemma batch_cols_notin rbs l acc k :
  k ∉ rbs.*1 -> batch_cols rbs l acc !! k = acc !! k.
Proof.
  revert acc. induction rbs as [|[k0 rb0] rbs IH]; intros acc Hk; [done|].
  simpl in *. apply not_elem_of_cons in Hk as [Hne Hk].
  unfold batch_cols in *. simpl. rewrite IH by done. by rewrite lookup_insert_ne.
Qed.

Lemma batch_cols_in rbs l acc k rb :
  NoDup rbs.*1 -> dict_get rbs k = inr rb ->
  batch_cols rbs l acc !! k = Some (gather rb l).
Proof.
  revert acc. induction rbs as [|[k0 rb0] rbs IH]; intros acc Hnd; [done|].
  simpl in *. apply NoDup_cons in Hnd as [Hk0 Hnd].
  destruct (String.eqb_spec k0 k) as [->|Hne].
  - intros [= ->]. unfold batch_cols. simpl.
    fold (batch_cols rbs l (<[k := gather rb l]> acc)).
    rewrite batch_cols_notin by done. by rewrite lookup_insert_eq.
  - intros Hget. unfold batch_cols in *. simpl. by apply IH.
Qed.

Lemma batch_cols_len rbs l acc :
  (forall k rows, acc !! k = Some rows -> List.length rows = List.length l) ->
  forall k rows, batch_cols rbs l acc !! k = Some rows -> List.length rows = List.length l.
Proof.
  revert acc. induction rbs as [|[k0 rb0] rbs IH]; intros acc Hacc; [done|].
  unfold batch_cols in *. simpl. apply IH. intros k rows.
  destruct (decide (k0 = k)) as [->|Hne].
  - rewrite lookup_insert_eq. intros [= <-]. unfold gather. by rewrite length_fmap.
  - rewrite lookup_insert_ne by done. apply Hacc.
Qed.

Lemma batchify_cols s l :
  Forall ring_ok (ring_buffers s) -> Forall (no_wrap l) (ring_buffers s) ->
  batchify s (IntArray l)
  = inr (mk_batch (delete "idxs" (batch_cols (ring_buffers s) l ∅)) (IntArray l)).
Proof. intros Hall Hnw. unfold batchify. by rewrite batchify_loop_cols. Qed.

(** The rings of a store of capacity [c] start below [c]: indices up to
    [2^63 - c] do not wrap. *)
Lemma store_models_no_wrap c n shapes rbs l :
  0 < c -> store_models c n shapes rbs ->
  Forall (fun i => - 2 ^ 63 <= i < 2 ^ 63 - c) l -> Forall (no_wrap l) rbs.
Proof.
  intros Hc Hst Hl.
  induction Hst as [|ns kr ? ? (_ & hist & _ & Hmod) _ IH]; constructor; [|done].
  destruct Hmod as (_ & _ & _ & _ & _ & Hs & _).
  pose proof (Z.mod_pos_bound (len hist - RingBuffer.length kr.2) c Hc) as Hb.
  unfold no_wrap. eapply Forall_impl; [exact Hl|]. intros i Hi. simpl in Hi. lia.
Qed.

(** The rings of a built store, by field. *)
Lemma store_models_ring_ok c n shapes rbs :
  0 < c -> store_models c n shapes rbs -> Forall ring_ok rbs.
Proof.
  intros Hc Hst. induction Hst as [|ns kr ? ? (_ & hist & _ & Hmod) _ IH]; constructor; [|done].
  split; [apply (models_wf c ns.2 hist); [lia|done]|].
  destruct Hmod as (-> & _). done.
Qed.

Lemma store_models_keys c n shapes rbs :
  store_models c n shapes rbs -> rbs.*1 = shapes.*1.
Proof.
  induction 1 as [|ns kr ? ? (Hk & _) _ IH]; [done|]. rewrite !fmap_cons. by f_equal.
Qed.

Lemma ring_of_get s k rb : dict_get (ring_buffers s) k = inr rb -> ring_of s k = rb.
Proof. unfold ring_of. by intros ->. Qed.

Lemma gather_seqZ_lookup rb idx L (j : nat) :
  Z.of_nat j < L -> gather rb (seqZ idx L) !! j = Some (slot_row rb (idx + Z.of_nat j)).
Proof.
  intros Hj. unfold gather. rewrite list_lookup_fmap, lookup_seqZ_lt by lia. done.
Qed.

Lemma gather_len rb l : len (gather rb l) = len l.
Proof. unfold len, gather. by rewrite length_fmap. Qed.

Lemma len_seqZ idx L : 0 <= L -> len (seqZ idx L) = L.
Proof. intros HL. unfold len. rewrite length_seqZ. lia. Qed.

Lemma slot_row_width c w hist rb i :
  0 < c -> models c w hist rb -> List.length (slot_row rb i) = w.
Proof.
  intros Hc Hmod. pose proof (models_wf c w hist rb ltac:(lia) Hmod) as Hwf.
  destruct Hmod as (Hm & _ & _ & Hrows & _).
  destruct (np_getitem_in (RingBuffer.data rb) _ (slot_in_range rb i Hwf ltac:(lia)))
    as (r & Hr & _).
  unfold slot_row. rewrite Hr. rewrite Forall_forall in Hrows.
  apply Hrows. by eapply list_elem_of_lookup_2.
Qed.

Lemma gather_width c w hist rb l :
  0 < c -> models c w hist rb -> Forall (fun r => List.length r = w) (gather rb l).
Proof.
  intros Hc Hmod. unfold gather. apply Forall_fmap, Forall_forall. intros i _.
  simpl. by eapply slot_row_width.
Qed.

(** *** The scan of the terminal flags *)

Lemma contains_one_false dones :
  np_contains_one dones = false ->
  forall (i : nat) r, dones !! i = Some r -> row_is_one r = false.
Proof.
  unfold np_contains_one. induction dones as [|r0 dones IH]; intros Hc i r; [done|].
  simpl in Hc. apply orb_false_iff in Hc as [Hr0 Hrest].
  destruct i as [|i]; simpl.
  - intros [= <-]. destruct r0 as [|d [|]]; try done.
    simpl in Hr0. apply orb_false_iff in Hr0 as [Hd _]. exact Hd.
  - by apply IH.
Qed.

Lemma list_index_one_first dones :
  Forall (fun r => List.length r = 1%nat) dones ->
  np_contains_one dones = true ->
  exists j : nat,
    list_index_one dones = inr (Z.of_nat j) /\
    (exists r, dones !! j = Some r /\ row_is_one r = true) /\
    forall (i : nat) r, (i < j)%nat -> dones !! i = Some r -> row_is_one r = false.
Proof.
  unfold np_contains_one.
  induction 1 as [|r0 dones Hr0 _ IH]; [done|]. intros Hc.
  destruct r0 as [|d [|]]; try done.
  simpl in Hc. rewrite orb_false_r in Hc.
  simpl. destruct (Qeq_bool d 1) eqn:Hd.
  - exists 0%nat. split; [done|]. split; [by exists [d]|]. lia.
  - simpl in Hc. destruct (IH Hc) as (j & Hj & Hone & Hbefore).
    exists (S j). rewrite Hj. simpl. split; [f_equal; lia|]. split; [done|].
    intros [|i] r Hi; simpl.
    + intros [= <-]. done.
    + apply Hbefore. lia.
Qed.

Lemma ep_end_idx_scan idx la_end dones :
  Forall (fun r => List.length r = 1%nat) dones ->
  (exists j : nat,
     ep_end_idx_of idx la_end dones = inr (idx + Z.of_nat j) /\
     (exists r, dones !! j = Some r /\ row_is_one r = true) /\
     forall (i : nat) r, (i < j)%nat -> dones !! i = Some r -> row_is_one r = false) \/
  (ep_end_idx_of idx la_end dones = inr la_end /\
   forall (i : nat) r, dones !! i = Some r -> row_is_one r = false).
Proof.
  intros Hall. unfold ep_end_idx_of. destruct (np_contains_one dones) eqn:Hc.
  - left. destruct (list_index_one_first dones Hall Hc) as (j & -> & Hj).
    by exists j.
  - right. split; [done|]. by apply contains_one_false.
Qed.

(** *** The discounted sum *)

Lemma row_eq_refl x : row_eq x x.
Proof. unfold row_eq. induction x; constructor; [reflexivity|done]. Qed.

Lemma row_eq_sym x y : row_eq x y -> row_eq y x.
Proof. unfold row_eq. induction 1; constructor; [by symmetry|done]. Qed.

Lemma row_eq_trans x y z : row_eq x y -> row_eq y z -> row_eq x z.
Proof.
  unfold row_eq. intros Hxy. revert z.
  induction Hxy as [|a b x y Hab _ IH]; intros z Hyz; inversion Hyz; subst; constructor.
  - by etransitivity.
  - by apply IH.
Qed.

Lemma vadd_proper a a' b b' :
  row_eq a a' -> row_eq b b' -> row_eq (vadd a b) (vadd a' b').
Proof.
  unfold row_eq, vadd. intros Ha. revert b b'.
  induction Ha as [|x x' a a' Hx _ IH]; intros b b' Hb; [constructor|].
  destruct Hb as [|y y' b b' Hy Hb]; simpl; constructor.
  - by rewrite Hx, Hy.
  - by apply IH.
Qed.

Lemma vscale_proper g g' a a' :
  g == g' -> row_eq a a' -> row_eq (vscale g a) (vscale g' a').
Proof.
  unfold row_eq, vscale. intros Hg. induction 1 as [|x x' a a' Hx _ IH]; simpl; constructor.
  - by rewrite Hg, Hx.
  - done.
Qed.

Lemma vscale_vadd g a b :
  row_eq (vscale g (vadd a b)) (vadd (vscale g a) (vscale g b)).
Proof.
  unfold row_eq, vscale, vadd. revert b.
  induction a as [|x a IH]; intros [|y b]; simpl; constructor; [ring|apply IH].
Qed.

Lemma vscale_vscale g h a : row_eq (vscale g (vscale h a)) (vscale (g * h) a).
Proof.
  unfold row_eq, vscale. induction a as [|x a IH]; simpl; constructor; [ring|done].
Qed.

Lemma vscale_one a : row_eq (vscale 1 a) a.
Proof.
  unfold row_eq, vscale. induction a as [|x a IH]; simpl; constructor; [ring|done].
Qed.

Lemma vadd_vscale_zero g r y :
  g == 0 -> List.length y = List.length r -> row_eq (vadd r (vscale g y)) r.
Proof.
  intros Hg. revert y. induction r as [|a r IH]; intros [|b y] Hlen; try done.
  - constructor.
  - simpl in Hlen. constructor; [|apply IH; lia].
    rewrite Hg. ring.
Qed.

Lemma vadd_vscale_one g r y sm :
  g == 1 -> row_eq y sm -> row_eq (vadd r (vscale g y)) (vadd r sm).
Proof.
  intros Hg Hy. revert r. induction Hy as [|b b' y sm Hb _ IH]; intros [|a r];
    try constructor.
  - rewrite Hg, Hb. ring.
  - apply IH.
Qed.

Lemma discount_length x g : List.length (discount x g) = List.length x.
Proof.
  induction x as [|r x IH]; [done|]. simpl.
  destruct (discount x g); simpl in *; lia.
Qed.

Lemma vadd_width w (r y : row) :
  List.length r = w -> List.length y = w -> List.length (vadd r y) = w.
Proof. intros Hr Hy. unfold vadd. rewrite length_zip_with. lia. Qed.

Lemma discount_width w x g :
  Forall (fun r => List.length r = w) x ->
  Forall (fun r => List.length r = w) (discount x g).
Proof.
  induction 1 as [|r x Hr _ IH]; [constructor|]. simpl.
  destruct (discount x g) as [|y ys]; [by constructor|].
  inversion IH; subst. constructor; [|done].
  apply vadd_width; [done|]. unfold vscale. by rewrite length_fmap.
Qed.

(** With [gamma = 0] the head of the discounted sums is the first row. *)
Lemma discount_head_zero x r g :
  g == 0 -> rectangular (r :: x) ->
  exists y ys, discount (r :: x) g = y :: ys /\ row_eq y r.
Proof.
  intros Hg [w Hw]. inversion Hw as [|? ? Hr Hx]; subst. simpl.
  pose proof (discount_width _ x g Hx) as Hd.
  destruct (discount x g) as [|y ys].
  - exists r, []. split; [done|]. apply row_eq_refl.
  - eexists _, _. split; [done|]. apply vadd_vscale_zero; [done|].
    by inversion Hd.
Qed.

(** With [gamma = 1] it is the sum of the rows. *)
Lemma discount_head_one x g :
  g == 1 -> x <> [] ->
  exists y ys sm, discount x g = y :: ys /\ vsum x = Some sm /\ row_eq y sm.
Proof.
  intros Hg. induction x as [|r x IH]; [done|]. intros _. simpl.
  destruct x as [|r' x].
  - simpl. exists r, [], r. repeat split. apply row_eq_refl.
  - destruct (IH ltac:(done)) as (y & ys & sm & -> & -> & Hy).
    eexists _, _, _. repeat split. by apply vadd_vscale_one.
Qed.

(** Raising the first exponent by one multiplies the weighted sum by [gamma]. *)
Lemma weighted_sum_shift k x g :
  match weighted_sum (S k) x g, weighted_sum k x g with
  | Some a, Some b => row_eq a (vscale g b)
  | None, None => True
  | _, _ => False
  end.
Proof.
  revert k. induction x as [|r x IH]; intros k; [done|]. simpl.
  assert (Ht : row_eq (vscale (g ^ Z.of_nat (S k)) r) (vscale g (vscale (g ^ Z.of_nat k) r))).
  { apply row_eq_sym. eapply row_eq_trans; [apply vscale_vscale|].
    apply vscale_proper; [|apply row_eq_refl].
    rewrite Nat2Z.inj_succ, <- Z.add_1_l, Qpower_plus' by lia. by rewrite Qpower_1_r. }
  specialize (IH (S k)).
  destruct (weighted_sum (S (S k)) x g) as [a|], (weighted_sum (S k) x g) as [b|]; try done.
  eapply row_eq_trans; [|apply row_eq_sym, vscale_vadd]. by apply vadd_proper.
Qed.

(** The recurrence of [discount] computes, at the head, the direct
    weighted sum [x[0] + gamma * x[1] + gamma^2 * x[2] + ...]. *)
Lemma discount_head_weighted_sum x g :
  x <> [] ->
  exists y ys sm, discount x g = y :: ys /\ weighted_sum 0 x g = Some sm /\ row_eq y sm.
Proof.
  induction x as [|r x IH]; [done|]. intros _.
  assert (Hr : row_eq r (vscale (g ^ Z.of_nat 0) r)) by apply row_eq_sym, vscale_one.
  simpl. destruct x as [|r' x].
  - simpl. by exists r, [], (vscale (g ^ 0) r).
  - destruct (IH ltac:(done)) as (y & ys & sm & -> & Hsm & Hy).
    pose proof (weighted_sum_shift 0 (r' :: x) g) as Hshift. rewrite Hsm in Hshift.
    destruct (weighted_sum 1 (r' :: x) g) as [a|]; [|done].
    eexists _, _, _. repeat split. apply vadd_proper; [done|].
    eapply row_eq_trans; [|by apply row_eq_sym]. by apply vscale_proper.
Qed.

End LookaheadFacts.

(** *** One pass of the loop of [lookahead] on a built store *)

Section Window.

Import ReplayBuffer.

Variables (c : Z) (shapes : list (string * nat)) (ts : list pydict).
Variables (s : ReplayBuffer.t) (num idx n : Z) (patcher : option patcher_t).

Hypothesis Hc : 0 < c.
Hypothesis Hb : built c shapes ts s.
Hypothesis Hsch : schema_ok shapes.
Hypothesis Hp : patcher_ok patcher.
Hypothesis Hnum : num_entries s = inr num.
Hypothesis Hidx : 0 <= idx < num.
Hypothesis Hn : 1 <= n.

Local Abbreviation L := (window_len idx n num).
Local Abbreviation la_end := (la_end_idx_of idx n num).
Local Abbreviation b0 :=
  (mk_batch (delete "idxs" (batch_cols (ring_buffers s) (seqZ idx L) ∅))
            (IntArray (seqZ idx L))).
Local Abbreviation b1 :=
  (match patcher with
   | None => b0
   | Some f => mk_batch (<["rews" := f (window_of s "obs0" idx n num)
                                       (window_of s "acs" idx n num)
                                       (window_of s "obs1" idx n num)]> (cols b0))
                        (idxs b0)
   end).

Lemma window_len_pos : 1 <= L.
Proof. unfold window_len. lia. Qed.

Lemma la_end_idx_window : la_end = idx + L - 1.
Proof. unfold la_end_idx_of, window_len. lia. Qed.

Lemma la_idxs_window : la_idxs_of idx la_end = IntArray (seqZ idx L).
Proof.
  unfold la_idxs_of, np_array_range. rewrite la_end_idx_window.
  pose proof window_len_pos. destruct (Z.leb_spec (idx + L - 1 + 1) idx); [lia|].
  do 2 f_equal. lia.
Qed.

Lemma field_ring k w :
  dict_get shapes k = inr w ->
  dict_get (ring_buffers s) k = inr (ring_of s k) /\
  exists hist, len hist = len ts /\ models c w hist (ring_of s k).
Proof.
  intros Hk.
  destruct (store_models_get c (len ts) shapes _ k w (built_store_models c shapes ts s Hc Hb) Hk)
    as (rb & hist & Hget & Hlen & Hmod).
  rewrite (ring_of_get s k rb Hget). split; [done|]. by exists hist.
Qed.

Lemma rings_ok : Forall ring_ok (ring_buffers s).
Proof. eapply store_models_ring_ok; [done|]. by apply built_store_models. Qed.

Lemma rings_nodup : NoDup (ring_buffers s).*1.
Proof.
  rewrite (store_models_keys c (len ts) shapes); [apply Hsch|].
  by apply built_store_models.
Qed.

Lemma capacity_bound : c < 2 ^ 61.
Proof.
  apply (built_capacity c shapes ts s Hb). destruct Hsch as (_ & Hd & _).
  by destruct shapes.
Qed.

Lemma num_le_capacity : num <= c.
Proof.
  destruct Hsch as (_ & _ & Hall). rewrite Forall_forall in Hall.
  destruct (Hall "obs0") as [w Hw]; [by repeat constructor|].
  destruct (field_ring "obs0" w Hw) as (Hget & hist & _ & Hmod).
  unfold num_entries in Hnum. rewrite Hget in Hnum. injection Hnum as <-.
  destruct Hmod as (_ & _ & _ & _ & Hl & _). unfold RingBuffer.__len__. lia.
Qed.

(** The logical indices of a window are far from the end of [int64]. *)
Lemma window_no_wrap : Forall (no_wrap (seqZ idx L)) (ring_buffers s).
Proof.
  apply (store_models_no_wrap c (len ts) shapes); [done|by apply built_store_models|].
  pose proof capacity_bound as Hcap. pose proof num_le_capacity as Hnc.
  apply Forall_forall. intros i Hi%elem_of_seqZ. unfold window_len in Hi.
  change (2 ^ 61) with 2305843009213693952 in Hcap.
  change (2 ^ 63) with 9223372036854775808. lia.
Qed.

Lemma batchify_window : batchify s (la_idxs_of idx la_end) = inr b0.
Proof. rewrite la_idxs_window. apply batchify_cols; [apply rings_ok|apply window_no_wrap]. Qed.

Lemma col_window k w :
  dict_get shapes k = inr w -> k <> "idxs" ->
  cols b0 !! k = Some (window_of s k idx n num).
Proof.
  intros Hk Hne. destruct (field_ring k w Hk) as [Hget _]. simpl.
  rewrite lookup_delete_ne by done.
  by apply batch_cols_in; [apply rings_nodup|].
Qed.

Lemma col_len k rows : cols b0 !! k = Some rows -> len rows = L.
Proof.
  simpl. intros Hk. apply lookup_delete_Some in Hk as [_ Hk].
  apply batch_cols_len in Hk; [|done].
  unfold len. rewrite Hk, length_seqZ. pose proof window_len_pos. lia.
Qed.

Lemma window_of_len k w : dict_get shapes k = inr w -> len (window_of s k idx n num) = L.
Proof.
  intros Hk. unfold window_of. rewrite gather_len, len_seqZ; [done|].
  pose proof window_len_pos. lia.
Qed.

Lemma schema_field k :
  k ∈ ["obs0"; "acs"; "obs1"; "rews"] -> exists w, dict_get shapes k = inr w.
Proof.
  intros Hk. destruct Hsch as (_ & _ & Hall). rewrite Forall_forall in Hall. by apply Hall.
Qed.

Lemma patch_window : patch b0 patcher = inr b1.
Proof.
  unfold patch. destruct patcher as [f|]; [|done]. unfold batch_get.
  destruct (schema_field "obs0") as [w0 H0]; [by repeat constructor|].
  destruct (schema_field "acs") as [w1 H1]; [by repeat constructor|].
  destruct (schema_field "obs1") as [w2 H2]; [by repeat constructor|].
  rewrite (col_window "obs0" w0), (col_window "acs" w1), (col_window "obs1" w2) by done.
  done.
Qed.

Lemma patched_rews : cols b1 !! "rews" = Some (window_rewards s idx n num patcher).
Proof.
  unfold window_rewards. destruct patcher as [f|].
  - simpl. by rewrite lookup_insert_eq.
  - destruct (schema_field "rews") as [w Hw]; [by repeat constructor|]. by apply (col_window "rews" w).
Qed.

Lemma patched_other k : k <> "rews" -> cols b1 !! k = cols b0 !! k.
Proof. intros Hk. destruct patcher as [f|]; [|done]. simpl. by rewrite lookup_insert_ne. Qed.

Lemma window_same_len k k' :
  k ∈ ["obs0"; "acs"; "obs1"; "rews"] -> k' ∈ ["obs0"; "acs"; "obs1"; "rews"] ->
  List.length (window_of s k idx n num) = List.length (window_of s k' idx n num).
Proof.
  intros [w Hk]%schema_field [w' Hk']%schema_field.
  pose proof (window_of_len k w Hk) as H1. pose proof (window_of_len k' w' Hk') as H2.
  unfold len in *. lia.
Qed.

Lemma patched_rewards_ok f :
  patcher = Some f ->
  List.length (f (window_of s "obs0" idx n num) (window_of s "acs" idx n num)
                 (window_of s "obs1" idx n num))
  = List.length (window_of s "obs0" idx n num) /\
  rectangular (f (window_of s "obs0" idx n num) (window_of s "acs" idx n num)
                 (window_of s "obs1" idx n num)).
Proof.
  intros Hf. pose proof Hp as Hp'. rewrite Hf in Hp'.
  apply Hp'; apply window_same_len; by repeat constructor.
Qed.

Lemma window_rewards_len : len (window_rewards s idx n num patcher) = L.
Proof.
  pose proof patched_rewards_ok as Hpr.
  unfold window_rewards. destruct patcher as [f|].
  - destruct (Hpr f eq_refl) as [Hlen _].
    destruct (schema_field "obs0") as [w0 H0]; [by repeat constructor|].
    unfold len. rewrite Hlen. by apply (window_of_len "obs0" w0).
  - destruct (schema_field "rews") as [w Hw]; [by repeat constructor|].
    by apply (window_of_len "rews" w).
Qed.

Lemma window_rewards_rectangular : rectangular (window_rewards s idx n num patcher).
Proof.
  pose proof patched_rewards_ok as Hpr.
  unfold window_rewards. destruct patcher as [f|].
  - by apply Hpr.
  - destruct (schema_field "rews") as [w Hw]; [by repeat constructor|].
    destruct (field_ring "rews" w Hw) as (_ & hist & _ & Hmod).
    exists w. by apply gather_width with c hist.
Qed.

Lemma patched_len k rows : cols b1 !! k = Some rows -> len rows = L.
Proof.
  destruct (decide (k = "rews")) as [->|Hne].
  - rewrite patched_rews. intros [= <-]. apply window_rewards_len.
  - rewrite patched_other by done. apply col_len.
Qed.

Lemma window_flags_singletons :
  Forall (fun r => List.length r = 1%nat) (window_of s "dones1" idx n num).
Proof.
  destruct Hsch as (_ & Hd & _). destruct (field_ring "dones1" 1%nat Hd) as (_ & hist & _ & Hmod).
  by apply gather_width with c hist.
Qed.

Lemma np_slice_to_take {A} (x : list A) (k : nat) :
  np_slice_to x (Z.of_nat k + 1) = take (S k) x.
Proof.
  unfold np_slice_to. destruct (Z.ltb_spec (Z.of_nat k + 1) 0); [lia|].
  f_equal. lia.
Qed.

Lemma orig_at_window k i :
  0 <= i < L -> exists o, orig_at b1 k i = inr o.
Proof.
  intros Hi. unfold orig_at. destruct (cols b1 !! k) as [x|] eqn:Hk; [|by eexists].
  apply patched_len in Hk.
  destruct (np_getitem_in x i) as (r & _ & ->); [lia|]. by eexists.
Qed.

Lemma col_getitem k i :
  k ∈ ["obs0"; "acs"; "obs1"] -> 0 <= i < L ->
  exists x, cols b1 !! k = Some (window_of s k idx n num) /\
            np_getitem (window_of s k idx n num) i = inr x.
Proof.
  intros Hk Hi. destruct (schema_field k) as [w Hw].
  { revert Hk. rewrite !elem_of_cons. tauto. }
  assert (k <> "rews" /\ k <> "idxs") as [Hne1 Hne2].
  { revert Hk. rewrite !elem_of_cons, elem_of_nil. by intros [->|[->|[->|[]]]]. }
  destruct (np_getitem_in (window_of s k idx n num) i) as (x & _ & Hx).
  { rewrite (window_of_len k w) by done. lia. }
  exists x. split; [|done]. rewrite patched_other by done. by apply (col_window k w).
Qed.

(** The body of the loop returns; its lookahead length, trim flag and
    discounted reward are those of the scan over the window. *)
Lemma lookahead_step_window gamma :
  exists e (j : nat),
    lookahead_step s idx n gamma patcher = inr e /\
    ep_end_idx_of idx la_end (window_of s "dones1" idx n num) = inr (idx + Z.of_nat j) /\
    Z.of_nat j < L /\
    la_td_len e = Z.of_nat j + 1 /\
    la_dones1 e = la_is_trimmed_of (idx + Z.of_nat j) la_end /\
    np_getitem (discount (take (S j) (window_rewards s idx n num patcher)) gamma) 0
      = inr (la_rews e).
Proof.
  pose proof window_len_pos as HL.
  assert (Hdl : len (window_of s "dones1" idx n num) = L).
  { apply (window_of_len "dones1" 1%nat), Hsch. }
  assert (exists j : nat,
            ep_end_idx_of idx la_end (window_of s "dones1" idx n num)
            = inr (idx + Z.of_nat j) /\ Z.of_nat j < L) as (j & Hep & Hj).
  { destruct (ep_end_idx_scan idx la_end _ window_flags_singletons)
      as [(j & Hep & (r & Hr & _) & _)|[Hep _]].
    - exists j. split; [done|]. apply lookup_lt_Some in Hr. unfold len in Hdl. lia.
    - exists (Z.to_nat (L - 1)). rewrite Hep, la_end_idx_window. split; [f_equal|]; lia. }
  assert (Hdones : cols b1 !! "dones1" = Some (window_of s "dones1" idx n num)).
  { rewrite patched_other by done. apply (col_window "dones1" 1%nat); [apply Hsch|done]. }
  destruct (np_getitem_in
              (discount (take (S j) (window_rewards s idx n num patcher)) gamma) 0)
    as (dsum & _ & Hdsum).
  { unfold len. rewrite discount_length, length_take.
    pose proof window_rewards_len as Hrl. unfold len in Hrl. lia. }
  destruct (col_getitem "obs0" 0) as (o0 & Ho0 & Hg0); [by repeat constructor|lia|].
  destruct (col_getitem "obs1" (Z.of_nat j)) as (o1 & Ho1 & Hg1); [by repeat constructor|lia|].
  destruct (col_getitem "acs" 0) as (a0 & Ha0 & Hga0); [by repeat constructor|lia|].
  destruct (col_getitem "obs1" 0) as (o10 & _ & Hg10); [by repeat constructor|lia|].
  destruct (orig_at_window "obs0_orig" 0) as (oo0 & Hoo0); [lia|].
  destruct (orig_at_window "obs1_orig" (Z.of_nat j)) as (oo1 & Hoo1); [lia|].
  destruct (orig_at_window "acs_orig" 0) as (oa0 & Hoa0); [lia|].
  exists (mk_la o0 o1 a0 dsum (la_is_trimmed_of (idx + Z.of_nat j) la_end)
                (Z.of_nat j + 1) o10 oo0 oo1 oa0), j.
  split; [|done].
  unfold lookahead_step, batch_get.
  run Hnum. run batchify_window. run patch_window. run Hdones. run Hep. run patched_rews.
  replace (idx + Z.of_nat j - idx + 1) with (Z.of_nat j + 1) by lia.
  rewrite np_slice_to_take. run Hdsum. run Ho0. run Hg0. run Ho1.
  replace (Z.of_nat j + 1 - 1) with (Z.of_nat j) by lia.
  run Hg1. run Ha0. run Hga0. run Hg10. run Hoo0. run Hoo1. run Hoa0. done.
Qed.

Lemma field_length k w :
  dict_get shapes k = inr w -> RingBuffer.length (ring_of s k) = num.
Proof.
  intros Hk. destruct (schema_field "obs0") as [w0 H0]; [by repeat constructor|].
  destruct (field_ring "obs0" w0 H0) as (Hget0 & h0 & Hl0 & Hm0).
  destruct (field_ring k w Hk) as (_ & h & Hl & Hm).
  assert (Hnum0 : num = RingBuffer.length (ring_of s "obs0")).
  { unfold num_entries in Hnum. rewrite Hget0 in Hnum. by injection Hnum as <-. }
  destruct Hm0 as (_ & _ & _ & _ & Hlen0 & _), Hm as (_ & _ & _ & _ & Hlenk & _).
  rewrite Hnum0, Hlen0, Hlenk. congruence.
Qed.

(** The [j]-th row of the window of a field is the row stored at
    logical index [idx + j]. *)
Lemma window_getitem k w (j : Z) :
  dict_get shapes k = inr w -> 0 <= j < L ->
  exists r, window_of s k idx n num !! Z.to_nat j = Some r /\
            RingBuffer.__getitem__ (ring_of s k) (idx + j) = inr r.
Proof.
  intros Hk Hj. destruct (field_ring k w Hk) as (_ & hist & _ & Hmod).
  pose proof (field_length k w Hk) as Hlen.
  exists (slot_row (ring_of s k) (idx + j)). split.
  - unfold window_of. rewrite gather_seqZ_lookup by lia. do 3 f_equal. lia.
  - apply getitem_slot_row.
    + apply (models_wf c w hist); [lia|done].
    + rewrite Hlen. unfold window_len in Hj. lia.
Qed.

(** The [j]-th flag of the window is the terminal flag stored at
    logical index [idx + j]. *)
Lemma window_flag (j : Z) :
  0 <= j < L ->
  exists r, window_of s "dones1" idx n num !! Z.to_nat j = Some r /\
            row_is_one r = flag_is_one (ring_of s "dones1") (idx + j).
Proof.
  intros Hj. destruct Hsch as (_ & Hd & _).
  destruct (window_getitem "dones1" 1%nat j Hd Hj) as (r & Hr & Hget).
  exists r. split; [done|]. unfold flag_is_one. by rewrite Hget.
Qed.

(** The trim: the episode ends at the first flag set before the end of
    the window, and the stored flag tells whether there is one. *)
Lemma lookahead_step_trim gamma :
  exists e ep,
    lookahead_step s idx n gamma patcher = inr e /\
    ep_end_idx_of idx la_end (window_of s "dones1" idx n num) = inr ep /\
    idx <= ep <= la_end /\
    la_td_len e = ep - idx + 1 /\
    la_dones1 e = la_is_trimmed_of ep la_end /\
    (forall j, 0 <= j < la_end - idx ->
       flag_is_one (ring_of s "dones1") (idx + j) = true ->
       (forall i, 0 <= i < j -> flag_is_one (ring_of s "dones1") (idx + i) = false) ->
       ep = idx + j /\ la_dones1 e = 1%Q) /\
    ((forall j, 0 <= j < la_end - idx ->
        flag_is_one (ring_of s "dones1") (idx + j) = false) ->
     ep = la_end /\ la_dones1 e = 0%Q).
Proof.
  destruct (lookahead_step_window gamma) as (e & j0 & Hstep & Hep & Hj0 & Htd & Hflag & _).
  pose proof la_end_idx_window as Hend.
  exists e, (idx + Z.of_nat j0). split; [done|]. split; [done|].
  split; [lia|]. split; [lia|]. split; [done|].
  rewrite Hflag. unfold la_is_trimmed_of.
  destruct (ep_end_idx_scan idx la_end _ window_flags_singletons)
    as [(j1 & Hep1 & (r1 & Hr1 & Hone1) & Hbefore)|[Hep1 Hnone]];
    rewrite Hep in Hep1; injection Hep1 as Hj.
  - assert (j1 = j0) as -> by lia. split.
    + intros j Hjr Hjt Hjf.
      destruct (window_flag j) as (r & Hr & Hrf); [lia|]. rewrite Hjt in Hrf.
      destruct (window_flag (Z.of_nat j0)) as (r0 & Hr0 & Hrf0); [lia|].
      rewrite Nat2Z.id in Hr0. pose proof (eq_trans (eq_sym Hr1) Hr0) as [= <-].
      rewrite Hone1 in Hrf0.
      assert (Z.of_nat j0 = j) as <-.
      { destruct (Z.lt_trichotomy (Z.of_nat j0) j) as [Hlt|[Heq|Hgt]]; [|done|].
        - rewrite Hjf in Hrf0 by lia. done.
        - rewrite (Hbefore (Z.to_nat j) r) in Hrf; [done|lia|done]. }
      split; [done|]. destruct (Z.eqb_spec (idx + Z.of_nat j0) la_end); [lia|done].
    + intros Hall.
      destruct (window_flag (Z.of_nat j0)) as (r0 & Hr0 & Hrf0); [lia|].
      rewrite Nat2Z.id in Hr0. pose proof (eq_trans (eq_sym Hr1) Hr0) as [= <-].
      rewrite Hone1 in Hrf0.
      assert (idx + Z.of_nat j0 = la_end) as ->.
      { destruct (Z.lt_ge_cases (Z.of_nat j0) (la_end - idx)) as [Hlt|Hge]; [|lia].
        rewrite Hall in Hrf0 by lia. done. }
      by rewrite Z.eqb_refl.
  - rewrite Hj. split.
    + intros j Hjr Hjt _.
      destruct (window_flag j) as (r & Hr & Hrf); [lia|]. rewrite Hjt in Hrf.
      by rewrite (Hnone _ _ Hr) in Hrf.
    + intros _. by rewrite Z.eqb_refl.
Qed.

(** The discounted reward at the two ends of the range of [gamma]. *)
Lemma lookahead_step_discount gamma :
  exists e,
    lookahead_step s idx n gamma patcher = inr e /\
    1 <= la_td_len e <= L /\
    (exists ws, weighted_sum 0 (take (Z.to_nat (la_td_len e))
                                     (window_rewards s idx n num patcher)) gamma
                = Some ws /\ row_eq (la_rews e) ws) /\
    (gamma == 0 ->
     exists r0, take (Z.to_nat (la_td_len e)) (window_rewards s idx n num patcher) !! 0%nat
                = Some r0 /\ row_eq (la_rews e) r0) /\
    (gamma == 1 ->
     exists sm, vsum (take (Z.to_nat (la_td_len e)) (window_rewards s idx n num patcher))
                = Some sm /\ row_eq (la_rews e) sm).
Proof.
  destruct (lookahead_step_window gamma) as (e & j & Hstep & _ & Hj & Htd & _ & Hsum).
  exists e. split; [done|]. split; [lia|].
  rewrite Htd. replace (Z.to_nat (Z.of_nat j + 1)) with (S j) by lia.
  pose proof window_rewards_len as Hlen. pose proof window_rewards_rectangular as [w Hrect].
  pose proof window_len_pos as HL.
  destruct (window_rewards s idx n num patcher) as [|r x] eqn:Hw; [unfold len in Hlen; simpl in Hlen; lia|].
  rewrite firstn_cons in *.
  assert (Hrt : rectangular (r :: take j x)).
  { exists w. inversion Hrect; subst. constructor; [done|]. by apply Forall_take. }
  split; [|split].
  - destruct (discount_head_weighted_sum (r :: take j x) gamma ltac:(done))
      as (y & ys & ws & Hd & Hws & Hy).
    exists ws. split; [done|]. rewrite Hd in Hsum. by injection Hsum as <-.
  - intros Hg. exists r. split; [done|].
    destruct (discount_head_zero (take j x) r gamma Hg Hrt) as (y & ys & Hd & Hy).
    rewrite Hd in Hsum. by injection Hsum as <-.
  - intros Hg.
    destruct (discount_head_one (r :: take j x) gamma Hg ltac:(done)) as (y & ys & sm & Hd & Hv & Hy).
    exists sm. split; [done|]. rewrite Hd in Hsum. by injection Hsum as <-.
Qed.

End Window.

Lemma lookahead_entries (s : ReplayBuffer.t) (cs : gmap string (list row)) (l : list Z)
    (n : Z) (gamma : Q) (patcher : option patcher_t) (P : Z -> la_entry -> Prop) :
  (0 <= gamma <= 1)%Q ->
  Forall (fun idx => exists e, ReplayBuffer.lookahead_step s idx n gamma patcher = inr e /\ P idx e) l ->
  exists entries,
    ReplayBuffer.lookahead s (mk_batch cs (IntArray l)) n gamma patcher = inr (entries, IntArray l) /\
    Forall2 P l entries.
Proof.
  intros [Hg0 Hg1] Hall. unfold ReplayBuffer.lookahead.
  apply Qle_bool_iff in Hg0, Hg1. rewrite Hg0, Hg1. simpl.
  assert (exists entries,
            mapM (fun idx => ReplayBuffer.lookahead_step s idx n gamma patcher) l = inr entries /\
            Forall2 P l entries) as (entries & -> & HP).
  { induction Hall as [|idx l (e & He & HPe) _ (entries & IH & HP)].
    - by exists [].
    - exists (e :: entries). simpl. rewrite He, IH. split; [done|]. by constructor. }
  by exists entries.
Qed.

(** ** The lookahead: statements *)

Lemma built_store_5 : built 5 shapes5 five_transitions store_5.
Proof. eexists. split; [reflexivity|]. vm_compute. reflexivity. Defined.

Lemma schema_ok_shapes5 : schema_ok shapes5.
Proof.
  split; [|split].
  - apply (bool_decide_unpack _). by vm_compute.
  - reflexivity.
  - repeat constructor; by eexists.
Defined.





Lemma patcher_ok_next_obs : patcher_ok (Some patch_next_obs).
Proof.
  intros o0 ac o1 _ Ho1. unfold patch_next_obs. split.
  - by rewrite length_fmap.
  - exists 1%nat. by apply Forall_fmap, Forall_forall.
Defined.



Example lookahead_gamma_one :
  rews_column (ReplayBuffer.lookahead store_5 (mk_batch ∅ (IntArray [0; 3])) 4 1 None)
  = inr [[6%Q]; [9%Q]].
Proof. vm_compute. reflexivity. Qed.

Example lookahead_gamma_zero :
  rews_column (ReplayBuffer.lookahead store_5 (mk_batch ∅ (IntArray [0; 3])) 4 0 None)
  = inr [[1%Q]; [4%Q]].
Proof. vm_compute. reflexivity. Qed.

(** The scenario of capacity 3 and four transitions: the store holds the
    rewards 2, 3, 4 and the one-step lookahead of index 1 returns 3. *)
Example lookahead_one_step_after_wraparound :
  mapM (RingBuffer.__getitem__ (ring_of store_3_4 "rews")) [0; 1; 2]
  = inr [[q 2]; [q 3]; [q 4]] /\
  rews_column (ReplayBuffer.lookahead store_3_4 (mk_batch ∅ (IntArray [1])) 1 (9 # 10) None)
  = inr [[3%Q]] /\
  td_len_and_dones1 (ReplayBuffer.lookahead store_3_4 (mk_batch ∅ (IntArray [1])) 1 (9 # 10) None)
  = inr [(1, 0%Q)].
Proof. by vm_compute. Qed.

(** * Further properties *)

(** ** The ring buffer *)

Section RingMore.

Import RingBuffer.

Lemma setitem_inv self p v :
  let self' := fst (setitem self p v) in
  Forall (fun r => List.length r = shape self) (data self) ->
  Forall (fun r => List.length r = shape self') (data self').
Proof.
  unfold setitem. destruct (np_index _ _) as [e|i]; [done|].
  destruct (np_broadcast _ _) as [e|r] eqn:Hb; [done|]. simpl. intros Hall.
  apply Forall_insert; [done|]. unfold float32_row. rewrite length_fmap.
  by apply broadcast_width with v.
Qed.

Lemma write_last_inv self v :
  let self' := fst (write_last self v) in
  Forall (fun r => List.length r = shape self) (data self) ->
  Forall (fun r => List.length r = shape self') (data self').
Proof. unfold write_last. destruct (py_mod _ _); [done|]. apply setitem_inv. Qed.

Lemma append_rows self v :
  Forall (fun r => List.length r = shape self) (data self) ->
  Forall (fun r => List.length r = shape (fst (append self v))) (data (fst (append self v))).
Proof.
  destruct v as [a|]; [|done]. unfold append. intros Hall.
  destruct (length self <? maxlen self).
  - by apply (write_last_inv (set_length self (length self + 1)) a).
  - destruct (length self =? maxlen self); [|done]. unfold py_mod.
    destruct (maxlen self =? 0); [done|]. simpl.
    by apply (write_last_inv (set_start self ((start self + 1) mod maxlen self)) a).
Qed.

Lemma reachable_inv rb : reachable rb -> ring_inv rb.
Proof.
  intros Hr. split; [by apply reachable_wf|].
  induction Hr as [m w rb Hi|rb v Hr (Hs0 & Hs1 & Hs2 & Hrows)].
  - apply init_inr in Hi as [-> Hm]. simpl. repeat split; try lia.
    apply Forall_forall. intros r Hin%list_elem_of_In%repeat_spec. subst r.
    apply repeat_length.
  - destruct (reachable_wf rb Hr) as [Hl Hd].
    split; [|split; [|split]]; [| | |by apply append_rows];
      destruct v as [a|]; try done; rewrite ?append_maxlen, ?append_start;
      try rewrite append_length by done;
      destruct (Z.ltb_spec (length rb) (maxlen rb));
      destruct (Z.eqb_spec (length rb) (maxlen rb));
      destruct (Z.eqb_spec (maxlen rb) 0); simpl; try lia;
      try (intros; apply Z.mod_pos_bound; lia);
      try (pose proof (Z.mod_pos_bound (start rb + 1) (maxlen rb)); lia).
Qed.

(** The state a ring of positive capacity is in after [append] updated
    its cursor, and the slot the write goes to. *)
Lemma append_cursor_state rb a :
  ring_wf rb -> 0 < maxlen rb ->
  let start' := if length rb <? maxlen rb then start rb else (start rb + 1) mod maxlen rb in
  let length' := if length rb <? maxlen rb then length rb + 1 else length rb in
  let p := (start' + length' - 1) mod maxlen rb in
  append rb (NdArray a) =
    match np_broadcast (shape rb) a with
    | inl e => (mk (maxlen rb) start' length' (shape rb) (data rb), Some e)
    | inr r => (mk (maxlen rb) start' length' (shape rb)
                   (<[Z.to_nat p := float32_row r]> (data rb)), None)
    end.
Proof.
  intros [Hl Hd] Hc. simpl. unfold append.
  destruct (Z.ltb_spec (length rb) (maxlen rb)) as [Hlt|Hge].
  - unfold write_last, py_mod, setitem. simpl.
    destruct (Z.eqb_spec (maxlen rb) 0); [lia|]. simpl.
    rewrite np_index_in by (rewrite Hd; apply Z.mod_pos_bound; lia).
    by destruct (np_broadcast (shape rb) a).
  - destruct (Z.eqb_spec (length rb) (maxlen rb)) as [Heq|]; [|lia].
    unfold py_mod. destruct (Z.eqb_spec (maxlen rb) 0); [lia|]. simpl.
    unfold write_last, py_mod, setitem. simpl.
    destruct (Z.eqb_spec (maxlen rb) 0); [lia|]. simpl.
    rewrite np_index_in by (rewrite Hd; apply Z.mod_pos_bound; lia).
    by destruct (np_broadcast (shape rb) a).
Qed.

Lemma append_success_pos rb v rb' :
  ring_wf rb -> append rb v = (rb', None) -> 0 < maxlen rb.
Proof.
  intros [Hl Hd]. destruct v as [a|]; [|done]. unfold append.
  destruct (Z.ltb_spec (length rb) (maxlen rb)); [lia|].
  destruct (Z.eqb_spec (length rb) (maxlen rb)); [|done].
  unfold py_mod. destruct (Z.eqb_spec (maxlen rb) 0); [done|]. lia.
Qed.

Lemma broadcast_exn w a e : np_broadcast w a = inl e -> e = ValueError.
Proof.
  unfold np_broadcast. destruct (List.length a =? w)%nat; [done|].
  destruct a as [|x [|]]; by intros [= <-].
Qed.

Lemma wf_after_write rb st ln (p : nat) r :
  len (data rb) = maxlen rb -> 0 <= ln <= maxlen rb ->
  ring_wf (mk (maxlen rb) st ln (shape rb) (<[p := r]> (data rb))).
Proof.
  intros Hd Hl. split; simpl; [done|]. unfold len in *. by rewrite length_insert.
Qed.

(** Below capacity: the rows held stay where they are, the new one comes last. *)
Lemma queue_step_below rb r :
  ring_inv rb -> length rb < maxlen rb ->
  let rb' := mk (maxlen rb) (start rb) (length rb + 1) (shape rb)
                (<[Z.to_nat ((start rb + (length rb + 1) - 1) mod maxlen rb) := r]> (data rb)) in
  (forall i, 0 <= i < length rb -> __getitem__ rb' i = __getitem__ rb i) /\
  __getitem__ rb' (length rb) = inr r.
Proof.
  intros ([Hl Hd] & _ & _ & Hs2 & _) Hlt rb'. specialize (Hs2 Hlt).
  assert (Hwf' : ring_wf rb') by (apply wf_after_write; [done|lia]).
  assert (Hp : (start rb + (length rb + 1) - 1) mod maxlen rb = length rb).
  { replace (start rb + (length rb + 1) - 1) with (length rb) by lia.
    apply Z.mod_small. lia. }
  split.
  - intros i Hi. rewrite (getitem_slot_row rb') by (simpl; lia || done).
    rewrite (getitem_slot_row rb) by (done || lia). f_equal.
    unfold slot_row. simpl. rewrite Hp, Hs2, Z.mod_small by lia.
    rewrite list_lookup_insert_ne by lia. done.
  - rewrite (getitem_slot_row rb') by (simpl; lia || done). f_equal.
    unfold slot_row. simpl. rewrite Hp, Hs2, Z.mod_small by lia.
    rewrite list_lookup_insert_eq; [done|]. unfold len in Hd. lia.
Qed.

(** At capacity: every row moves down by one, the new one comes last. *)
Lemma queue_step_full rb r :
  ring_inv rb -> 0 < maxlen rb -> length rb = maxlen rb ->
  let st := (start rb + 1) mod maxlen rb in
  let rb' := mk (maxlen rb) st (length rb) (shape rb)
                (<[Z.to_nat ((st + length rb - 1) mod maxlen rb) := r]> (data rb)) in
  (forall i, 0 <= i < length rb - 1 -> __getitem__ rb' i = __getitem__ rb (i + 1)) /\
  __getitem__ rb' (length rb - 1) = inr r.
Proof.
  intros ([Hl Hd] & Hs0 & Hs1 & _) Hc Heq st rb'. specialize (Hs1 Hc).
  assert (Hwf' : ring_wf rb') by (apply wf_after_write; [done|lia]).
  assert (Hp : (st + length rb - 1) mod maxlen rb = start rb).
  { unfold st. rewrite <- Z.add_sub_assoc, Zplus_mod_idemp_l.
    replace (start rb + 1 + (length rb - 1)) with (start rb + 1 * maxlen rb) by lia.
    rewrite Z_mod_plus_full. apply Z.mod_small. lia. }
  split.
  - intros i Hi. rewrite (getitem_slot_row rb') by (simpl; lia || done).
    rewrite (getitem_slot_row rb) by (done || lia). f_equal.
    unfold slot_row. simpl. rewrite Hp. unfold st. rewrite Zplus_mod_idemp_l.
    replace (start rb + 1 + i) with (start rb + (i + 1)) by lia.
    rewrite list_lookup_insert_ne; [done|].
    pose proof (Z.mod_pos_bound (start rb + (i + 1)) (maxlen rb) Hc).
    intros Hx. apply Z2Nat.inj in Hx; try lia.
    rewrite <- (Z.mod_small (start rb) (maxlen rb)) in Hx at 1 by lia.
    revert Hx. apply mod_slot_distinct; lia.
  - rewrite (getitem_slot_row rb') by (simpl; lia || done). f_equal.
    unfold slot_row. simpl. rewrite Hp. fold st.
    replace (st + (length rb - 1)) with (st + length rb - 1) by lia. rewrite Hp.
    rewrite list_lookup_insert_eq; [done|]. unfold len in Hd. lia.
Qed.

End RingMore.

(** X1. On every ring the program can produce, failed appends included,
    the start stays inside [0, maxlen) and at 0 until the ring is full,
    the storage keeps its [maxlen] rows, and every row keeps the width
    of the ring. *)
Theorem ring_cursor_and_storage_invariant (rb : RingBuffer.t) :
  reachable rb ->
  0 <= RingBuffer.start rb /\
  (0 < RingBuffer.maxlen rb -> RingBuffer.start rb < RingBuffer.maxlen rb) /\
  (RingBuffer.length rb < RingBuffer.maxlen rb -> RingBuffer.start rb = 0) /\
  len (RingBuffer.data rb) = RingBuffer.maxlen rb /\
  Forall (fun r => List.length r = RingBuffer.shape rb) (RingBuffer.data rb).
Proof.
  intros ([_ Hd] & H0 & H1 & H2 & H3)%reachable_inv. done.
Qed.

Lemma ring_cursor_and_storage_invariant_witness :
  0 <= RingBuffer.start ring_3_1_one /\
  (0 < RingBuffer.maxlen ring_3_1_one -> RingBuffer.start ring_3_1_one < RingBuffer.maxlen ring_3_1_one) /\
  (RingBuffer.length ring_3_1_one < RingBuffer.maxlen ring_3_1_one -> RingBuffer.start ring_3_1_one = 0) /\
  len (RingBuffer.data ring_3_1_one) = RingBuffer.maxlen ring_3_1_one /\
  Forall (fun r => List.length r = RingBuffer.shape ring_3_1_one) (RingBuffer.data ring_3_1_one).
Proof.
  apply (ring_cursor_and_storage_invariant ring_3_1_one).
  exact (reach_append ring_3_1 (NdArray [q 5]) (reach_init 3 1 ring_3_1 eq_refl)).
Defined.

(** X2. A successful append behaves as a bounded queue, one step at a
    time: below capacity the rows already held keep their logical index
    and the new row is read at the old [length]; at capacity every row
    moves down by one index, the oldest is dropped, and the new row is
    read at [length - 1].  The row stored is the value, broadcast to the
    width of the ring and cast to [float32]. *)
Theorem append_is_queue_step (rb rb' : RingBuffer.t) (a : row) :
  reachable rb ->
  Forall f32_finite a ->
  RingBuffer.append rb (NdArray a) = (rb', None) ->
  exists r,
    np_broadcast (RingBuffer.shape rb) a = inr r /\
    (RingBuffer.length rb < RingBuffer.maxlen rb ->
       RingBuffer.length rb' = RingBuffer.length rb + 1 /\
       (forall i, 0 <= i < RingBuffer.length rb ->
          RingBuffer.__getitem__ rb' i = RingBuffer.__getitem__ rb i) /\
       RingBuffer.__getitem__ rb' (RingBuffer.length rb) = inr (float32_row r)) /\
    (RingBuffer.length rb = RingBuffer.maxlen rb ->
       RingBuffer.length rb' = RingBuffer.length rb /\
       (forall i, 0 <= i < RingBuffer.length rb - 1 ->
          RingBuffer.__getitem__ rb' i = RingBuffer.__getitem__ rb (i + 1)) /\
       RingBuffer.__getitem__ rb' (RingBuffer.length rb - 1) = inr (float32_row r)).
Proof.
  intros Hr _ Happ. pose proof (reachable_inv rb Hr) as Hinv. pose proof Hinv as [Hwf _].
  pose proof (append_success_pos rb _ rb' Hwf Happ) as Hc.
  rewrite (append_cursor_state rb a Hwf Hc) in Happ.
  destruct (np_broadcast (RingBuffer.shape rb) a) as [e|r]; [done|].
  exists r. split; [done|]. injection Happ as <-. split.
  - intros Hlt. destruct (Z.ltb_spec (RingBuffer.length rb) (RingBuffer.maxlen rb)); [|lia].
    split; [done|]. by apply queue_step_below.
  - intros Heq. destruct (Z.ltb_spec (RingBuffer.length rb) (RingBuffer.maxlen rb)); [lia|].
    split; [done|]. by apply queue_step_full.
Qed.

Lemma append_is_queue_step_witness :
  exists r,
    np_broadcast (RingBuffer.shape ring_3_1_full) [1 # 10] = inr r /\
    (RingBuffer.length ring_3_1_full < RingBuffer.maxlen ring_3_1_full ->
       RingBuffer.length (fst (RingBuffer.append ring_3_1_full (NdArray [1 # 10])))
       = RingBuffer.length ring_3_1_full + 1 /\
       (forall i, 0 <= i < RingBuffer.length ring_3_1_full ->
          RingBuffer.__getitem__ (fst (RingBuffer.append ring_3_1_full (NdArray [1 # 10]))) i
          = RingBuffer.__getitem__ ring_3_1_full i) /\
       RingBuffer.__getitem__ (fst (RingBuffer.append ring_3_1_full (NdArray [1 # 10])))
         (RingBuffer.length ring_3_1_full) = inr (float32_row r)) /\
    (RingBuffer.length ring_3_1_full = RingBuffer.maxlen ring_3_1_full ->
       RingBuffer.length (fst (RingBuffer.append ring_3_1_full (NdArray [1 # 10])))
       = RingBuffer.length ring_3_1_full /\
       (forall i, 0 <= i < RingBuffer.length ring_3_1_full - 1 ->
          RingBuffer.__getitem__ (fst (RingBuffer.append ring_3_1_full (NdArray [1 # 10]))) i
          = RingBuffer.__getitem__ ring_3_1_full (i + 1)) /\
       RingBuffer.__getitem__ (fst (RingBuffer.append ring_3_1_full (NdArray [1 # 10])))
         (RingBuffer.length ring_3_1_full - 1) = inr (float32_row r)).
Proof.
  apply (append_is_queue_step ring_3_1_full
           (fst (RingBuffer.append ring_3_1_full (NdArray [1 # 10]))) [1 # 10]).
  - exact (reach_append _ (NdArray [q 3])
             (reach_append _ (NdArray [q 2])
                (reach_append ring_3_1 (NdArray [q 1]) (reach_init 3 1 ring_3_1 eq_refl)))).
  - repeat constructor; by vm_compute.
  - reflexivity.
Defined.

Section RingRejected.

Import RingBuffer.

Lemma rejected_state rb a :
  ring_wf rb -> 0 < maxlen rb -> np_broadcast (shape rb) a = inl ValueError ->
  append rb (NdArray a) =
    (mk (maxlen rb)
        (if length rb <? maxlen rb then start rb else (start rb + 1) mod maxlen rb)
        (if length rb <? maxlen rb then length rb + 1 else length rb)
        (shape rb) (data rb), Some ValueError).
Proof. intros Hwf Hc Hb. rewrite (append_cursor_state rb a Hwf Hc). by rewrite Hb. Qed.

End RingRejected.

(** X3. An array the ring cannot store is rejected with [ValueError]
    after the cursor has moved: the storage is untouched, but below
    capacity [length] has grown by one, so the ring now answers the new
    last index with whatever the slot held, and at capacity [start] has
    advanced, so the rows move down by one index and the oldest row is
    read again as the newest. *)
Theorem append_rejected_value_moves_cursor (rb : RingBuffer.t) (a : row) :
  reachable rb -> 0 < RingBuffer.maxlen rb ->
  np_broadcast (RingBuffer.shape rb) a = inl ValueError ->
  let rb' := fst (RingBuffer.append rb (NdArray a)) in
  snd (RingBuffer.append rb (NdArray a)) = Some ValueError /\
  RingBuffer.data rb' = RingBuffer.data rb /\
  (RingBuffer.length rb < RingBuffer.maxlen rb ->
     RingBuffer.length rb' = RingBuffer.length rb + 1 /\
     RingBuffer.start rb' = RingBuffer.start rb /\
     RingBuffer.__getitem__ rb (RingBuffer.length rb) = inl KeyError /\
     RingBuffer.__getitem__ rb' (RingBuffer.length rb)
     = inr (slot_row rb (RingBuffer.length rb))) /\
  (RingBuffer.length rb = RingBuffer.maxlen rb ->
     RingBuffer.length rb' = RingBuffer.length rb /\
     RingBuffer.start rb' = (RingBuffer.start rb + 1) mod RingBuffer.maxlen rb /\
     (forall i, 0 <= i < RingBuffer.length rb - 1 ->
        RingBuffer.__getitem__ rb' i = RingBuffer.__getitem__ rb (i + 1)) /\
     RingBuffer.__getitem__ rb' (RingBuffer.length rb - 1) = RingBuffer.__getitem__ rb 0).
Proof.
  intros Hr Hc Hb rb'. pose proof (reachable_wf rb Hr) as Hwf.
  pose proof (reachable_wf _ (reach_append rb (NdArray a) Hr)) as Hwf'.
  subst rb'. rewrite (rejected_state rb a Hwf Hc Hb) in *. simpl in *.
  destruct Hwf as [Hl Hd].
  split; [done|]. split; [done|]. split.
  - intros Hlt. destruct (Z.ltb_spec (RingBuffer.length rb) (RingBuffer.maxlen rb)); [|lia].
    split; [done|]. split; [done|]. split.
    + apply getitem_out_of_range. lia.
    + rewrite getitem_slot_row; [done|done|simpl; lia].
  - intros Heq. destruct (Z.ltb_spec (RingBuffer.length rb) (RingBuffer.maxlen rb)); [lia|].
    split; [done|]. split; [done|]. split.
    + intros i Hi. rewrite !getitem_slot_row; try done; simpl; try lia. f_equal.
      unfold slot_row. simpl. rewrite Zplus_mod_idemp_l.
      by replace (RingBuffer.start rb + 1 + i) with (RingBuffer.start rb + (i + 1)) by lia.
    + rewrite !getitem_slot_row; try done; simpl; try lia. f_equal.
      unfold slot_row. simpl. rewrite Zplus_mod_idemp_l.
      replace (RingBuffer.start rb + 1 + (RingBuffer.length rb - 1))
        with (RingBuffer.start rb + 0 + 1 * RingBuffer.maxlen rb) by lia.
      by rewrite Z_mod_plus_full.
Qed.

Lemma append_rejected_value_moves_cursor_witness :
  let rb' := fst (RingBuffer.append ring_3_1_one (NdArray [q 1; q 2])) in
  snd (RingBuffer.append ring_3_1_one (NdArray [q 1; q 2])) = Some ValueError /\
  RingBuffer.data rb' = RingBuffer.data ring_3_1_one /\
  (RingBuffer.length ring_3_1_one < RingBuffer.maxlen ring_3_1_one ->
     RingBuffer.length rb' = RingBuffer.length ring_3_1_one + 1 /\
     RingBuffer.start rb' = RingBuffer.start ring_3_1_one /\
     RingBuffer.__getitem__ ring_3_1_one (RingBuffer.length ring_3_1_one) = inl KeyError /\
     RingBuffer.__getitem__ rb' (RingBuffer.length ring_3_1_one)
     = inr (slot_row ring_3_1_one (RingBuffer.length ring_3_1_one))) /\
  (RingBuffer.length ring_3_1_one = RingBuffer.maxlen ring_3_1_one ->
     RingBuffer.length rb' = RingBuffer.length ring_3_1_one /\
     RingBuffer.start rb' = (RingBuffer.start ring_3_1_one + 1) mod RingBuffer.maxlen ring_3_1_one /\
     (forall i, 0 <= i < RingBuffer.length ring_3_1_one - 1 ->
        RingBuffer.__getitem__ rb' i = RingBuffer.__getitem__ ring_3_1_one (i + 1)) /\
     RingBuffer.__getitem__ rb' (RingBuffer.length ring_3_1_one - 1)
     = RingBuffer.__getitem__ ring_3_1_one 0).
Proof.
  apply (append_rejected_value_moves_cursor ring_3_1_one [q 1; q 2]).
  - exact (reach_append ring_3_1 (NdArray [q 5]) (reach_init 3 1 ring_3_1 eq_refl)).
  - reflexivity.
  - reflexivity.
Defined.

(** X4. A ring built with capacity 0 is accepted by the constructor and
    then refuses everything: it stays empty, every append of an array
    raises [ZeroDivisionError] and changes nothing, and every read raises
    [KeyError]. *)
Theorem zero_capacity_ring_rejects_every_append (rb : RingBuffer.t) (a : row) :
  reachable rb -> RingBuffer.maxlen rb = 0 ->
  RingBuffer.length rb = 0 /\
  RingBuffer.append rb (NdArray a) = (rb, Some ZeroDivisionError) /\
  (forall idx, RingBuffer.__getitem__ rb idx = inl KeyError) /\
  (forall idxs, idxs <> [] -> RingBuffer.get_batch rb idxs = inl IndexError).
Proof.
  intros Hr Hm. destruct (reachable_wf rb Hr) as [Hl Hd].
  assert (Hlen : RingBuffer.length rb = 0) by lia.
  split; [done|]. split; [|split].
  - unfold RingBuffer.append. rewrite Hlen, Hm. done.
  - intros idx. apply getitem_out_of_range. lia.
  - intros [|i idxs] Hne; [done|]. unfold RingBuffer.get_batch. simpl.
    unfold np_getitem, np_index. rewrite Hd, Hm. unfold np_mod. simpl. done.
Qed.

Lemma zero_capacity_ring_rejects_every_append_witness :
  RingBuffer.length ring_0_2 = 0 /\
  RingBuffer.append ring_0_2 (NdArray [q 1; q 2]) = (ring_0_2, Some ZeroDivisionError) /\
  (forall idx, RingBuffer.__getitem__ ring_0_2 idx = inl KeyError) /\
  (forall idxs, idxs <> [] -> RingBuffer.get_batch ring_0_2 idxs = inl IndexError).
Proof.
  apply (zero_capacity_ring_rejects_every_append ring_0_2 [q 1; q 2]).
  - exact (reach_init 0 2 ring_0_2 eq_refl).
  - reflexivity.
Defined.

(** ** The store *)

Section StoreMore.

Import ReplayBuffer.

Lemma append_success_row c w hist rb a rb' :
  0 < c -> models c w hist rb -> RingBuffer.append rb (NdArray a) = (rb', None) ->
  exists r, np_broadcast w a = inr r /\ models c w (hist ++ [float32_row r]) rb'.
Proof.
  intros Hc Hmod Happ. destruct (np_broadcast w a) as [e|r] eqn:Hb.
  - pose proof (models_wf c w hist rb ltac:(lia) Hmod) as Hwf.
    destruct Hmod as (Hm & Hw & _).
    rewrite (append_cursor_state rb a Hwf ltac:(lia)), Hw, Hb in Happ. done.
  - destruct (append_models c w hist rb a r Hc Hmod Hb) as (rb2 & Happ2 & Hmod2).
    exists r. split; [done|]. rewrite Happ in Happ2. by injection Happ2 as <-.
Qed.

Lemma stored_row_fits w (t : pydict) (k : string) a r :
  t !! k = Some (NdArray a) -> np_broadcast w a = inr r ->
  stored_row w (t !! k) = float32_row r.
Proof. intros Ht Hb. unfold stored_row. by rewrite Ht, Hb. Qed.

Lemma store_holds_init c shapes s :
  0 <= c -> __init__ c shapes = inr s -> store_holds c [] shapes (ring_buffers s).
Proof.
  intros Hc [_ Hall]%init_store. unfold store_holds.
  eapply Forall2_impl; [exact Hall|].
  intros [k w] [k' rb] [Hk Hi]. split; [done|]. split; [|constructor].
  by apply init_models.
Qed.

Lemma store_holds_append_loop c ts shapes rbs transition rbs' :
  0 < c -> store_holds c ts shapes rbs ->
  append_loop rbs transition = (rbs', None) ->
  store_holds c (ts ++ [transition]) shapes rbs'.
Proof.
  intros Hc Hst Hloop%append_loop_success. unfold store_holds in *.
  revert rbs' Hloop. induction Hst as [|ns kr shapes rbs (Hk & Hmod & Hfit) _ IH];
    intros rbs' Hloop; inversion Hloop as [|? kr' ? rest' (Hk' & a & Ht & Happ) Hrest]; subst.
  - constructor.
  - constructor; [|by apply IH].
    destruct (append_success_row c ns.2 _ kr.2 a kr'.2 Hc Hmod Happ) as (r & Hb & Hmod').
    rewrite Hk in Ht. split; [congruence|]. split.
    + unfold field_history. rewrite fmap_app. simpl.
      by rewrite (stored_row_fits ns.2 transition ns.1 a r).
    + apply Forall_app. split; [done|]. constructor; [|constructor]. by exists a, r.
Qed.

Lemma store_holds_appends c pre shapes self ts self' :
  0 < c -> store_holds c pre shapes (ring_buffers self) ->
  appends self ts = (self', None) ->
  store_holds c (pre ++ ts) shapes (ring_buffers self').
Proof.
  intros Hc. revert self pre. induction ts as [|tr ts IH]; intros self pre Hst; simpl.
  - intros [= <-]. by rewrite app_nil_r.
  - destruct (append self tr) as [self1 [e|]] eqn:Happ; [done|].
    intros Hrest. apply append_success in Happ as [_ Hloop].
    replace (pre ++ tr :: ts) with ((pre ++ [tr]) ++ ts) by by rewrite <- app_assoc.
    apply (IH self1); [|done]. by eapply store_holds_append_loop.
Qed.

Lemma built_store_holds c shapes ts s :
  0 < c -> built c shapes ts s -> store_holds c ts shapes (ring_buffers s).
Proof.
  intros Hc (s0 & Hinit & Happ).
  apply (store_holds_appends c [] shapes s0 ts s Hc); [|done].
  apply store_holds_init; [lia|done].
Qed.

Lemma store_holds_get c ts shapes rbs k w :
  store_holds c ts shapes rbs -> dict_get shapes k = inr w ->
  exists rb, dict_get rbs k = inr rb /\ models c w (field_history ts k w) rb /\
             Forall (fun t => fits t (k, w)) ts.
Proof.
  induction 1 as [|[k0 w0] [k1 rb1] shapes rbs (Hk & Hmod & Hfit) _ IH]; [done|].
  simpl in *. subst k1. destruct (String.eqb_spec k0 k) as [->|Hne].
  - intros [= <-]. by exists rb1.
  - apply IH.
Qed.

Lemma field_history_len ts k w : len (field_history ts k w) = len ts.
Proof. unfold len, field_history. by rewrite length_fmap. Qed.

(** The keys of the rings are those of the schema, in its order. *)
Lemma built_keys c shapes ts s : built c shapes ts s -> (ring_buffers s).*1 = shapes.*1.
Proof.
  intros (s0 & Hinit & Happ).
  assert (H0 : (ring_buffers s0).*1 = shapes.*1).
  { apply init_store in Hinit as [_ Hall].
    induction Hall as [|ns kr ? ? [Hk _] _ IH]; [done|]. rewrite !fmap_cons. by f_equal. }
  rewrite <- H0. clear Hinit H0. revert s0 Happ.
  induction ts as [|tr ts IH]; intros s0; simpl.
  - by intros [= <-].
  - destruct (append s0 tr) as [s1 [e|]] eqn:Happ; [done|].
    intros Hrest. rewrite (IH s1 Hrest).
    apply append_success in Happ as [_ Hloop%append_loop_success].
    induction Hloop as [|kr kr' ? ? [Hk _] _ IHl]; [done|]. rewrite !fmap_cons. by f_equal.
Qed.

Lemma dict_get_notin {V} (d : list (string * V)) k :
  k ∉ d.*1 -> dict_get d k = inl KeyError.
Proof.
  induction d as [|[k0 v] d IH]; [done|]. rewrite fmap_cons, not_elem_of_cons.
  intros [Hne Hk]. simpl in *. destruct (String.eqb_spec k0 k); [congruence|]. by apply IH.
Qed.

Lemma dict_get_in {V} (d : list (string * V)) k :
  k ∈ d.*1 -> exists v, dict_get d k = inr v /\ (k, v) ∈ d.
Proof.
  induction d as [|[k0 v] d IH]; [by intros ?%elem_of_nil|].
  rewrite fmap_cons, elem_of_cons. intros Hk. simpl in *.
  destruct (String.eqb_spec k0 k) as [->|Hne].
  - exists v. split; [done|]. apply list_elem_of_here.
  - destruct Hk as [->|Hk]; [done|]. destruct (IH Hk) as (v' & Hv & Hin).
    exists v'. split; [done|]. by apply list_elem_of_further.
Qed.

Lemma dict_get_exn {V} (d : list (string * V)) k e :
  dict_get d k = inl e -> e = KeyError /\ k ∉ d.*1.
Proof.
  induction d as [|[k0 v] d IH]; simpl.
  - intros [= <-]. split; [done|]. apply not_elem_of_nil.
  - destruct (String.eqb_spec k0 k) as [->|Hne]; [done|]. intros [-> Hk]%IH.
    split; [done|]. apply not_elem_of_cons. split; [congruence|done].
Qed.

Lemma append_loop_exn rbs transition rbs' e :
  append_loop rbs transition = (rbs', Some e) ->
  exists k rb, (k, rb) ∈ rbs /\
    ((transition !! k = None /\ e = KeyError) \/
     (transition !! k = Some NotArray /\ e = TypeError k) \/
     exists a, transition !! k = Some (NdArray a) /\
               snd (RingBuffer.append rb (NdArray a)) = Some e).
Proof.
  revert rbs'. induction rbs as [|[k rb] rest IH]; intros rbs'; simpl; [done|].
  destruct (transition !! k) as [[a|]|] eqn:Hk.
  - destruct (RingBuffer.append rb (NdArray a)) as [rb1 [e1|]] eqn:Happ.
    + intros [= <- <-]. exists k, rb. split; [apply list_elem_of_here|].
      right. right. exists a. by rewrite Happ.
    + destruct (append_loop rest transition) as [rest' e'] eqn:Hrest. simpl.
      intros [= <- ->]. destruct (IH rest' eq_refl) as (k2 & rb2 & Hin & Hcase).
      exists k2, rb2. split; [by apply list_elem_of_further|done].
  - intros [= <- <-]. exists k, rb. split; [apply list_elem_of_here|]. auto.
  - intros [= <- <-]. exists k, rb. split; [apply list_elem_of_here|]. auto.
Qed.

Lemma append_loop_fits c n shapes rbs transition :
  0 < c -> store_models c n shapes rbs -> Forall (fits transition) shapes ->
  exists rbs', append_loop rbs transition = (rbs', None).
Proof.
  intros Hc Hst. induction Hst as [|[k w] [k' rb] shapes rbs (Hk & hist & _ & Hmod) _ IH];
    intros Hfit; [by eexists|].
  inversion Hfit as [|? ? (a & r & Ht & Hb) Hrest]; subst. simpl in *. subst k'.
  destruct (append_models c w hist rb a r Hc Hmod Hb) as (rb1 & Happ & _).
  destruct (IH Hrest) as (rest' & Hloop). rewrite Ht, Happ, Hloop. by eexists.
Qed.

End StoreMore.

(** X5. What a store hands back is what it was given, cast to the
    [float32] of the storage, field by field and transition by
    transition: after the transitions [ts], logical index [idx] of every
    field reads the cast of the array that the transition at position
    [len ts - num_entries + idx] holds for that field (broadcast to the
    field's width when it has a single scalar), so the rows of one logical
    index all belong to one transition. *)
Theorem store_round_trip (c : Z) (shapes : list (string * nat))
    (ts : list pydict) (s : ReplayBuffer.t) (k : string) (w : nat) (idx : Z) :
  0 < c -> built c shapes ts s -> Forall finite_values ts ->
  dict_get shapes k = inr w ->
  0 <= idx < Z.min (len ts) c ->
  exists t a r,
    ts !! Z.to_nat (len ts - Z.min (len ts) c + idx) = Some t /\
    t !! k = Some (NdArray a) /\
    np_broadcast w a = inr r /\
    (List.length a = w -> r = a) /\
    RingBuffer.length (ring_of s k) = Z.min (len ts) c /\
    RingBuffer.__getitem__ (ring_of s k) idx = inr (float32_row r).
Proof.
  intros Hc Hb _ Hk Hidx.
  destruct (store_holds_get c ts shapes _ k w (built_store_holds c shapes ts s Hc Hb) Hk)
    as (rb & Hget & Hmod & Hfit).
  rewrite (ring_of_get s k rb Hget).
  assert (Hlen : RingBuffer.length rb = Z.min (len ts) c).
  { destruct Hmod as (_ & _ & _ & _ & -> & _). by rewrite field_history_len. }
  destruct (getitem_models c w _ rb idx Hc Hmod) as (r0 & Hr0 & Hread); [lia|].
  rewrite field_history_len, Hlen in Hr0. unfold field_history in Hr0.
  rewrite list_lookup_fmap in Hr0.
  destruct (ts !! Z.to_nat (len ts - Z.min (len ts) c + idx)) as [t|] eqn:Ht; [|done].
  injection Hr0 as <-. rewrite Forall_forall in Hfit.
  destruct (Hfit t) as (a & r & Ha & Hbr); [by eapply list_elem_of_lookup_2|].
  simpl in *. exists t, a, r. rewrite (stored_row_fits w t k a r Ha Hbr) in Hread.
  repeat split; try done. intros Hw. rewrite broadcast_same in Hbr by done. congruence.
Qed.

Lemma finite_four_transitions : Forall finite_values four_transitions.
Proof. repeat (constructor; simpl); by vm_compute. Defined.

Lemma store_round_trip_witness :
  exists t a r,
    four_transitions !! Z.to_nat (len four_transitions - Z.min (len four_transitions) 3 + 0)
    = Some t /\
    t !! "obs1" = Some (NdArray a) /\
    np_broadcast 2 a = inr r /\
    (List.length a = 2%nat -> r = a) /\
    RingBuffer.length (ring_of store_3_4 "obs1") = Z.min (len four_transitions) 3 /\
    RingBuffer.__getitem__ (ring_of store_3_4 "obs1") 0 = inr (float32_row r).
Proof.
  apply (store_round_trip 3 shapes5 four_transitions store_3_4 "obs1" 2 0).
  - lia.
  - exact built_store_3_4.
  - exact finite_four_transitions.
  - reflexivity.
  - unfold four_transitions, len. simpl. lia.
Defined.

Section AppendChecks.

(** A dict with the keys of the schema and an array for every field
    passes the check of the decorator. *)
Lemma fits_beartype shapes (t : pydict) :
  list_to_set shapes.*1 = (dom t : gset string) -> Forall (fits t) shapes ->
  beartype_dict_ndarray t = true.
Proof.
  intros Hdom Hfit. destruct t as [|[k0 [a|]] rest]; [done|done|]. exfalso.
  assert (Hk : k0 ∈ shapes.*1).
  { apply (elem_of_list_to_set (C:=gset string)). rewrite Hdom.
    apply pydict_elem_of_dom. exists NotArray.
    unfold lookup, pydict_lookup. simpl. by rewrite String.eqb_refl. }
  apply list_elem_of_fmap in Hk as ([k w] & -> & Hin).
  rewrite Forall_forall in Hfit. destruct (Hfit _ Hin) as (a & r & Ha & _).
  revert Ha. unfold lookup, pydict_lookup. simpl. by rewrite String.eqb_refl.
Qed.

End AppendChecks.

(** X6. On a built store of positive capacity [append] returns exactly
    when the transition has the keys of the schema and holds, for every
    field, an array the ring of the field can store.  Otherwise it raises
    [BeartypeCallHintParamViolation] (the first value of the dict is no
    array), [AssertionError] (the keys), [TypeError] naming a field whose
    value is no array, or [ValueError] (a shape that does not fit), and
    nothing else. *)
Theorem store_append_succeeds_iff (c : Z) (shapes : list (string * nat))
    (ts : list pydict) (s : ReplayBuffer.t) (t : pydict) :
  0 < c -> built c shapes ts s ->
  (snd (ReplayBuffer.append s t) = None <->
   list_to_set shapes.*1 = (dom t : gset string) /\ Forall (fits t) shapes) /\
  (forall e, snd (ReplayBuffer.append s t) = Some e ->
     (e = BeartypeCallHintParamViolation /\ beartype_dict_ndarray t = false) \/
     (e = AssertionError /\ beartype_dict_ndarray t = true /\
      list_to_set shapes.*1 <> (dom t : gset string)) \/
     (e = ValueError /\ beartype_dict_ndarray t = true) \/
     exists k, k ∈ shapes.*1 /\ t !! k = Some NotArray /\ e = TypeError k /\
               beartype_dict_ndarray t = true).
Proof.
  intros Hc Hb. pose proof (built_store_models c shapes ts s Hc Hb) as Hst.
  pose proof (built_keys c shapes ts s Hb) as Hkeys.
  unfold ReplayBuffer.append. rewrite Hkeys.
  destruct (beartype_dict_ndarray t) eqn:Hbt.
  - case_decide as Hdom; simpl.
    + split.
      * split.
        -- intros Hnone.
           destruct (ReplayBuffer.append_loop (ReplayBuffer.ring_buffers s) t)
             as [rbs' e] eqn:Hloop.
           simpl in Hnone. subst e. split; [done|].
           pose proof (store_holds_append_loop c ts shapes _ t rbs' Hc
                         (built_store_holds c shapes ts s Hc Hb) Hloop) as Hh.
           clear -Hh. induction Hh as [|ns kr ? ? (_ & _ & Hfit) _ IH]; constructor; [|done].
           apply Forall_app in Hfit as [_ Hlast]. by inversion Hlast.
        -- intros [_ Hfit].
           by destruct (append_loop_fits c _ shapes _ t Hc Hst Hfit) as (rbs' & ->).
      * intros e He.
        destruct (ReplayBuffer.append_loop (ReplayBuffer.ring_buffers s) t)
          as [rbs' e'] eqn:Hloop.
        simpl in He. subst e'.
        destruct (append_loop_exn _ _ _ _ Hloop) as (k & rb & Hin & Hcase).
        assert (Hk : k ∈ shapes.*1).
        { rewrite <- Hkeys. apply list_elem_of_fmap. by exists (k, rb). }
        destruct Hcase as [[Hnone _]|[[Hna ->]|(a & Ha & Hexn)]].
        -- exfalso. assert (Hd : k ∈ (dom t : gset string)).
           { rewrite <- Hdom. by apply elem_of_list_to_set. }
           apply pydict_elem_of_dom in Hd as [v Hv]. congruence.
        -- do 3 right. by exists k.
        -- right. right. left. split; [|done].
           pose proof (store_models_ring_ok c _ shapes _ Hc Hst) as Hok.
           rewrite Forall_forall in Hok. destruct (Hok _ Hin) as [Hwf Hpos]. simpl in *.
           rewrite (append_cursor_state rb a Hwf Hpos) in Hexn.
           destruct (np_broadcast (RingBuffer.shape rb) a) as [e0|r] eqn:Hbr; [|done].
           simpl in Hexn. injection Hexn as <-. by apply broadcast_exn in Hbr.
    + split; [split; [done|by intros [? _]]|]. intros e [= <-]. right. by left.
  - simpl. split.
    + split; [done|]. intros [Hdom Hfit].
      by rewrite (fits_beartype shapes t Hdom Hfit) in Hbt.
    + intros e [= <-]. by left.
Qed.

Lemma store_append_succeeds_iff_witness :
  (snd (ReplayBuffer.append store_3_4 transition_bad_first) = None <->
   list_to_set shapes5.*1 = (dom transition_bad_first : gset string) /\
   Forall (fits transition_bad_first) shapes5) /\
  (forall e, snd (ReplayBuffer.append store_3_4 transition_bad_first) = Some e ->
     (e = BeartypeCallHintParamViolation /\ beartype_dict_ndarray transition_bad_first = false) \/
     (e = AssertionError /\ beartype_dict_ndarray transition_bad_first = true /\
      list_to_set shapes5.*1 <> (dom transition_bad_first : gset string)) \/
     (e = ValueError /\ beartype_dict_ndarray transition_bad_first = true) \/
     exists k, k ∈ shapes5.*1 /\ transition_bad_first !! k = Some NotArray /\ e = TypeError k /\
               beartype_dict_ndarray transition_bad_first = true).
Proof.
  apply (store_append_succeeds_iff 3 shapes5 four_transitions store_3_4 transition_bad_first).
  - lia.
  - exact built_store_3_4.
Defined.

(** X8. The store reads its size and its cursor from the field "obs0":
    on a store whose schema has no such field, [num_entries] and
    [latest_entry_idx] raise [KeyError], and so do [sample], before it
    asks the generator anything, and every pass of [lookahead]. *)
Theorem store_without_obs0_raises_key_error (c : Z) (shapes : list (string * nat))
    (ts : list pydict) (s : ReplayBuffer.t) :
  built c shapes ts s -> "obs0" ∉ shapes.*1 ->
  ReplayBuffer.num_entries s = inl KeyError /\
  ReplayBuffer.latest_entry_idx s = inl KeyError /\
  (forall (G : Type) (integers : G -> Z -> Z -> Z -> res (list Z) * G) g batch_size patcher,
     ReplayBuffer.sample integers s g batch_size patcher = (inl KeyError, g)) /\
  (forall idx n gamma patcher,
     ReplayBuffer.lookahead_step s idx n gamma patcher = inl KeyError).
Proof.
  intros Hb Hno. pose proof (built_keys c shapes ts s Hb) as Hkeys.
  rewrite <- Hkeys in Hno. pose proof (dict_get_notin _ _ Hno) as Hget.
  unfold ReplayBuffer.sample, ReplayBuffer.num_entries, ReplayBuffer.latest_entry_idx,
    ReplayBuffer.lookahead_step, ReplayBuffer.num_entries. by rewrite Hget.
Qed.

Lemma store_without_obs0_raises_key_error_witness :
  ReplayBuffer.num_entries store_no_obs0 = inl KeyError /\
  ReplayBuffer.latest_entry_idx store_no_obs0 = inl KeyError /\
  (forall (G : Type) (integers : G -> Z -> Z -> Z -> res (list Z) * G) g batch_size patcher,
     ReplayBuffer.sample integers store_no_obs0 g batch_size patcher = (inl KeyError, g)) /\
  (forall idx n gamma patcher,
     ReplayBuffer.lookahead_step store_no_obs0 idx n gamma patcher = inl KeyError).
Proof.
  apply (store_without_obs0_raises_key_error 3 shapes_no_obs0 [transition_no_obs0]
           store_no_obs0).
  - eexists. split; [reflexivity|]. vm_compute. reflexivity.
  - unfold shapes_no_obs0. simpl. intros H.
    repeat (apply elem_of_cons in H as [H|H]; [discriminate H|]).
    by apply elem_of_nil in H.
Defined.

(** X9. On a store that holds nothing yet, [latest_entry_idx] does not
    raise: it returns [capacity - 1], the last slot of the storage, which
    was never written. *)
Theorem latest_entry_idx_of_empty_store (c : Z) (shapes : list (string * nat))
    (s : ReplayBuffer.t) (w : nat) :
  0 < c -> built c shapes [] s -> dict_get shapes "obs0" = inr w ->
  ReplayBuffer.num_entries s = inr 0 /\
  ReplayBuffer.latest_entry_idx s = inr (c - 1) /\
  RingBuffer.__getitem__ (ring_of s "obs0") (c - 1) = inl KeyError.
Proof.
  intros Hc Hb Hobs.
  destruct (store_models_get c (len []) shapes _ "obs0" w
              (built_store_models c shapes [] s Hc Hb) Hobs) as (rb & hist & Hget & Hlen & Hmod).
  destruct Hmod as (Hm & _ & _ & _ & Hl & Hs & _).
  assert (Hl0 : RingBuffer.length rb = 0) by (rewrite Hl, Hlen; unfold len; simpl; lia).
  unfold ReplayBuffer.num_entries, ReplayBuffer.latest_entry_idx.
  rewrite (ring_of_get s "obs0" rb Hget), Hget. simpl.
  split; [by rewrite <- Hl0|]. split.
  - unfold py_mod. rewrite Hm. destruct (Z.eqb_spec c 0); [lia|]. simpl. f_equal.
    rewrite Hs, Hl0, Hlen. unfold len. simpl. rewrite Zmod_0_l.
    replace (0 + 0 - 1) with (c - 1 + (-1) * c) by lia.
    rewrite Z_mod_plus_full. apply Z.mod_small. lia.
  - apply getitem_out_of_range. lia.
Qed.

Lemma latest_entry_idx_of_empty_store_witness :
  ReplayBuffer.num_entries store_fresh = inr 0 /\
  ReplayBuffer.latest_entry_idx store_fresh = inr (3 - 1) /\
  RingBuffer.__getitem__ (ring_of store_fresh "obs0") (3 - 1) = inl KeyError.
Proof.
  apply (latest_entry_idx_of_empty_store 3 shapes2 store_fresh 2).
  - lia.
  - by eexists.
  - reflexivity.
Defined.

(** ** Batches and sampling *)

Section BatchFacts.

Import ReplayBuffer.

Lemma built_rings_ok c shapes ts s :
  0 < c -> built c shapes ts s -> Forall ring_ok (ring_buffers s).
Proof. intros Hc Hb. eapply store_models_ring_ok; [done|]. by apply built_store_models. Qed.

Lemma built_field c shapes ts s k w :
  0 < c -> built c shapes ts s -> dict_get shapes k = inr w ->
  dict_get (ring_buffers s) k = inr (ring_of s k) /\
  ring_wf (ring_of s k) /\
  RingBuffer.maxlen (ring_of s k) = c /\
  RingBuffer.length (ring_of s k) = Z.min (len ts) c.
Proof.
  intros Hc Hb Hk.
  destruct (store_models_get c (len ts) shapes _ k w (built_store_models c shapes ts s Hc Hb) Hk)
    as (rb & hist & Hget & Hlen & Hmod).
  rewrite (ring_of_get s k rb Hget). split; [done|].
  split; [apply (models_wf c w hist); [lia|done]|].
  destruct Hmod as (Hm & _ & _ & _ & Hl & _). split; [done|]. by rewrite Hl, Hlen.
Qed.

(** The columns of a batch over a built store. *)
Lemma built_batch_cols c shapes ts s l k :
  0 < c -> built c shapes ts s -> NoDup shapes.*1 ->
  delete "idxs" (batch_cols (ring_buffers s) l ∅) !! k =
    if decide (k = "idxs") then None
    else match dict_get shapes k with
         | inr _ => Some (gather (ring_of s k) l)
         | inl _ => None
         end.
Proof.
  intros Hc Hb Hnd. case_decide as Hk; [subst; apply lookup_delete_eq|].
  rewrite lookup_delete_ne by done.
  destruct (dict_get shapes k) as [e|w] eqn:Hget.
  - apply dict_get_exn in Hget as [_ Hno].
    rewrite batch_cols_notin; [done|]. by rewrite (built_keys c shapes ts s Hb).
  - destruct (built_field c shapes ts s k w Hc Hb Hget) as (Hring & _).
    apply batch_cols_in; [|done]. by rewrite (built_keys c shapes ts s Hb).
Qed.

Lemma gather_getitem rb l (j : nat) idx :
  ring_wf rb -> l !! j = Some idx -> 0 <= idx < RingBuffer.length rb ->
  exists r, gather rb l !! j = Some r /\ RingBuffer.__getitem__ rb idx = inr r.
Proof.
  intros Hwf Hj Hidx. exists (slot_row rb idx). split.
  - unfold gather. by rewrite list_lookup_fmap, Hj.
  - by apply getitem_slot_row.
Qed.

End BatchFacts.

(** X10. On a built store [batchify] returns for any [int64] indices
    whose sum with the start of the rings does not wrap,
    [-2^63 <= idx < 2^63 - capacity]: the batch has one column per field
    of the schema (a field called "idxs" gives way to the index array),
    every column has one row per index, and row [j] of every column is
    what [__getitem__] of that field reads at the [j]-th index, when that
    index is inside [0, num_entries): the columns are aligned.  For the
    empty float array of an empty range it raises [IndexError] as soon as
    the schema has a field. *)
Theorem batchify_gathers_every_field (c : Z) (shapes : list (string * nat))
    (ts : list pydict) (s : ReplayBuffer.t) (l : list Z) :
  0 < c -> built c shapes ts s -> NoDup shapes.*1 ->
  Forall (fun i => - 2 ^ 63 <= i < 2 ^ 63 - c) l ->
  (exists b,
     ReplayBuffer.batchify s (IntArray l) = inr b /\
     idxs b = IntArray l /\
     (forall k, cols b !! k =
        if decide (k = "idxs") then None
        else match dict_get shapes k with
             | inr _ => Some (gather (ring_of s k) l)
             | inl _ => None
             end) /\
     (forall k w, dict_get shapes k = inr w -> len (gather (ring_of s k) l) = len l) /\
     (forall k w (j : nat) idx,
        dict_get shapes k = inr w -> l !! j = Some idx -> 0 <= idx < Z.min (len ts) c ->
        exists r, gather (ring_of s k) l !! j = Some r /\
                  RingBuffer.__getitem__ (ring_of s k) idx = inr r)) /\
  (shapes <> [] -> ReplayBuffer.batchify s EmptyFloatArray = inl IndexError).
Proof.
  intros Hc Hb Hnd Hl. split.
  - eexists. split.
    { apply batchify_cols; [by eapply built_rings_ok|].
      apply (store_models_no_wrap c (len ts) shapes); [done| |done].
      by apply built_store_models. }
    simpl.
    split; [done|]. split; [|split].
    + intros k. by eapply built_batch_cols.
    + intros k w _. apply gather_len.
    + intros k w j idx Hk Hj Hidx.
      destruct (built_field c shapes ts s k w Hc Hb Hk) as (_ & Hwf & _ & Hlen).
      apply gather_getitem; [done|done|]. by rewrite Hlen.
  - intros Hne. pose proof (built_keys c shapes ts s Hb) as Hkeys.
    unfold ReplayBuffer.batchify.
    destruct (ReplayBuffer.ring_buffers s) as [|[k rb] rest]; [|done].
    destruct shapes; done.
Qed.

Lemma nodup_shapes5 : NoDup shapes5.*1.
Proof. apply (bool_decide_unpack _). by vm_compute. Defined.

Lemma batchify_gathers_every_field_witness :
  (exists b,
     ReplayBuffer.batchify store_3_4 (IntArray [2; 0]) = inr b /\
     idxs b = IntArray [2; 0] /\
     (forall k, cols b !! k =
        if decide (k = "idxs") then None
        else match dict_get shapes5 k with
             | inr _ => Some (gather (ring_of store_3_4 k) [2; 0])
             | inl _ => None
             end) /\
     (forall k w, dict_get shapes5 k = inr w ->
        len (gather (ring_of store_3_4 k) [2; 0]) = len [2; 0]) /\
     (forall k w (j : nat) idx,
        dict_get shapes5 k = inr w -> [2; 0] !! j = Some idx ->
        0 <= idx < Z.min (len four_transitions) 3 ->
        exists r, gather (ring_of store_3_4 k) [2; 0] !! j = Some r /\
                  RingBuffer.__getitem__ (ring_of store_3_4 k) idx = inr r)) /\
  (shapes5 <> [] -> ReplayBuffer.batchify store_3_4 EmptyFloatArray = inl IndexError).
Proof.
  apply (batchify_gathers_every_field 3 shapes5 four_transitions store_3_4 [2; 0]).
  - lia.
  - exact built_store_3_4.
  - exact nodup_shapes5.
  - repeat constructor; lia.
Defined.

Lemma counter_integers_ok : integers_ok counter_integers.
Proof.
  intros g low high size. unfold counter_integers. repeat split.
  - by intros ->.
  - intros Hs Hlh. destruct (Z.eqb_spec size 0); [lia|].
    destruct (Z.ltb_spec size 0); [lia|]. destruct (Z.leb_spec high low); [lia|]. simpl.
    eexists. split; [done|]. split.
    + unfold len. rewrite length_fmap, length_seqZ. lia.
    + apply Forall_fmap, Forall_forall. intros k _. simpl.
      pose proof (Z.mod_pos_bound (g + k) (high - low)). lia.
  - intros Hs Hlh. destruct (Z.eqb_spec size 0); [lia|].
    destruct (Z.ltb_spec size 0); [done|]. by destruct (Z.leb_spec high low); [|lia].
  - intros Hs. destruct (Z.eqb_spec size 0); [lia|]. by destruct (Z.ltb_spec size 0); [|lia].
Defined.

Section SampleFacts.

Import ReplayBuffer.

Context {G : Type} (integers : G -> Z -> Z -> Z -> res (list Z) * G).
Variables (c : Z) (shapes : list (string * nat)) (ts : list pydict).
Variables (s : ReplayBuffer.t).

Hypothesis Hrng : integers_ok integers.
Hypothesis Hc : 0 < c.
Hypothesis Hb : built c shapes ts s.
Hypothesis Hsch : schema_ok shapes.

Lemma built_num_entries : num_entries s = inr (Z.min (len ts) c).
Proof.
  destruct Hsch as (_ & _ & Hall). rewrite Forall_forall in Hall.
  destruct (Hall "obs0") as [w Hw]; [by repeat constructor|].
  destruct (built_field c shapes ts s "obs0" w Hc Hb Hw) as (Hget & _ & _ & Hlen).
  unfold num_entries. rewrite Hget. simpl. unfold RingBuffer.__len__. by rewrite Hlen.
Qed.

(** What the generator answers is inside the interval it was given. *)
Lemma draw_in_range g g' batch_size l :
  integers g 0 (Z.min (len ts) c) batch_size = (inr l, g') ->
  Forall (fun i => 0 <= i < Z.min (len ts) c) l.
Proof.
  intros Hdraw. destruct (Hrng g 0 (Z.min (len ts) c) batch_size) as (H0 & Hpos & Hempty & Hneg).
  rewrite Hdraw in H0, Hpos, Hempty, Hneg. simpl in *.
  destruct (Z.lt_trichotomy batch_size 0) as [Hlt|[->|Hgt]].
  - by specialize (Hneg Hlt).
  - specialize (H0 eq_refl). injection H0 as ->. constructor.
  - destruct (Z.lt_ge_cases 0 (Z.min (len ts) c)) as [Hne|He].
    + destruct (Hpos Hgt Hne) as (l' & [= <-] & _ & Hr). done.
    + by specialize (Hempty Hgt He).
Qed.

(** Indices inside [0, num_entries) are far from the end of [int64]. *)
Lemma range_no_wrap l :
  Forall (fun i => 0 <= i < Z.min (len ts) c) l -> Forall (no_wrap l) (ring_buffers s).
Proof.
  intros Hl. apply (store_models_no_wrap c (len ts) shapes); [done|by apply built_store_models|].
  assert (Hcap : 0 <= c < 2 ^ 61).
  { apply (built_capacity c shapes ts s Hb). destruct Hsch as (_ & Hd & _). by destruct shapes. }
  change (2 ^ 61) with 2305843009213693952 in Hcap.
  eapply Forall_impl; [exact Hl|]. intros i Hi. simpl in Hi.
  change (2 ^ 63) with 9223372036854775808. lia.
Qed.

(** What [sample] returns once the generator has answered with [l]. *)
Lemma sample_of_draw g g' batch_size patcher l :
  integers g 0 (Z.min (len ts) c) batch_size = (inr l, g') ->
  exists b,
    sample integers s g batch_size patcher = (inr b, g') /\
    idxs b = IntArray l /\
    (forall k w, dict_get shapes k = inr w -> k <> "idxs" -> k <> "rews" ->
                 cols b !! k = Some (gather (ring_of s k) l)) /\
    cols b !! "rews" =
      Some (match patcher with
            | None => gather (ring_of s "rews") l
            | Some f => f (gather (ring_of s "obs0") l) (gather (ring_of s "acs") l)
                          (gather (ring_of s "obs1") l)
            end).
Proof.
  intros Hdraw. pose proof Hsch as (Hnd & _ & Hall). rewrite Forall_forall in Hall.
  assert (Hcol : forall k, k ∈ ["obs0"; "acs"; "obs1"; "rews"] ->
            delete "idxs" (batch_cols (ring_buffers s) l ∅) !! k
            = Some (gather (ring_of s k) l)).
  { intros k Hk. destruct (Hall k Hk) as [w Hw].
    rewrite (built_batch_cols c shapes ts s l k Hc Hb Hnd), Hw.
    case_decide as Hi; [|done]. subst k. revert Hk. rewrite !elem_of_cons, elem_of_nil.
    by intros [|[|[|[|]]]]. }
  unfold sample. rewrite built_num_entries, Hdraw.
  rewrite (batchify_cols s l)
    by (by eapply built_rings_ok || by eapply range_no_wrap, draw_in_range).
  cbn [bind ret].
  destruct patcher as [f|]; simpl.
  - unfold batch_get. simpl.
    rewrite !Hcol by by repeat constructor. cbn [bind ret].
    eexists. split; [done|]. simpl. split; [done|]. split.
    + intros k w Hk Hi Hr. rewrite lookup_insert_ne by done.
      rewrite (built_batch_cols c shapes ts s l k Hc Hb Hnd), Hk. by case_decide.
    + by rewrite lookup_insert_eq.
  - eexists. split; [done|]. simpl. split; [done|]. split.
    + intros k w Hk Hi Hr.
      rewrite (built_batch_cols c shapes ts s l k Hc Hb Hnd), Hk. by case_decide.
    + apply Hcol. by repeat constructor.
Qed.

Lemma sample_exn g batch_size patcher e :
  (integers g 0 (Z.min (len ts) c) batch_size).1 = inl e ->
  (sample integers s g batch_size patcher).1 = inl e.
Proof.
  intros Hdraw. unfold sample. rewrite built_num_entries.
  by destruct (integers g 0 (Z.min (len ts) c) batch_size) as [[e'|l] g']; simplify_eq/=.
Qed.

End SampleFacts.

(** X11. [sample] on a built store.  From an empty store a non-empty
    batch cannot be drawn: the generator raises [ValueError]; so does a
    negative batch size.  Otherwise [sample] returns [batch_size] indices,
    all inside [0, num_entries), with one aligned column per field, the
    rewards being those of the patcher when there is one. *)
Theorem sample_draws_valid_batch {G : Type}
    (integers : G -> Z -> Z -> Z -> res (list Z) * G) (g : G)
    (c : Z) (shapes : list (string * nat)) (ts : list pydict)
    (s : ReplayBuffer.t) (batch_size : Z) (patcher : option patcher_t) :
  integers_ok integers -> 0 < c -> built c shapes ts s -> schema_ok shapes ->
  (len ts = 0 -> 0 < batch_size ->
     (ReplayBuffer.sample integers s g batch_size patcher).1 = inl ValueError) /\
  (batch_size < 0 ->
     (ReplayBuffer.sample integers s g batch_size patcher).1 = inl ValueError) /\
  (0 <= batch_size -> 0 < len ts \/ batch_size = 0 ->
     exists l b,
       (ReplayBuffer.sample integers s g batch_size patcher).1 = inr b /\
       idxs b = IntArray l /\ len l = batch_size /\
       Forall (fun i => 0 <= i < Z.min (len ts) c) l /\
       (forall k w, dict_get shapes k = inr w -> k <> "idxs" -> k <> "rews" ->
                    cols b !! k = Some (gather (ring_of s k) l)) /\
       cols b !! "rews" =
         Some (match patcher with
               | None => gather (ring_of s "rews") l
               | Some f => f (gather (ring_of s "obs0") l) (gather (ring_of s "acs") l)
                             (gather (ring_of s "obs1") l)
               end)).
Proof.
  intros Hrng Hc Hb Hsch.
  destruct (Hrng g 0 (Z.min (len ts) c) batch_size) as (H0 & Hpos & Hempty & Hneg).
  split; [|split].
  - intros Hts Hbs. apply (sample_exn integers c shapes ts s Hc Hb Hsch). apply Hempty; lia.
  - intros Hbs. apply (sample_exn integers c shapes ts s Hc Hb Hsch). by apply Hneg.
  - intros Hbs Hcase.
    assert (exists l, (integers g 0 (Z.min (len ts) c) batch_size).1 = inr l /\
                      len l = batch_size /\
                      Forall (fun i => 0 <= i < Z.min (len ts) c) l) as (l & Hl & Hlen & Hrange).
    { destruct (Z.eq_dec batch_size 0) as [->|Hne].
      - exists []. split; [by apply H0|]. split; [done|constructor].
      - apply Hpos; lia. }
    destruct (integers g 0 (Z.min (len ts) c) batch_size) as [d g'] eqn:Hdraw.
    simpl in Hl. subst d.
    destruct (sample_of_draw integers c shapes ts s Hrng Hc Hb Hsch g g' batch_size patcher l Hdraw)
      as (b & Hs & Hi & Hcols & Hrews).
    exists l, b. rewrite Hs. done.
Qed.

Lemma sample_draws_valid_batch_witness :
  (len four_transitions = 0 -> 0 < 2 ->
     (ReplayBuffer.sample counter_integers store_3_4 7 2 None).1 = inl ValueError) /\
  (2 < 0 ->
     (ReplayBuffer.sample counter_integers store_3_4 7 2 None).1 = inl ValueError) /\
  (0 <= 2 -> 0 < len four_transitions \/ 2 = 0 ->
     exists l b,
       (ReplayBuffer.sample counter_integers store_3_4 7 2 None).1 = inr b /\
       idxs b = IntArray l /\ len l = 2 /\
       Forall (fun i => 0 <= i < Z.min (len four_transitions) 3) l /\
       (forall k w, dict_get shapes5 k = inr w -> k <> "idxs" -> k <> "rews" ->
                    cols b !! k = Some (gather (ring_of store_3_4 k) l)) /\
       cols b !! "rews" = Some (gather (ring_of store_3_4 "rews") l)).
Proof.
  apply (sample_draws_valid_batch counter_integers 7 3 shapes5 four_transitions store_3_4 2 None).
  - exact counter_integers_ok.
  - lia.
  - exact built_store_3_4.
  - exact schema_ok_shapes5.
Defined.



Section WindowContents.

Import ReplayBuffer.

Variables (c : Z) (shapes : list (string * nat)) (ts : list pydict).
Variables (s : ReplayBuffer.t) (num idx n : Z) (patcher : option patcher_t).

Hypothesis Hc : 0 < c.
Hypothesis Hb : built c shapes ts s.
Hypothesis Hsch : schema_ok shapes.
Hypothesis Hp : patcher_ok patcher.
Hypothesis Hnum : num_entries s = inr num.
Hypothesis Hidx : 0 <= idx < num.
Hypothesis Hn : 1 <= n.

Local Abbreviation L := (window_len idx n num).
Local Abbreviation b0 :=
  (mk_batch (delete "idxs" (batch_cols (ring_buffers s) (seqZ idx L) ∅))
            (IntArray (seqZ idx L))).
Local Abbreviation b1 :=
  (match patcher with
   | None => b0
   | Some f => mk_batch (<["rews" := f (window_of s "obs0" idx n num)
                                       (window_of s "acs" idx n num)
                                       (window_of s "obs1" idx n num)]> (cols b0))
                        (idxs b0)
   end).

(** Row [i] of a column of the window is the row [__getitem__] reads at
    the logical index [idx + i]. *)
Lemma window_row k w i :
  dict_get shapes k = inr w -> 0 <= i < L ->
  exists x, np_getitem (window_of s k idx n num) i = inr x /\
            RingBuffer.__getitem__ (ring_of s k) (idx + i) = inr x.
Proof.
  intros Hk Hi.
  destruct (window_getitem c shapes ts s num idx n Hc Hb Hsch Hnum Hidx k w i Hk Hi)
    as (r & Hr & Hget).
  destruct (np_getitem_in (window_of s k idx n num) i) as (x & Hx & Hgx).
  { rewrite (window_of_len shapes s num idx n Hidx Hn k w Hk). lia. }
  exists x. split; [done|]. congruence.
Qed.

Lemma col_row k i :
  k ∈ ["obs0"; "acs"; "obs1"] -> 0 <= i < L ->
  exists x, cols b1 !! k = Some (window_of s k idx n num) /\
            np_getitem (window_of s k idx n num) i = inr x /\
            RingBuffer.__getitem__ (ring_of s k) (idx + i) = inr x.
Proof.
  intros Hk Hi.
  destruct (col_getitem c shapes ts s num idx n patcher Hc Hb Hsch Hp Hidx Hn k i Hk Hi)
    as (x & Hcol & Hx).
  destruct (schema_field shapes Hsch k) as [w Hw].
  { revert Hk. rewrite !elem_of_cons. tauto. }
  destruct (window_row k w i Hw Hi) as (x' & Hx' & Hget).
  exists x. split; [done|]. split; [done|]. congruence.
Qed.

Lemma orig_field k i :
  k <> "rews" -> k <> "idxs" -> 0 <= i < L ->
  exists o, orig_at b1 k i = inr o /\ read_if_field shapes s k (idx + i) o.
Proof.
  intros Hne1 Hne2 Hi. unfold orig_at, read_if_field.
  rewrite (patched_other s num idx n patcher Hp k Hne1). simpl.
  destruct Hsch as (Hnd & _).
  rewrite (built_batch_cols c shapes ts s _ k Hc Hb Hnd).
  rewrite decide_False by done.
  destruct (dict_get shapes k) as [e|w] eqn:Hk; [by exists None|].
  destruct (window_row k w i Hk Hi) as (x & Hx & Hget).
  unfold window_of in Hx. rewrite Hx. simpl. exists (Some x). split; [done|]. by exists x.
Qed.

(** What one pass of the loop of [lookahead] puts into the batch. *)
Lemma lookahead_step_fields gamma :
  exists e,
    lookahead_step s idx n gamma patcher = inr e /\
    1 <= la_td_len e <= L /\
    RingBuffer.__getitem__ (ring_of s "obs0") idx = inr (la_obs0 e) /\
    RingBuffer.__getitem__ (ring_of s "acs") idx = inr (la_acs e) /\
    RingBuffer.__getitem__ (ring_of s "obs1") (idx + la_td_len e - 1) = inr (la_obs1 e) /\
    RingBuffer.__getitem__ (ring_of s "obs1") idx = inr (la_obs1_td1 e) /\
    read_if_field shapes s "obs0_orig" idx (la_obs0_orig e) /\
    read_if_field shapes s "obs1_orig" (idx + la_td_len e - 1) (la_obs1_orig e) /\
    read_if_field shapes s "acs_orig" idx (la_acs_orig e).
Proof.
  destruct (lookahead_step_window c shapes ts s num idx n patcher Hc Hb Hsch Hp Hnum Hidx Hn gamma)
    as (e & j & Hstep & Hep & Hj & Htd & _ & Hdsum).
  exists e. split; [done|]. split; [lia|].
  assert (Hdones : cols b1 !! "dones1" = Some (window_of s "dones1" idx n num)).
  { rewrite (patched_other s num idx n patcher Hp) by done.
    apply (col_window c shapes ts s num idx n Hc Hb Hsch "dones1" 1%nat); [apply Hsch|done]. }
  destruct (col_row "obs0" 0) as (o0 & Ho0 & Hg0 & Hr0); [by repeat constructor|lia|].
  destruct (col_row "obs1" (Z.of_nat j)) as (o1 & Ho1 & Hg1 & Hr1); [by repeat constructor|lia|].
  destruct (col_row "acs" 0) as (a0 & Ha0 & Hga0 & Hra0); [by repeat constructor|lia|].
  destruct (col_row "obs1" 0) as (o10 & _ & Hg10 & Hr10); [by repeat constructor|lia|].
  destruct (orig_field "obs0_orig" 0) as (oo0 & Hoo0 & Hro0); [done|done|lia|].
  destruct (orig_field "obs1_orig" (Z.of_nat j)) as (oo1 & Hoo1 & Hro1); [done|done|lia|].
  destruct (orig_field "acs_orig" 0) as (oa0 & Hoa0 & Hroa0); [done|done|lia|].
  revert Hstep. unfold lookahead_step, batch_get.
  run Hnum. run (batchify_window c shapes ts s num idx n Hc Hb Hsch Hnum Hidx Hn).
  run (patch_window c shapes ts s num idx n patcher Hc Hb Hsch Hp).
  run Hdones. run Hep. run (patched_rews c shapes ts s num idx n patcher Hc Hb Hsch Hp).
  replace (idx + Z.of_nat j - idx + 1) with (Z.of_nat j + 1) by lia.
  rewrite np_slice_to_take. run Hdsum. run Ho0. run Hg0. run Ho1.
  replace (Z.of_nat j + 1 - 1) with (Z.of_nat j) by lia.
  run Hg1. run Ha0. run Hga0. run Hg10. run Hoo0. run Hoo1. run Hoa0.
  intros [= <-]. simpl.
  replace (idx + (Z.of_nat j + 1) - 1) with (idx + Z.of_nat j) by lia.
  rewrite Z.add_0_r in Hr0, Hra0, Hr10, Hro0, Hroa0. done.
Qed.

End WindowContents.

Lemma built_store_absorb : built 3 shapes_absorb four_absorb store_absorb.
Proof. eexists. split; [reflexivity|]. vm_compute. reflexivity. Defined.

Lemma schema_ok_shapes_absorb : schema_ok shapes_absorb.
Proof.
  split; [|split].
  - apply (bool_decide_unpack _). by vm_compute.
  - reflexivity.
  - repeat constructor; by eexists.
Defined.



Section LookaheadRejected.

Import ReplayBuffer.

(** A window that would end before it starts has no integer index array,
    and the first ring refuses what [np.array] makes of the empty range. *)
Lemma lookahead_step_empty_window s idx n gamma patcher num :
  num_entries s = inr num -> ring_buffers s <> [] -> n <= 0 \/ num <= idx ->
  lookahead_step s idx n gamma patcher = inl IndexError.
Proof.
  intros Hnum Hne Hcase. unfold lookahead_step. run Hnum.
  unfold la_idxs_of, la_end_idx_of, np_array_range.
  destruct (Z.leb_spec (Z.min (idx + n) num - 1 + 1) idx) as [_|Hlt]; [|lia].
  unfold batchify. by destruct (ring_buffers s) as [|[k rb] rest].
Qed.

Lemma built_rings_nonempty c shapes ts s :
  built c shapes ts s -> schema_ok shapes -> ring_buffers s <> [].
Proof.
  intros Hb (_ & Hd & _) Hnil. pose proof (built_keys c shapes ts s Hb) as Hkeys.
  rewrite Hnil in Hkeys. by destruct shapes.
Qed.

Lemma lookahead_of_steps s cs l n gamma patcher :
  (0 <= gamma <= 1)%Q ->
  lookahead s (mk_batch cs (IntArray l)) n gamma patcher
  = do la_batch <- mapM (fun idx => lookahead_step s idx n gamma patcher) l ;
    ret (la_batch, IntArray l).
Proof.
  intros [H0 H1]. unfold lookahead. apply Qle_bool_iff in H0, H1. by rewrite H0, H1.
Qed.

End LookaheadRejected.

(** X14. An index past the stored entries is answered by [IndexError],
    never by a row: with a horizon [n >= 1] and [gamma] inside [0, 1], as
    soon as one of the sampled indices, none of them negative, is at or
    beyond [num_entries], [lookahead] raises [IndexError].  The window of
    that index is an empty range, which [np.array] turns into a float
    array the rings refuse as an index; the indices before it are looked
    ahead and their entries lost. *)
Theorem lookahead_index_beyond_entries_raises (c : Z) (shapes : list (string * nat))
    (ts : list pydict) (s : ReplayBuffer.t)
    (cs : gmap string (list row)) (l : list Z) (n : Z) (gamma : Q)
    (patcher : option patcher_t) :
  0 < c -> built c shapes ts s -> schema_ok shapes -> patcher_ok patcher ->
  (0 <= gamma <= 1)%Q -> 1 <= n ->
  Forall (fun i => 0 <= i) l -> Exists (fun i => Z.min (len ts) c <= i) l ->
  ReplayBuffer.num_entries s = inr (Z.min (len ts) c) /\
  ReplayBuffer.lookahead s (mk_batch cs (IntArray l)) n gamma patcher = inl IndexError.
Proof.
  intros Hc Hb Hsch Hp Hg Hn Hpos Hex.
  pose proof (built_num_entries c shapes ts s Hc Hb Hsch) as Hnum.
  pose proof (built_rings_nonempty c shapes ts s Hb Hsch) as Hne.
  split; [done|]. rewrite lookahead_of_steps by done.
  assert (mapM (fun idx => ReplayBuffer.lookahead_step s idx n gamma patcher) l
          = inl IndexError) as ->; [|done].
  induction l as [|idx l IH]; [by apply Exists_nil in Hex|].
  apply Forall_cons in Hpos as [Hidx Hpos]. simpl.
  destruct (Z.le_gt_cases (Z.min (len ts) c) idx) as [Hout|Hin].
  - rewrite (lookahead_step_empty_window s idx n gamma patcher _ Hnum Hne); [done|by right].
  - destruct (lookahead_step_discount c shapes ts s _ idx n patcher Hc Hb Hsch Hp Hnum
                (conj Hidx Hin) Hn gamma) as (e & -> & _).
    cbn [bind ret]. rewrite IH; [done|done|].
    apply Exists_cons in Hex as [Hex|Hex]; [lia|done].
Qed.

Lemma lookahead_index_beyond_entries_raises_witness :
  ReplayBuffer.num_entries store_3_4 = inr (Z.min (len four_transitions) 3) /\
  ReplayBuffer.lookahead store_3_4 (mk_batch ∅ (IntArray [0; 3; 1])) 2 (9 # 10)
    (Some patch_next_obs)
  = inl IndexError.
Proof.
  apply (lookahead_index_beyond_entries_raises 3 shapes5 four_transitions store_3_4 ∅ [0; 3; 1]
           2 (9 # 10) (Some patch_next_obs)).
  - lia.
  - exact built_store_3_4.
  - exact schema_ok_shapes5.
  - exact patcher_ok_next_obs.
  - split; unfold Qle; simpl; lia.
  - lia.
  - repeat constructor; lia.
  - apply Exists_cons_tl, Exists_cons_hd. unfold four_transitions, len. simpl. lia.
Defined.



(** ** The rollout generator *)

Section RolloutFacts.

Import Orchestrator.

Context {W : Type}.
Variable c : collab W.
Variable rollout_len : Z.

Lemma count_calls_app p l1 l2 :
  count_calls p (l1 ++ l2) = count_calls p l1 + count_calls p l2.
Proof. unfold count_calls, len. rewrite List.filter_app, length_app. lia. Qed.

Lemma get_syn_rew_calls o a o' (st : W * list call) :
  exists new, (agent_get_syn_rew c o a o' st).2.2 = st.2 ++ new /\
              count_calls is_env_step new = 0 /\ count_calls is_store new = 0.
Proof.
  unfold agent_get_syn_rew. destruct (get_syn_rew c st.1 o a o') as [r w]. simpl.
  by exists [GetSynRew o a o'].
Qed.

(** One step stores one transition, or two when an absorbing state wraps
    the end of an episode. *)
Lemma store_step_calls ob ac new_ob done (st : W * list call) :
  exists new,
    (store_step c ob ac new_ob done st).2 = st.2 ++ new /\
    count_calls is_env_step new = 0 /\
    1 <= count_calls is_store new <= 2 /\
    ((forall w, wrap_absorb c w = false) -> count_calls is_store new = 1).
Proof.
  unfold store_step. destruct (wrap_absorb c st.1) eqn:Hw.
  - destruct (done && negb (at_time_limit c st.1)).
    + destruct (get_syn_rew_calls (np_append ob 0) (np_append ac 0)
                  (np_append (repeat 0%Q (ob_shape c st.1)) 1) st) as (n1 & H1 & Hs1 & Ht1).
      destruct (agent_get_syn_rew c _ _ _ st) as [r1 st1]. simpl in H1.
      set (st2 := agent_store_transition c _ st1).
      destruct (get_syn_rew_calls (np_append (repeat 0%Q (ob_shape c st2.1)) 1)
                  (np_append (repeat 0%Q (ac_shape c st2.1)) 1)
                  (np_append (repeat 0%Q (ob_shape c st2.1)) 1) st2) as (n2 & H2 & Hs2 & Ht2).
      destruct (agent_get_syn_rew c _ _ _ st2) as [r2 st3]. simpl in H2. simpl.
      rewrite H2. subst st2. simpl. rewrite H1.
      eexists. split; [by rewrite <- !app_assoc|].
      rewrite !count_calls_app, Hs1, Hs2, Ht1, Ht2.
      split; [done|]. split; [done|]. intros Hno. by rewrite Hno in Hw.
    + destruct (get_syn_rew_calls (np_append ob 0) (np_append ac 0) (np_append new_ob 0) st)
        as (n1 & H1 & Hs1 & Ht1).
      destruct (agent_get_syn_rew c _ _ _ st) as [r1 st1]. simpl in *. rewrite H1.
      eexists. split; [by rewrite <- !app_assoc|].
      rewrite !count_calls_app, Hs1, Ht1.
      split; [done|]. split; [done|]. intros Hno. by rewrite Hno in Hw.
  - destruct (get_syn_rew_calls ob ac new_ob st) as (n1 & H1 & Hs1 & Ht1).
    destruct (agent_get_syn_rew c _ _ _ st) as [r1 st1]. simpl in *. rewrite H1.
    eexists. split; [by rewrite <- !app_assoc|].
    rewrite !count_calls_app, Hs1, Ht1. by repeat split.
Qed.

(** From the [yield] to the end of the loop body: the action is handed to
    the environment first, and it is the only step. *)
Lemma interact_calls ob ac (st : W * list call) :
  exists new,
    (interact c ob ac st).2.2 = st.2 ++ EnvStep ac :: new /\
    count_calls is_env_step new = 0 /\
    1 <= count_calls is_store new <= 2 /\
    ((forall w, wrap_absorb c w = false) -> count_calls is_store new = 1).
Proof.
  unfold interact, env_step_call. destruct (env_step c st.1 ac) as [[new_ob done] w].
  destruct (store_step_calls ob ac new_ob done (w, st.2 ++ [EnvStep ac]))
    as (n1 & H1 & Hs1 & Ht1 & Hno).
  destruct (store_step c ob ac new_ob done _) as [w1 log1]. simpl in H1. subst log1.
  destruct done.
  - unfold env_reset_call, agent_reset_noise. simpl.
    destruct (env_reset c (reset_noise c w1)) as [ob' w2]. simpl.
    exists (n1 ++ [ResetNoise; EnvReset]). split.
    { by rewrite <- !app_assoc. }
    rewrite !count_calls_app, Hs1. change (count_calls is_env_step [ResetNoise; EnvReset]) with 0.
    change (count_calls is_store [ResetNoise; EnvReset]) with 0.
    split; [done|]. split; [lia|]. intros Hw. rewrite (Hno Hw). done.
  - simpl. exists n1. split; [by rewrite <- app_assoc|]. done.
Qed.

Lemma yield_test_false t :
  rollout_len <> 0 -> t <= 0 \/ t mod rollout_len <> 0 -> yield_test t rollout_len = inr false.
Proof.
  intros Hne Ht. unfold yield_test, py_mod.
  destruct (Z.gtb_spec t 0) as [Hpos|_]; [|done].
  destruct (Z.eqb_spec rollout_len 0) as [|_]; [done|]. simpl.
  destruct (Z.eqb_spec (t mod rollout_len) 0) as [Hm|_]; [|done]. lia.
Qed.

Lemma yield_test_true t :
  rollout_len <> 0 -> 0 < t -> t mod rollout_len = 0 -> yield_test t rollout_len = inr true.
Proof.
  intros Hne Hpos Hm. unfold yield_test, py_mod.
  destruct (Z.gtb_spec t 0) as [_|]; [|lia].
  destruct (Z.eqb_spec rollout_len 0) as [|_]; [done|]. simpl. by rewrite Hm.
Qed.

(** Python's [%] follows the sign of the divisor, so that the multiples of
    a negative [rollout_len] are those of its absolute value. *)
Lemma between_multiples t i :
  rollout_len <> 0 -> t mod rollout_len = 0 -> 0 < i < Z.abs rollout_len ->
  (t + i) mod rollout_len <> 0.
Proof.
  intros Hne Ht Hi Hm.
  apply Z.mod_divide in Ht, Hm; [|done|done].
  assert (Hd : (rollout_len | i)).
  { replace i with (t + i - t) by lia. by apply Z.divide_sub_r. }
  apply Z.divide_abs_l in Hd. apply Z.divide_pos_le in Hd; lia.
Qed.

Lemma next_multiple t :
  rollout_len <> 0 -> t mod rollout_len = 0 -> (t + Z.abs rollout_len) mod rollout_len = 0.
Proof.
  intros Hne Ht. apply Z.mod_divide in Ht; [|done]. apply Z.mod_divide; [done|].
  apply Z.divide_add_r; [done|]. apply Z.divide_abs_r. reflexivity.
Qed.

(** The loop runs as many full passes as there are steps to the next
    [yield], and pauses there. *)
Lemma loop_yields (k : nat) :
  forall (fuel : nat) t ob (st : W * list call),
    (k < fuel)%nat ->
    (forall i, 0 <= i < Z.of_nat k -> yield_test (t + i) rollout_len = inr false) ->
    yield_test (t + Z.of_nat k) rollout_len = inr true ->
    exists ob' ac' st' new,
      loop c rollout_len fuel t ob st
      = Some (Yielded (Suspended (t + Z.of_nat k) ob' ac'), st') /\
      st'.2 = st.2 ++ new /\
      count_calls is_env_step new = Z.of_nat k /\
      Z.of_nat k <= count_calls is_store new <= 2 * Z.of_nat k /\
      ((forall w, wrap_absorb c w = false) -> count_calls is_store new = Z.of_nat k).
Proof.
  induction k as [|k IH]; intros fuel t ob st Hfuel Hno Hyes.
  - destruct fuel as [|fuel]; [lia|]. simpl. unfold agent_predict.
    destruct (predict c st.1 ob) as [ac w]. simpl.
    rewrite Z.add_0_r in Hyes. rewrite Hyes.
    eexists _, _, _, [Predict ob]. split; [rewrite Z.add_0_r; reflexivity|]. done.
  - destruct fuel as [|fuel]; [lia|]. simpl. unfold agent_predict.
    destruct (predict c st.1 ob) as [ac w]. simpl.
    assert (H0 : yield_test t rollout_len = inr false).
    { rewrite <- (Z.add_0_r t). apply Hno. lia. }
    rewrite H0.
    set (ac' := np_clip (np_nan_to_num ac) (action_low c w) (action_high c w)).
    destruct (interact_calls ob ac' (w, st.2 ++ [Predict ob])) as (n1 & H1 & Hs1 & Ht1 & Hw1).
    destruct (interact c ob ac' _) as [ob1 st1]. simpl in H1.
    destruct (IH fuel (t + 1) ob1 st1) as (ob' & ac'' & st' & n2 & Hloop & H2 & Hs2 & Ht2 & Hw2).
    + lia.
    + intros i Hi. replace (t + 1 + i) with (t + (i + 1)) by lia. apply Hno. lia.
    + replace (t + 1 + Z.of_nat k) with (t + Z.of_nat (S k)) by lia. done.
    + exists ob', ac'', st', ([Predict ob] ++ (EnvStep ac' :: n1) ++ n2).
      split; [rewrite Hloop; do 4 f_equal; lia|].
      split; [rewrite H2, H1; by rewrite <- !app_assoc|].
      rewrite !count_calls_app.
      change (count_calls is_env_step [Predict ob]) with 0.
      change (count_calls is_store [Predict ob]) with 0.
      change (EnvStep ac' :: n1) with ([EnvStep ac'] ++ n1). rewrite !count_calls_app.
      change (count_calls is_env_step [EnvStep ac']) with 1.
      change (count_calls is_store [EnvStep ac']) with 0.
      split; [lia|]. split; [lia|]. intros Hw. rewrite (Hw1 Hw), (Hw2 Hw). lia.
Qed.

End RolloutFacts.

(** X16. One call of [__next__] on the rollout generator, for a
    [rollout_len] other than 0: the generator pauses again, exactly
    [|rollout_len|] steps of the environment later (a negative
    [rollout_len] counts like its absolute value, [%] following the sign of
    the divisor).  Every step stores one transition, or two when an
    absorbing state wraps the end of an episode, so that the call stores
    between [|rollout_len|] and [2 |rollout_len|] transitions, and exactly
    [|rollout_len|] without [wrap_absorb].  The action predicted before the
    pause is the first thing handed to the environment after it. *)
Theorem rollout_next_runs_rollout_len_steps {W : Type} (c : Orchestrator.collab W)
    (rollout_len : Z) (fuel : nat) (g : Orchestrator.generator)
    (st : W * list Orchestrator.call) :
  rollout_len <> 0 -> paused_ok rollout_len g -> Z.abs rollout_len < Z.of_nat fuel ->
  exists g' st' new,
    Orchestrator.next c rollout_len fuel g st = Some (Orchestrator.Yielded g', st') /\
    paused_ok rollout_len g' /\
    t_of g' = t_of g + Z.abs rollout_len /\
    st'.2 = st.2 ++ new /\
    count_calls is_env_step new = Z.abs rollout_len /\
    Z.abs rollout_len <= count_calls is_store new <= 2 * Z.abs rollout_len /\
    ((forall w, Orchestrator.wrap_absorb c w = false) ->
     count_calls is_store new = Z.abs rollout_len) /\
    (forall ac, pending_action g = Some ac ->
                new !! 0%nat = Some (Orchestrator.EnvStep ac)).
Proof.
  intros Hne Hok Hfuel. assert (HL : 0 < Z.abs rollout_len) by lia.
  destruct g as [|t ob ac]; unfold Orchestrator.next.
  - unfold Orchestrator.env_reset_call, Orchestrator.agent_reset_noise. simpl.
    destruct (Orchestrator.env_reset c (Orchestrator.reset_noise c st.1)) as [ob w].
    destruct (loop_yields c rollout_len (Z.to_nat (Z.abs rollout_len)) fuel 0 ob
                (w, (st.2 ++ [Orchestrator.ResetNoise]) ++ [Orchestrator.EnvReset]))
      as (ob' & ac' & st' & new & Hloop & Hlog & Hs & Ht & Hw).
    + lia.
    + intros i Hi. apply yield_test_false; [done|].
      destruct (Z.eq_dec i 0) as [->|Hi0]; [left; lia|right].
      apply between_multiples; [done|by rewrite Zmod_0_l|lia].
    + rewrite Z2Nat.id by lia. apply yield_test_true; [done|lia|].
      by apply next_multiple; [|rewrite Zmod_0_l].
    + rewrite Z2Nat.id in * by lia.
      exists (Orchestrator.Suspended (0 + Z.abs rollout_len) ob' ac'), st',
        ([Orchestrator.ResetNoise; Orchestrator.EnvReset] ++ new).
      split; [done|]. split.
      { simpl. split; [lia|]. by apply next_multiple; [|rewrite Zmod_0_l]. }
      split; [done|]. split; [rewrite Hlog; simpl; by rewrite <- !app_assoc|].
      rewrite !count_calls_app.
      change (count_calls is_env_step [Orchestrator.ResetNoise; Orchestrator.EnvReset]) with 0.
      change (count_calls is_store [Orchestrator.ResetNoise; Orchestrator.EnvReset]) with 0.
      split; [lia|]. split; [lia|]. split; [intros Hno; rewrite (Hw Hno); lia|]. done.
  - destruct Hok as [Hpos Hmod].
    destruct (interact_calls c ob ac st) as (n1 & H1 & Hs1 & Ht1 & Hw1).
    destruct (Orchestrator.interact c ob ac st) as [ob1 st1]. simpl in H1.
    destruct (loop_yields c rollout_len (Z.to_nat (Z.abs rollout_len - 1)) fuel (t + 1) ob1 st1)
      as (ob' & ac' & st' & n2 & Hloop & Hlog & Hs & Ht & Hw).
    + lia.
    + intros i Hi. apply yield_test_false; [done|right].
      replace (t + 1 + i) with (t + (i + 1)) by lia.
      apply between_multiples; [done|done|lia].
    + rewrite Z2Nat.id by lia.
      replace (t + 1 + (Z.abs rollout_len - 1)) with (t + Z.abs rollout_len) by lia.
      apply yield_test_true; [done|lia|by apply next_multiple].
    + rewrite Z2Nat.id in * by lia.
      replace (t + 1 + (Z.abs rollout_len - 1)) with (t + Z.abs rollout_len) in Hloop by lia.
      exists (Orchestrator.Suspended (t + Z.abs rollout_len) ob' ac'), st',
        ((Orchestrator.EnvStep ac :: n1) ++ n2).
      split; [done|]. split.
      { simpl. split; [lia|]. by apply next_multiple. }
      split; [done|]. split; [rewrite Hlog, H1; by rewrite <- !app_assoc|].
      rewrite !count_calls_app.
      change (Orchestrator.EnvStep ac :: n1) with ([Orchestrator.EnvStep ac] ++ n1).
      rewrite !count_calls_app.
      change (count_calls is_env_step [Orchestrator.EnvStep ac]) with 1.
      change (count_calls is_store [Orchestrator.EnvStep ac]) with 0.
      split; [lia|]. split; [lia|]. split; [intros Hno; rewrite (Hw1 Hno), (Hw Hno); lia|].
      intros ac0 [= <-]. done.
Qed.

Lemma rollout_next_runs_rollout_len_steps_witness :
  exists g' st' new,
    Orchestrator.next toy_collab (-2) 3 (Orchestrator.Suspended 2 [1%Q] [1%Q]) (2, [])
    = Some (Orchestrator.Yielded g', st') /\
    paused_ok (-2) g' /\
    t_of g' = t_of (Orchestrator.Suspended 2 [1%Q] [1%Q]) + Z.abs (-2) /\
    st'.2 = (2, @nil Orchestrator.call).2 ++ new /\
    count_calls is_env_step new = Z.abs (-2) /\
    Z.abs (-2) <= count_calls is_store new <= 2 * Z.abs (-2) /\
    ((forall w, Orchestrator.wrap_absorb toy_collab w = false) ->
     count_calls is_store new = Z.abs (-2)) /\
    (forall ac, pending_action (Orchestrator.Suspended 2 [1%Q] [1%Q]) = Some ac ->
                new !! 0%nat = Some (Orchestrator.EnvStep ac)).
Proof.
  apply (rollout_next_runs_rollout_len_steps toy_collab (-2) 3
           (Orchestrator.Suspended 2 [1%Q] [1%Q]) (2, [])).
  - lia.
  - simpl. split; [lia|reflexivity].
  - simpl. lia.
Defined.

(** X17. With [rollout_len = 0] the first call of [__next__] does not
    pause: the test of the first pass is cut short by [t > 0], the pass
    steps the environment once and stores its transition, and the test of
    the second pass divides by zero. *)
Theorem rollout_len_zero_raises {W : Type} (c : Orchestrator.collab W) (fuel : nat)
    (st : W * list Orchestrator.call) :
  (2 <= fuel)%nat ->
  exists st' new,
    Orchestrator.next c 0 fuel Orchestrator.Created st
    = Some (Orchestrator.Raised ZeroDivisionError, st') /\
    st'.2 = st.2 ++ new /\
    count_calls is_env_step new = 1 /\
    1 <= count_calls is_store new <= 2.
Proof.
  intros Hfuel. destruct fuel as [|[|fuel]]; [lia|lia|].
  unfold Orchestrator.next, Orchestrator.env_reset_call, Orchestrator.agent_reset_noise.
  simpl. destruct (Orchestrator.env_reset c (Orchestrator.reset_noise c st.1)) as [ob w].
  unfold Orchestrator.agent_predict at 1. simpl.
  destruct (Orchestrator.predict c w ob) as [ac w1]. simpl.
  set (ac' := Orchestrator.np_clip _ _ _).
  destruct (interact_calls c ob ac'
              (w1, (st.2 ++ [Orchestrator.ResetNoise; Orchestrator.EnvReset]) ++
                   [Orchestrator.Predict ob])) as (n1 & H1 & Hs1 & Ht1 & _).
  rewrite <- !app_assoc in *. simpl in *.
  destruct (Orchestrator.interact c ob ac' _) as [ob1 st1]. simpl in H1.
  unfold Orchestrator.agent_predict. destruct (Orchestrator.predict c st1.1 ob1) as [ac1 w2].
  simpl. eexists _, _. split; [reflexivity|]. simpl. rewrite H1.
  split; [by rewrite <- !app_assoc|].
  rewrite !count_calls_app.
  change (Orchestrator.EnvStep ac' :: n1) with ([Orchestrator.EnvStep ac'] ++ n1).
  rewrite !count_calls_app.
  change (count_calls is_env_step [Orchestrator.ResetNoise; Orchestrator.EnvReset;
                                   Orchestrator.Predict ob]) with 0.
  change (count_calls is_store [Orchestrator.ResetNoise; Orchestrator.EnvReset;
                                Orchestrator.Predict ob]) with 0.
  change (count_calls is_env_step [Orchestrator.EnvStep ac']) with 1.
  change (count_calls is_store [Orchestrator.EnvStep ac']) with 0.
  change (count_calls is_env_step [Orchestrator.Predict ob1]) with 0.
  change (count_calls is_store [Orchestrator.Predict ob1]) with 0.
  lia.
Qed.

Lemma rollout_len_zero_raises_witness :
  exists st' new,
    Orchestrator.next toy_collab 0 2 Orchestrator.Created (0, [])
    = Some (Orchestrator.Raised ZeroDivisionError, st') /\
    st'.2 = (0, @nil Orchestrator.call).2 ++ new /\
    count_calls is_env_step new = 1 /\
    1 <= count_calls is_store new <= 2.
Proof. apply (rollout_len_zero_raises toy_collab 2 (0, [])). lia. Defined.

Section RolloutStores.

Import Orchestrator.

Context {W : Type}.
Variable c : collab W.
Variable rollout_len : Z.
Variable s : ReplayBuffer.t.

Lemma append_loop_scalar rbs (tr : pydict) (k : string) :
  k ∈ rbs.*1 -> tr !! k = Some NotArray ->
  exists e, (ReplayBuffer.append_loop rbs tr).2 = Some e.
Proof.
  intros Hin Hk. induction rbs as [|[k0 rb] rest IH]; [by apply elem_of_nil in Hin|].
  rewrite fmap_cons in Hin. simpl in *.
  destruct (tr !! k0) as [[a|]|] eqn:Hk0; [|by eexists|by eexists].
  destruct (RingBuffer.append rb (NdArray a)) as [rb1 [e1|]]; [by eexists|]. simpl.
  apply IH. apply elem_of_cons in Hin as [Heq|Hin]; [|done].
  subst k0. rewrite Hk in Hk0. discriminate.
Qed.

(** A value that is no array makes [append] raise, whatever the store. *)
Lemma append_refuses_scalar (tr : pydict) (k : string) :
  tr !! k = Some NotArray -> exists e, (ReplayBuffer.append s tr).2 = Some e.
Proof.
  intros Hk. unfold ReplayBuffer.append.
  destruct (beartype_dict_ndarray tr); [|by eexists].
  case_decide as Hkeys; [|by eexists]. simpl.
  apply (append_loop_scalar _ tr k); [|done].
  assert (Hd : k ∈ dom tr) by (apply pydict_elem_of_dom; by eexists).
  rewrite <- Hkeys in Hd. by apply elem_of_list_to_set in Hd.
Qed.

Lemma stored_scalars (tr : transition) :
  as_dict tr !! "rews" = Some NotArray -> as_dict tr !! "dones1" = Some NotArray ->
  stores_scalars s (StoreTransition tr).
Proof. intros Hr Hd. split; [done|]. split; [done|]. by apply (append_refuses_scalar _ "rews"). Qed.

Lemma get_syn_rew_scalars o a o' (st : W * list call) :
  exists new, (agent_get_syn_rew c o a o' st).2.2 = st.2 ++ new /\
              Forall (stores_scalars s) new.
Proof.
  unfold agent_get_syn_rew. destruct (get_syn_rew c st.1 o a o') as [r w]. simpl.
  exists [GetSynRew o a o']. split; [done|]. by repeat constructor.
Qed.

Lemma store_step_scalars ob ac new_ob done (st : W * list call) :
  exists new,
    (store_step c ob ac new_ob done st).2 = st.2 ++ new /\ Forall (stores_scalars s) new.
Proof.
  unfold store_step. destruct (wrap_absorb c st.1).
  - destruct (done && negb (at_time_limit c st.1)).
    + destruct (get_syn_rew_scalars (np_append ob 0) (np_append ac 0)
                  (np_append (repeat 0%Q (ob_shape c st.1)) 1) st) as (n1 & H1 & Hs1).
      destruct (agent_get_syn_rew c _ _ _ st) as [r1 st1]. simpl in H1.
      set (st2 := agent_store_transition c _ st1).
      destruct (get_syn_rew_scalars (np_append (repeat 0%Q (ob_shape c st2.1)) 1)
                  (np_append (repeat 0%Q (ac_shape c st2.1)) 1)
                  (np_append (repeat 0%Q (ob_shape c st2.1)) 1) st2) as (n2 & H2 & Hs2).
      destruct (agent_get_syn_rew c _ _ _ st2) as [r2 st3]. simpl in H2. simpl.
      rewrite H2. subst st2. simpl. rewrite H1.
      eexists. split; [by rewrite <- !app_assoc|].
      apply Forall_app. split; [done|]. apply Forall_cons. split; [by apply stored_scalars|].
      apply Forall_app. split; [done|]. apply Forall_cons. split; [by apply stored_scalars|].
      constructor.
    + destruct (get_syn_rew_scalars (np_append ob 0) (np_append ac 0) (np_append new_ob 0) st)
        as (n1 & H1 & Hs1).
      destruct (agent_get_syn_rew c _ _ _ st) as [r1 st1]. simpl in *. rewrite H1.
      eexists. split; [by rewrite <- !app_assoc|].
      apply Forall_app. split; [done|]. apply Forall_cons. split; [by apply stored_scalars|].
      constructor.
  - destruct (get_syn_rew_scalars ob ac new_ob st) as (n1 & H1 & Hs1).
    destruct (agent_get_syn_rew c _ _ _ st) as [r1 st1]. simpl in *. rewrite H1.
    eexists. split; [by rewrite <- !app_assoc|].
    apply Forall_app. split; [done|]. apply Forall_cons. split; [by apply stored_scalars|].
    constructor.
Qed.

Lemma interact_scalars ob ac (st : W * list call) :
  exists new, (interact c ob ac st).2.2 = st.2 ++ new /\ Forall (stores_scalars s) new.
Proof.
  unfold interact, env_step_call. destruct (env_step c st.1 ac) as [[new_ob done] w].
  destruct (store_step_scalars ob ac new_ob done (w, st.2 ++ [EnvStep ac])) as (n1 & H1 & Hs1).
  destruct (store_step c ob ac new_ob done _) as [w1 log1]. simpl in H1. subst log1.
  destruct done.
  - unfold env_reset_call, agent_reset_noise. simpl.
    destruct (env_reset c (reset_noise c w1)) as [ob' w2]. simpl.
    exists ([EnvStep ac] ++ n1 ++ [ResetNoise; EnvReset]). split; [by rewrite <- !app_assoc|].
    apply Forall_app. split; [by repeat constructor|].
    apply Forall_app. split; [done|]. by repeat constructor.
  - simpl. exists ([EnvStep ac] ++ n1). split; [by rewrite <- !app_assoc|].
    apply Forall_app. split; [by repeat constructor|done].
Qed.

Lemma loop_scalars (fuel : nat) :
  forall t ob (st : W * list call) r st',
    loop c rollout_len fuel t ob st = Some (r, st') ->
    exists new, st'.2 = st.2 ++ new /\ Forall (stores_scalars s) new.
Proof.
  induction fuel as [|fuel IH]; intros t ob st r st'; [done|]. simpl. unfold agent_predict.
  destruct (predict c st.1 ob) as [ac w]. simpl.
  destruct (yield_test t rollout_len) as [e|[|]].
  - intros [= <- <-]. exists [Predict ob]. split; [done|]. by repeat constructor.
  - intros [= <- <-]. exists [Predict ob]. split; [done|]. by repeat constructor.
  - set (ac' := np_clip _ _ _).
    destruct (interact_scalars ob ac' (w, st.2 ++ [Predict ob])) as (n1 & H1 & Hs1).
    destruct (interact c ob ac' _) as [ob1 st1]. simpl in H1. intros Hloop.
    destruct (IH _ _ _ _ _ Hloop) as (n2 & H2 & Hs2).
    exists ([Predict ob] ++ n1 ++ n2). split; [rewrite H2, H1; by rewrite <- !app_assoc|].
    apply Forall_app. split; [by repeat constructor|]. by apply Forall_app.
Qed.

End RolloutStores.

(** X18. Whatever the environment and the agent answer, every transition
    a call of [__next__] hands to [agent.store_transition] carries its
    reward and its terminal flag as Python scalars, not as arrays: handed
    on to [ReplayBuffer.append] as it is, it makes [append] raise,
    whatever the store. *)
Theorem rollout_transitions_refused_by_append {W : Type} (c : Orchestrator.collab W)
    (rollout_len : Z) (fuel : nat) (g : Orchestrator.generator)
    (st st' : W * list Orchestrator.call) (r : Orchestrator.outcome) (s : ReplayBuffer.t) :
  Orchestrator.next c rollout_len fuel g st = Some (r, st') ->
  exists new, st'.2 = st.2 ++ new /\ Forall (stores_scalars s) new.
Proof.
  destruct g as [|t ob ac]; unfold Orchestrator.next.
  - unfold Orchestrator.env_reset_call, Orchestrator.agent_reset_noise. simpl.
    destruct (Orchestrator.env_reset c (Orchestrator.reset_noise c st.1)) as [ob w].
    intros Hloop. destruct (loop_scalars c rollout_len s _ _ _ _ _ _ Hloop) as (n & H & Hs).
    exists ([Orchestrator.ResetNoise; Orchestrator.EnvReset] ++ n).
    split; [rewrite H; simpl; by rewrite <- !app_assoc|].
    apply Forall_app. split; [by repeat constructor|done].
  - destruct (interact_scalars c s ob ac st) as (n1 & H1 & Hs1).
    destruct (Orchestrator.interact c ob ac st) as [ob1 st1]. simpl in H1.
    intros Hloop. destruct (loop_scalars c rollout_len s _ _ _ _ _ _ Hloop) as (n & H & Hs).
    exists (n1 ++ n). split; [rewrite H, H1; by rewrite <- !app_assoc|]. by apply Forall_app.
Qed.

Lemma rollout_transitions_refused_by_append_witness :
  exists new, toy_state_after.2 = (0, @nil Orchestrator.call).2 ++ new /\
              Forall (stores_scalars store_5) new.
Proof.
  apply (rollout_transitions_refused_by_append toy_collab 2 3 Orchestrator.Created (0, [])
           toy_state_after toy_outcome store_5).
  vm_compute. reflexivity.
Defined.

(** ** The episode generator *)

Section EpisodeFacts.

Import Episode.

Context {W F : Type}.
Variable c : collab W F.
Variable render_flag : bool.
Variable m : W -> nat.
Hypothesis Hend : episodes_end c m.

Lemma stepped_actions_app l1 l2 :
  stepped_actions (l1 ++ l2) = stepped_actions l1 ++ stepped_actions l2.
Proof. apply omap_app. Qed.

Lemma predicted_observations_app l1 l2 :
  predicted_observations (l1 ++ l2) = predicted_observations l1 ++ predicted_observations l2.
Proof. apply omap_app. Qed.

(** The loop leaves at the first [done], which comes within the steps the
    environment has left; what it has appended to its lists by then is
    one item per step. *)
Lemma episode_loop_returns (fuel : nat) :
  forall ob ob_rgb cur_len cur_ret os fs az rs (st : W * list call),
    (m st.1 < fuel)%nat ->
    exists tr st' new fs' rs',
      loop c render_flag fuel ob ob_rgb cur_len cur_ret os fs az rs st = Some (tr, st') /\
      st'.2 = st.2 ++ new /\
      obs tr = os ++ predicted_observations new /\
      acs tr = az ++ stepped_actions new /\
      obs_rgb tr = fs ++ fs' /\
      env_rews tr = rs ++ rs' /\
      List.length (predicted_observations new) = List.length (stepped_actions new) /\
      List.length fs' = List.length (stepped_actions new) /\
      List.length rs' = List.length (stepped_actions new) /\
      (1 <= List.length (stepped_actions new) <= S (m st.1))%nat /\
      ep_len tr = cur_len + len (stepped_actions new) /\
      ep_env_ret tr = foldl Qplus cur_ret rs' /\
      predicted_observations new !! 0%nat = Some ob.
Proof.
  destruct Hend as (Hstep & Hpred & Hrender & Hrgb).
  induction fuel as [|fuel IH]; intros ob ob_rgb cur_len cur_ret os fs az rs st Hfuel; [lia|].
  simpl. unfold agent_predict. pose proof (Hpred st.1 ob) as Hm1.
  destruct (predict c st.1 ob) as [ac w1]. simpl in *.
  set (ac' := Orchestrator.np_clip _ _ _).
  unfold env_step_call. simpl. pose proof (Hstep w1 ac') as Hm2.
  destruct (env_step c w1 ac') as [[[new_ob env_rew] done] w2]. simpl in *.
  set (st2 := if render_flag then env_render c _ else _).
  assert (exists n2, st2.2 = ((st.2 ++ [Predict ob]) ++ [EnvStep ac']) ++ n2 /\
                     stepped_actions n2 = [] /\ predicted_observations n2 = [] /\
                     (m st2.1 <= m w2)%nat) as (n2 & H2 & Hs2 & Hp2 & Hm3).
  { subst st2. destruct render_flag; simpl.
    - exists [Render]. split; [done|]. split; [done|]. split; [done|]. apply Hrender.
    - exists []. split; [by rewrite app_nil_r|]. done. }
  unfold env_render_rgb. pose proof (Hrgb st2.1) as Hm4.
  destruct (render_rgb c st2.1) as [f w3]. simpl in *.
  destruct done.
  - eexists _, _, ([Predict ob; EnvStep ac'] ++ n2 ++ [RenderRgb]), [ob_rgb], [env_rew].
    split; [reflexivity|]. simpl. rewrite H2.
    rewrite !stepped_actions_app, !predicted_observations_app, Hs2, Hp2. simpl.
    split; [by rewrite <- !app_assoc|]. repeat split; try done; try lia.
  - destruct Hm2 as [|Hm2]; [done|].
    destruct (IH new_ob f (cur_len + 1) (cur_ret + env_rew)%Q (os ++ [ob]) (fs ++ [ob_rgb])
                (az ++ [ac']) (rs ++ [env_rew]) (w3, st2.2 ++ [RenderRgb]))
      as (tr & st' & n3 & fs' & rs' & Hloop & Hlog & Ho & Ha & Hf & Hr & Hl1 & Hl2 & Hl3 &
          Hk & Hlen & Hret & _).
    { simpl. lia. }
    simpl in *.
    exists tr, st', ([Predict ob; EnvStep ac'] ++ n2 ++ [RenderRgb] ++ n3),
      (ob_rgb :: fs'), (env_rew :: rs').
    split; [done|]. rewrite Hlog, H2.
    rewrite !stepped_actions_app, !predicted_observations_app, Hs2, Hp2. simpl.
    split; [by rewrite <- !app_assoc|].
    split; [by rewrite Ho, <- app_assoc|]. split; [by rewrite Ha, <- app_assoc|].
    split; [by rewrite Hf, <- app_assoc|]. split; [by rewrite Hr, <- app_assoc|].
    split; [lia|]. split; [lia|]. split; [lia|]. split; [lia|].
    split; [rewrite Hlen; unfold len; simpl; lia|]. done.
Qed.

End EpisodeFacts.


Lemma toy_episodes_end : episodes_end toy_episode_collab toy_steps_left.
Proof.
  split; [|by repeat split]. intros w ac. simpl. unfold toy_steps_left.
  destruct (Z.eqb_spec ((w + 1) mod 3) 0) as [|Hne]; [by left|right].
  pose proof (Z.mod_pos_bound w 3 ltac:(lia)) as Hw.
  pose proof (Z.mod_pos_bound (w + 1) 3 ltac:(lia)) as Hw1.
  assert ((w + 1) mod 3 = w mod 3 + 1); [|lia].
  rewrite Z.add_mod by lia. change (1 mod 3) with 1.
  destruct (Z.eq_dec (w mod 3) 2) as [H2|H2].
  - exfalso. apply Hne. rewrite Z.add_mod by lia. rewrite H2. reflexivity.
  - apply Z.mod_small. lia.
Defined.

